(** * goWeb: cache-aside fuzzy-query dispatcher over a sentinel-managed Redis

    A shallow embedding of the Go sources
      - work/dbm/redisManger.go   (replica set, [selectReadClient], [GetDataByKey])
      - work/dbm/mongoManger.go   ([deduplicateAndSort], the fan-out search)
      - work/until/mq.go, until.go, the MQ consumers
      - work/handle public handlers ([SubmitFuzzyQuery], [GetFuzzyQueryResult])

    Conventions.  Go's [time.Duration] and wall-clock instants are integers in
    nanoseconds.  Redis is one keyspace of string and hash values with optional
    expiry instants, expired keys being invisible to every command.  Library
    routines whose code is not part of the repository (md5, encoding/json,
    time formatting, math/rand, sort.Slice, map iteration order) are the
    operations of the [GoRuntime] interface; what a theorem needs from them is
    a hypothesis of that theorem. *)

From stdpp Require Import gmap strings list fin_maps sorting.
From Stdlib Require Import ZArith Lia.

Set Warnings "-register-all".
Set Default Proof Using "Type".
Open Scope string_scope.
Open Scope Z_scope.

(** ** Go values *)

Module Go.

(** A dynamically typed Go value ([interface{}]): what a [bson.M] document
    holds and what [json.Unmarshal] produces. A [float64] is carried as its
    IEEE-754 bit pattern and never computed on. *)
Inductive value : Type :=
  | VNil
  | VBool (b : bool)
  | VString (s : string)
  | VInt (n : Z)
  | VFloat64 (bits : Z)
  | VDateTime (ms : Z)                       (* primitive.DateTime, int64 ms *)
  | VList (l : list value)
  | VMap (m : gmap string value).             (* bson.M, gin.H, map[..]interface{} *)

Definition is_nil (v : value) : bool :=
  match v with VNil => true | _ => false end.

(** [time.Duration] constants. *)
Definition Nanosecond : Z := 1.
Definition Second : Z := 1000000000 * Nanosecond.
Definition Minute : Z := 60 * Second.

(** Go's [error] values, by their message. *)
Definition error := string.

(** [fmt.Errorf("... %w", err)] as used by the sources: prefix then cause. *)
Definition wrap (prefix : string) (e : error) : error := prefix +:+ e.

(** Library routines the repository calls but does not define. *)
Class GoRuntime := {
  (** [md5.New(); Write; Sum(nil)] as a string of 16 bytes *)
  md5_sum : string -> string;
  (** [json.Marshal]; a failed marshal leaves the empty byte slice *)
  json_Marshal : value -> string;
  (** [json.Unmarshal] into an [interface{}]; [None] is a decoding error *)
  json_Unmarshal : string -> option value;
  (** [json.Unmarshal] into a [map[string]string] *)
  json_UnmarshalStrings : string -> option (gmap string string);
  (** [time.Time.Format("2006-01-02 15:04:05")] of an instant *)
  time_Format : Z -> string;
  (** [fmt.Sprintf("%.0f", x)] of a float64 *)
  fmt_f0 : Z -> string;
  (** [math/rand]: generator states and [Intn] *)
  Rand : Type;
  rand_Intn : Rand -> nat -> nat * Rand;
  (** the order in which [for _, v := range m] visits a map *)
  map_range : gmap string (gmap string value) -> list (gmap string value);
  (** [sort.Slice] with the given [less] *)
  sort_Slice : (gmap string value -> gmap string value -> bool) ->
               list (gmap string value) -> list (gmap string value);
}.

End Go.
Export Go.

(** ** The Redis keyspace *)

Module Redis.

Inductive rvalue : Type :=
  | RString (s : string)
  | RHash (h : gmap string string).

Record entry : Type := Entry { e_val : rvalue; e_exp : option Z }.

Abbreviation store := (gmap string entry).

(** A key with an expiry instant is visible strictly before that instant. *)
Definition alive (now : Z) (e : entry) : bool :=
  match e_exp e with
  | None => true
  | Some t => now <? t
  end.

Definition live (now : Z) (s : store) (k : string) : option entry :=
  match s !! k with
  | Some e => if alive now e then Some e else None
  | None => None
  end.

Definition WRONGTYPE : error :=
  "WRONGTYPE Operation against a key holding the wrong kind of value".

(** [HGETALL]: the empty map for a missing key. *)
Definition HGetAll (now : Z) (s : store) (k : string) : error + gmap string string :=
  match live now s k with
  | None => inr ∅
  | Some (Entry (RHash h) _) => inr h
  | Some (Entry (RString _) _) => inl WRONGTYPE
  end.

Definition set_fields (fv : list (string * string)) (h : gmap string string)
  : gmap string string :=
  foldl (fun acc p => <[p.1 := p.2]> acc) h fv.

(** [HSET key f1 v1 f2 v2 ...]: creates the hash, keeps an existing expiry.
    The callers drop the command's result, so a WRONGTYPE failure shows only
    as an unchanged store. *)
Definition HSet (now : Z) (s : store) (k : string) (fv : list (string * string)) : store :=
  match live now s k with
  | None => <[k := Entry (RHash (set_fields fv ∅)) None]> s
  | Some (Entry (RHash h) ex) => <[k := Entry (RHash (set_fields fv h)) ex]> s
  | Some (Entry (RString _) _) => s
  end.

(** [EXPIRE key d]: only a visible key gets a new expiry. *)
Definition Expire (now : Z) (s : store) (k : string) (d : Z) : store :=
  match live now s k with
  | Some (Entry v _) => <[k := Entry v (Some (now + d))]> s
  | None => s
  end.

(** [SET key v NX PX d]: atomic create-if-absent with expiry. *)
Definition SetNX (now : Z) (s : store) (k v : string) (d : Z) : bool * store :=
  match live now s k with
  | Some _ => (false, s)
  | None => (true, <[k := Entry (RString v) (Some (now + d))]> s)
  end.

(** The key holds no plain string, so hash commands on it do not fail. *)
Definition hashable (now : Z) (s : store) (k : string) : Prop :=
  forall v ex, live now s k <> Some (Entry (RString v) ex).

(** The key is present with no expiry before [t1]. *)
Definition heldUntil (t1 : Z) (s : store) (k : string) : Prop :=
  exists e, s !! k = Some e /\ forall t, e_exp e = Some t -> t1 <= t.

(** The value of one field of a hash, Go's [m["f"]] on the [HGetAll] result. *)
Definition field (h : gmap string string) (f : string) : string :=
  default "" (h !! f).

End Redis.
Export Redis.

(** ** Observable effects

    Calls whose order matters to the specification are recorded as a trace. *)

Inductive level : Type := LInfo | LWarn | LError.

Record Client : Type := MkClient {
  Addr : string;
  Password : string;
  DB : Z;
  handle : nat;                 (* the identity of the connection object *)
}.

Inductive event : Type :=
  | EvLock | EvUnlock | EvRLock | EvRUnlock              (* r.mu *)
  | EvNewClient (c : Client)
  | EvPing (c : Client) (ok : bool)
  | EvClose (c : Client)
  | EvAssignSlaves (cs : list Client)                    (* r.slaveClients = ... *)
  | EvLog (l : level) (msg : string)
  | EvSearch (keyword : string)
  | EvHSet (key : string) (fv : list (string * string))
  | EvExpire (key : string) (d : Z)
  | EvAck (multiple : bool)
  | EvNack (multiple requeue : bool).

#[global] Instance Client_eq_dec : EqDecision Client.
Proof. solve_decision. Defined.

(** ** work/dbm: the Redis manager *)

Module dbm.

Record FailoverOptions : Type := {
  MasterName : string;
  SentinelAddrs : list string;
  SentinelPassword : string;      (* sentinelOpts.Password *)
  SentinelDB : Z;                 (* sentinelOpts.DB *)
}.

Section RedisManger.
Context `{GoRuntime}.

Record RedisManger : Type := {
  masterClient : Client;
  slaveClients : list Client;
  maxBatches : Z;
  sentinelOpts : FailoverOptions;
  rand : Rand;
}.

Definition set_slaves (r : RedisManger) (cs : list Client) : RedisManger :=
  {| masterClient := masterClient r; slaveClients := cs;
     maxBatches := maxBatches r; sentinelOpts := sentinelOpts r;
     rand := rand r |}.

Definition set_rand (r : RedisManger) (g : Rand) : RedisManger :=
  {| masterClient := masterClient r; slaveClients := slaveClients r;
     maxBatches := maxBatches r; sentinelOpts := sentinelOpts r;
     rand := g |}.

Definition GetMasterClient (r : RedisManger) : Client := masterClient r.

(** What a Go call that may panic yields. *)
Inductive outcome (A : Type) : Type :=
  | Returned (a : A)
  | Panicked (msg : string).
#[global] Arguments Returned {A} a.
#[global] Arguments Panicked {A} msg.

#[global] Instance outcome_eq_dec {A} `{EqDecision A} : EqDecision (outcome A).
Proof. solve_decision. Defined.

(** The branch of [selectReadClient] once [r.rand.Intn(len(r.slaveClients))]
    has produced [idx]; [r.slaveClients[idx]] panics out of range. *)
Definition selectReadClient_at (r : RedisManger) (idx : nat)
  : outcome (Client * option error) * list event :=
  match slaveClients r !! idx with
  | Some c => (Returned (c, None), [EvRLock; EvRUnlock])
  | None => (Panicked "index out of range", [EvRLock; EvRUnlock])
  end.

Definition selectReadClient (r : RedisManger)
  : outcome (Client * option error) * RedisManger * list event :=
  if (0 <? length (slaveClients r))%nat then
    let '(idx, g) := rand_Intn (rand r) (length (slaveClients r)) in
    let '(o, evs) := selectReadClient_at r idx in
    (o, set_rand r g, evs)
  else
    (Returned (masterClient r, None), r,
     [EvRLock;
      EvLog LWarn "no slave clients available, use master client for read";
      EvRUnlock]).

(** The values of [Intn] in its range [0, len) on which the selection is [c]. *)
Definition drawsSelecting (r : RedisManger) (c : Client) : list nat :=
  filter (fun idx => (selectReadClient_at r idx).1 = Returned (c, None))
         (seq 0 (length (slaveClients r))).

Definition GetSlaveClient (r : RedisManger)
  : outcome (Client * option error) * RedisManger * list event :=
  match selectReadClient r with
  | (Returned (readclient, Some err), r', evs) =>
      (Returned (readclient, Some (wrap "get readClinet fail " err)), r', evs)
  | res => res
  end.

(** *** Sentinel discovery *)

(** [safeString]: nil and foreign types give the empty string. *)
Definition safeString (v : option value) : string :=
  match v with
  | None | Some VNil => ""
  | Some (VString s) => s
  | Some (VFloat64 num) => fmt_f0 num
  | Some _ => ""
  end.

Fixpoint has_colon (s : string) : bool :=
  match s with
  | EmptyString => false
  | String a rest => Ascii.eqb a (Ascii.ascii_of_nat 58) || has_colon rest
  end.

(** [net.JoinHostPort]: an address holding a colon is bracketed. *)
Definition JoinHostPort (host port : string) : string :=
  if has_colon host then "[" +:+ host +:+ "]:" +:+ port
  else host +:+ ":" +:+ port.

(** The loop of [getSlaveAddrs] over the entries of the SENTINEL SLAVES reply. *)
Fixpoint slaveAddrsOf (slaves : list value) : list string :=
  match slaves with
  | [] => []
  | VMap slaveMap :: rest =>
      let ip := safeString (slaveMap !! "ip") in
      let port := safeString (slaveMap !! "port") in
      if negb (String.eqb ip "") && negb (String.eqb port "")
      then JoinHostPort ip port :: slaveAddrsOf rest
      else slaveAddrsOf rest
  | _ :: rest => slaveAddrsOf rest
  end.

(** The network as one refresh sees it: the reply of the first sentinel to
    SENTINEL SLAVES and, per address, whether a PING succeeds. *)
Record Net : Type := {
  sentinel_do : error + value;
  ping_ok : string -> bool;
}.

Definition getSlaveAddrs (net : Net) (opts : FailoverOptions)
  : list string * option error :=
  match SentinelAddrs opts with
  | [] => ([], Some "sentinel address list is empty")
  | _ :: _ =>
      match sentinel_do net with
      | inl e => ([], Some (wrap "SENTINEL SLAVES failed: " e))
      | inr (VList slaves) =>
          match slaveAddrsOf slaves with
          | [] => ([], Some "no valid slave nodes found")
          | addrs => (addrs, None)
          end
      | inr _ => ([], Some "invalid SENTINEL SLAVES response")
      end
  end.

(** The address-rewrite [switch] of the refresh loop. *)
Definition translateAddr (addr : string) : string :=
  if String.eqb addr "172.28.0.10:6379" then "localhost:6379"
  else if String.eqb addr "172.28.0.11:6379" then "localhost:6380"
  else if String.eqb addr "172.28.0.12:6379" then "localhost:6381"
  else addr.

(** The probing loop: one trial connection per address, numbered from
    [next]; unreachable candidates are closed and skipped. *)
Fixpoint probeSlaves (net : Net) (opts : FailoverOptions)
    (addrs : list string) (next : nat) : list Client * nat * list event :=
  match addrs with
  | [] => ([], next, [])
  | addr :: rest =>
      let client := MkClient (translateAddr addr) (SentinelPassword opts)
                             (SentinelDB opts) next in
      let '(cs, next', evs) := probeSlaves net opts rest (S next) in
      if ping_ok net (Addr client)
      then (client :: cs, next', EvNewClient client :: EvPing client true :: evs)
      else (cs, next',
            EvNewClient client :: EvPing client false :: EvClose client :: evs)
  end.

(** One tick of [refreshSlaveClientsLoop]. *)
Definition refreshSlaveClients (net : Net) (r : RedisManger) (next : nat)
  : RedisManger * nat * list event :=
  let '(slaveAddrs, err) := getSlaveAddrs net (sentinelOpts r) in
  let log1 := match err with
              | Some _ => [EvLog LError "get slave addresses failed"]
              | None => []
              end in
  let '(slaveClients', next', evs) :=
      probeSlaves net (sentinelOpts r) slaveAddrs next in
  match err with
  | Some _ =>
      (r, next',
       ([EvLock] ++ log1 ++ evs ++
        [EvLog LError "refresh slave clients failed"; EvUnlock])%list)
  | None =>
      (set_slaves r slaveClients', next',
       ([EvLock] ++ log1 ++ evs ++ map EvClose (slaveClients r) ++
        [EvAssignSlaves slaveClients'; EvUnlock])%list)
  end.

(** The set one tick probed: the reachable candidates, before any swap. *)
Definition probedSet (net : Net) (r : RedisManger) (next : nat) : list Client :=
  (probeSlaves net (sentinelOpts r) (getSlaveAddrs net (sentinelOpts r)).1 next).1.1.

(** The loop itself: one tick per element of the ticker channel. *)
Fixpoint refreshSlaveClientsLoop (ticks : list Net) (r : RedisManger) (next : nat)
  : RedisManger * nat * list event :=
  match ticks with
  | [] => (r, next, [])
  | net :: rest =>
      let '(r1, next1, evs1) := refreshSlaveClients net r next in
      let '(r2, next2, evs2) := refreshSlaveClientsLoop rest r1 next1 in
      (r2, next2, (evs1 ++ evs2)%list)
  end.

(** The refresh as the specification words it, for one tick: the probed set
    is swapped in only if it is non-empty, a failed or empty probe keeps the
    previous set, and connections of the previous set are closed only after
    the assignment. *)
Definition refreshAsSpecified (net : Net) (r : RedisManger) (next : nat) : Prop :=
  let r' := (refreshSlaveClients net r next).1.1 in
  let evs := (refreshSlaveClients net r next).2 in
  (forall cs, EvAssignSlaves cs ∈ evs -> cs <> []) /\
  ((getSlaveAddrs net (sentinelOpts r)).2 <> None \/ probedSet net r next = [] ->
   slaveClients r' = slaveClients r) /\
  (forall (i j : nat) c cs, c ∈ slaveClients r ->
     evs !! i = Some (EvClose c) -> evs !! j = Some (EvAssignSlaves cs) ->
     (j < i)%nat).

(** *** Cache read *)

(** [GetDataByKey]: [fault] is a connection failure of the HGETALL, if any.
    The read goes through the client [selectReadClient] picks, whose error is
    always nil; every client of the group serves the same keyspace [s]. *)
Definition GetDataByKey (fault : option error) (now : Z) (s : store)
    (cacheKey : string) : value * string * option error :=
  let res := match fault with
             | Some e => inl e
             | None => HGetAll now s cacheKey
             end in
  match res with
  | inr cacheData =>
      if (0 <? size cacheData)%nat && String.eqb (field cacheData "status") "ready"
      then (default VNil (json_Unmarshal (field cacheData "data")), "", None)
      else (VNil, field cacheData "status", None)
  | inl err => (VNil, "", Some err)
  end.

End RedisManger.
End dbm.

(** ** work/dbm: the document search *)

Module mongo.
Import dbm.

Abbreviation bsonM := (gmap string value).

Section MongoManger.
Context `{GoRuntime}.

(** [x.(bson.M)] on a map entry. *)
Definition as_map (v : option value) : option bsonM :=
  match v with Some (VMap m) => Some m | _ => None end.

(** [x.(string)] on a map entry. *)
Definition as_string (v : option value) : option string :=
  match v with Some (VString s) => Some s | _ => None end.

(** [x.(primitive.DateTime)] on a map entry. *)
Definition as_datetime (v : option value) : option Z :=
  match v with Some (VDateTime ms) => Some ms | _ => None end.

(** [doc["hotitem"].(bson.M)["crawledat"].(primitive.DateTime)], the forced
    assertions of the comparison code; [None] where Go panics. *)
Definition crawledat (doc : bsonM) : option Z :=
  match as_map (doc !! "hotitem") with
  | Some hotitem => as_datetime (hotitem !! "crawledat")
  | None => None
  end.

Definition title (doc : bsonM) : option string :=
  match as_map (doc !! "hotitem") with
  | Some hotitem => as_string (hotitem !! "title")
  | None => None
  end.

(** [time.Unix(int64(raw)/1000, 0)]: whole seconds, Go's division truncating
    toward zero; [After] on two such instants compares the seconds. *)
Definition unixSeconds (raw : Z) : Z := raw ÷ 1000.

(** One iteration of the first loop of [deduplicateAndSort]; [None] is a
    panic of a forced type assertion. *)
Definition dedupStep (seen : gmap string bsonM) (doc : bsonM)
  : option (gmap string bsonM) :=
  match as_map (doc !! "hotitem") with
  | None => Some seen
  | Some hotitem =>
      match as_string (hotitem !! "title"), as_datetime (hotitem !! "crawledat") with
      | Some title, Some crawledAtRaw =>
          let crawledAt := unixSeconds crawledAtRaw in
          match seen !! title with
          | None => Some (<[title := doc]> seen)
          | Some existingDoc =>
              match crawledat existingDoc with
              | None => None
              | Some existingCrawledAtRaw =>
                  let existingCrawledAt := unixSeconds existingCrawledAtRaw in
                  if crawledAt >? existingCrawledAt
                  then Some (<[title := doc]> seen)
                  else Some seen
              end
          end
      | _, _ => Some seen
      end
  end.

Fixpoint dedupLoop (seen : gmap string bsonM) (docs : list bsonM)
  : option (gmap string bsonM) :=
  match docs with
  | [] => Some seen
  | doc :: rest =>
      match dedupStep seen doc with
      | Some seen' => dedupLoop seen' rest
      | None => None
      end
  end.

(** What the first loop maintains once it has gone through [docs]: every kept
    document sits under its own title, has well-typed fields and comes from
    the input; and every well-typed input document is matched, under its
    title, by a kept document that is not earlier in whole seconds. *)
Definition seenInv (docs : list bsonM) (seen : gmap string bsonM) : Prop :=
  (forall t d, seen !! t = Some d ->
     title d = Some t /\ is_Some (crawledat d) /\ d ∈ docs) /\
  (forall d' t c', d' ∈ docs -> title d' = Some t -> crawledat d' = Some c' ->
     exists d c, seen !! t = Some d /\ crawledat d = Some c /\
                 unixSeconds c' <= unixSeconds c).

(** Descending by raw [crawledat], as the result of the sort is. *)
Definition newerFirst (a b : bsonM) : Prop :=
  exists ca cb, crawledat a = Some ca /\ crawledat b = Some cb /\ cb <= ca.

(** The [less] of the final sort: [timeI > timeJ] on the raw milliseconds. *)
Definition less (a b : bsonM) : bool :=
  match crawledat a, crawledat b with
  | Some timeI, Some timeJ => timeI >? timeJ
  | _, _ => false
  end.

(** [deduplicateAndSort]; [None] is a panic (a forced assertion, or slicing
    with a negative [limit]). *)
Definition deduplicateAndSort (docs : list bsonM) (limit : Z) : option (list bsonM) :=
  match dedupLoop ∅ docs with
  | None => None
  | Some seen =>
      let uniqueDocs := sort_Slice less (map_range seen) in
      if Z.of_nat (length uniqueDocs) >? limit then
        if limit <? 0 then None else Some (take (Z.to_nat limit) uniqueDocs)
      else Some uniqueDocs
  end.

(** The database as one search sees it. *)
Record MongoManger : Type := {
  listCollectionNames : error + list string;
  querySingleCollection : string -> string -> error + list bsonM;
  (** the order in which the per-collection goroutines deliver *)
  arrival : list string -> list string;
}.

(** The results that reached [resultChan], merged in order of arrival;
    collections whose query failed are logged and left out. *)
Fixpoint mergeResults (m : MongoManger) (keyword : string) (names : list string)
  : list bsonM :=
  match names with
  | [] => []
  | name :: rest =>
      match querySingleCollection m name keyword with
      | inr results => (results ++ mergeResults m keyword rest)%list
      | inl _ => mergeResults m keyword rest
      end
  end.

Definition GetMongoDataFuzzyByKeyword (m : MongoManger) (keyword : string)
  : outcome (value * option error) :=
  match listCollectionNames m with
  | inl err => Returned (VNil, Some (wrap "获取集合列表失败: " err))
  | inr collectionNames =>
      let allResults := mergeResults m keyword (arrival m collectionNames) in
      match deduplicateAndSort allResults 50 with
      | Some finalResults => Returned (VList (VMap <$> finalResults), None)
      | None => Panicked "interface conversion"
      end
  end.

End MongoManger.
End mongo.

(** ** work/until: keys, queue, consumer *)

Module until.
Import dbm.

Definition ResultCachePrefix : string := "query-result:".
Definition FuzzyCachePrefix : string := "fuzzy:cache:".
Definition FuzzyLockPrefix : string := "fuzzy:lock:".
Definition FuzzyQueueName : string := "fuzzy-query-queue".
Definition FuzzyCacheExpire : Z := 10 * Minute.
Definition UserTypeVIP : string := "vip".

Record Response : Type := { Code : Z; Message : string; Data : value }.
Record BusinessError : Type := { ErrCode : Z; ErrMessage : string }.

(** A message as published and as delivered. *)
Record Publishing : Type := { Body : string; Priority : Z }.

(** The broker: whether [mqChannel] is set, and the messages of each queue in
    order of publication. *)
Record MQ : Type := {
  channel : bool;
  queues : gmap string (list Publishing);
}.

Definition queue (mq : MQ) (name : string) : list Publishing :=
  default [] (queues mq !! name).

(** Modelled from the spec: [PublishPriorityMQ] is called by the handler but
    its body is not among the sources. It follows its sibling [PublishMQ]
    (an unset channel is an error) and the spec's queue capability (publish
    with a priority attribute): on success the message is appended to the
    named queue, on failure ([fault], the broker's or the context's error)
    the queue is unchanged and the error returned. *)
Definition PublishPriorityMQ (fault : option error) (mq : MQ)
    (queueName body : string) (priority : Z) : error + MQ :=
  if negb (channel mq) then inl "mq channel not initialized"
  else match fault with
       | Some e => inl e
       | None =>
           inr {| channel := channel mq;
                  queues := <[queueName :=
                     (queue mq queueName ++ [{| Body := body; Priority := priority |}])%list]>
                     (queues mq) |}
       end.

Section Keys.
Context `{GoRuntime}.

Definition generateKeywordHash (keyword : string) : string := md5_sum keyword.

Definition GetFuzzyCacheKey (keyword : string) : string :=
  FuzzyCachePrefix +:+ generateKeywordHash keyword.

Definition GetFuzzyLockKey (keyword : string) : string :=
  FuzzyLockPrefix +:+ generateKeywordHash keyword.

(** The fields the worker writes. *)
Definition readyFields (resultJSON : string) (now : Z) : list (string * string) :=
  [("status", "ready"); ("data", resultJSON); ("update_time", time_Format now)].

(** The body of the goroutine [startFuzzyQueryConsumer] starts per delivery.
    [search] is [dbm.AllDbManger.MongoManger.GetMongoDataFuzzyByKeyword]; the
    deferred function turns a panic into a negative acknowledgement with
    requeue. The master client's HSET and EXPIRE results are dropped. *)
Definition fuzzyQueryWorker (search : string -> outcome (value * option error))
    (now : Z) (s : store) (msg : Publishing) : store * list event :=
  match json_UnmarshalStrings (Body msg) with
  | None => (s, [EvLog LError "解析模糊查询消息失败:"; EvAck false])
  | Some msgData =>
      let keyword := field msgData "keyword" in
      let cacheKey := GetFuzzyCacheKey keyword in
      match search keyword with
      | Panicked _ =>
          (s, [EvLog LInfo "开始模糊查询"; EvSearch keyword;
               EvLog LError "模糊查询消费者"; EvNack false true])
      | Returned (resultList, err) =>
          let resultJSON := json_Marshal resultList in
          let s1 := HSet now s cacheKey (readyFields resultJSON now) in
          let s2 := Expire now s1 cacheKey FuzzyCacheExpire in
          (s2,
           ([EvLog LInfo "开始模糊查询"; EvSearch keyword] ++
            match err with
            | Some _ => [EvLog LError "模糊查询数据库失败"]
            | None => []
            end ++
            [EvLog LInfo "模糊查询成功";
             EvHSet cacheKey (readyFields resultJSON now);
             EvExpire cacheKey FuzzyCacheExpire;
             EvAck false])%list)
      end
  end.

(** The loop of the consumer, one delivery after the other, each at its
    instant. It ends when the context is cancelled, which it logs, or when
    the channel of deliveries is closed, which it does not. *)
Fixpoint startFuzzyQueryConsumer (search : string -> outcome (value * option error))
    (s : store) (msgs : list (Z * Publishing)) (cancelled : bool)
  : store * list event :=
  match msgs with
  | [] => (s, if cancelled then [EvLog LInfo "模糊查询消费者退出"] else [])
  | (now, msg) :: rest =>
      let '(s1, evs1) := fuzzyQueryWorker search now s msg in
      let '(s2, evs2) := startFuzzyQueryConsumer search s1 rest cancelled in
      (s2, (evs1 ++ evs2)%list)
  end.

End Keys.
End until.

(** ** work/handle: the public query handlers *)

Module handle.
Import dbm until.

(** What a handler leaves in the gin context. *)
Inductive reply : Type :=
  | JSON (status : Z) (body : Response)       (* c.JSON(status, until.Response{..}) *)
  | Error (e : BusinessError)                 (* c.Error(&until.BusinessError{..}) *)
  | NoReply.

Definition StatusOK : Z := 200.

(** The state shared by all requests: the Redis keyspace and the broker. *)
Record World : Type := { kv : store; mq : MQ }.

(** One submission: the request, the instant it is served, the two
    identifiers [GenerateReqID] hands out, and the failures of the calls
    whose error the handler inspects. *)
Record Submission : Type := {
  keyword : string;                 (* c.Query("keyword") *)
  user_type : string;               (* c.GetString("user_type") *)
  at_time : Z;
  reqID : string;
  lockVal : string;
  read_fault : option error;        (* HGETALL of the cache key *)
  lock_fault : option error;        (* SETNX of the lock key *)
  publish_fault : option error;     (* the publish to the broker *)
}.

Section Handlers.
Context `{GoRuntime}.

Definition loadingFields (keyword : string) (now : Z) : list (string * string) :=
  [("status", "loading"); ("keyword", keyword); ("create_time", time_Format now)].

Definition pendingFields (keyword cacheKey : string) : list (string * string) :=
  [("status", "pending"); ("keyword", keyword); ("cache_key", cacheKey)].

(** [gin.H{"k1": v1, ...}] *)
Definition ginH (kvs : list (string * value)) : value :=
  VMap (list_to_map kvs).

(** Step 4 of [SubmitFuzzyQuery], the SETNX on the master with its 5 s expiry. *)
Definition acquireLock (q : Submission) (s : store) (lockKey : string)
  : error + bool * store :=
  match lock_fault q with
  | Some e => inl e
  | None => inr (SetNX (at_time q) s lockKey (lockVal q) (5 * Second))
  end.

Definition SubmitFuzzyQuery (q : Submission) (w : World) : World * reply :=
  let keyword := keyword q in
  let now := at_time q in
  let priority := if String.eqb (user_type q) UserTypeVIP then 10 else 0 in
  if String.eqb keyword "" then
    (w, Error {| ErrCode := 400; ErrMessage := "参数错误：keyword不能为空" |})
  else
  (* 1. cache key and lock key *)
  let cacheKey := GetFuzzyCacheKey keyword in
  let lockKey := GetFuzzyLockKey keyword in
  (* 2. cache lookup: a ready payload is returned at once *)
  let '(data, status, err) := GetDataByKey (read_fault q) now (kv w) cacheKey in
  match err with
  | Some e =>
      (w, Error {| ErrCode := 500; ErrMessage := "获取数据失败：" +:+ e |})
  | None =>
  if negb (is_nil data) then
    (w, JSON StatusOK {| Code := 0; Message := "获取成功"; Data := data |})
  else
  (* 3. the request id for polling *)
  let reqStatusKey := ResultCachePrefix +:+ reqID q in
  (* 4. the dedup lock *)
  match acquireLock q (kv w) lockKey with
  | inl e =>
      (w, Error {| ErrCode := 500; ErrMessage := "获取锁失败：" +:+ e |})
  | inr (lockSuccess, s1) =>
  (* 5. lock taken and cache not loading: mark loading, publish *)
  let '(s2, mq2, perr) :=
    if lockSuccess && negb (String.eqb status "loading") then
      let s' := HSet now s1 cacheKey (loadingFields keyword now) in
      let s'' := Expire now s' cacheKey FuzzyCacheExpire in
      let msgJSON := json_Marshal (VMap {[ "keyword" := VString keyword ]}) in
      match PublishPriorityMQ (publish_fault q) (mq w) FuzzyQueueName msgJSON priority with
      | inl e => (s'', mq w, Some e)
      | inr mq' => (s'', mq', None)
      end
    else (s1, mq w, None) in
  match perr with
  | Some e =>
      ({| kv := s2; mq := mq2 |},
       Error {| ErrCode := 500;
                ErrMessage := "发布模糊查询 MQ 消息失败 keyword:" +:+ keyword +:+
                              " error:" +:+ e |})
  | None =>
  (* 6. the request handle *)
  let s3 := HSet now s2 reqStatusKey (pendingFields keyword cacheKey) in
  let s4 := Expire now s3 reqStatusKey (5 * Minute) in
  (* 7. the polling hint *)
  ({| kv := s4; mq := mq2 |},
   JSON StatusOK
     {| Code := 1; Message := "数据查询中，请轮询获取结果";
        Data := ginH [("req_id", VString (reqID q));
                      ("poll_url",
                       VString ("/api/public/query/fuzzy/result?req_id=" +:+ reqID q))] |})
  end end end.

(** One poll: the request id, the instant, and the failures of the two
    HGETALL calls. *)
Record Poll : Type := {
  poll_reqID : string;              (* c.Query("req_id") *)
  poll_time : Z;
  handle_fault : option error;      (* HGETALL of the request handle *)
  cache_fault : option error;       (* HGETALL of the cache entry *)
}.

Definition hgetall (fault : option error) (now : Z) (s : store) (k : string)
  : error + gmap string string :=
  match fault with
  | Some e => inl e
  | None => HGetAll now s k
  end.

Definition progressReply (reqID : string) (progress : Z) : reply :=
  JSON StatusOK
    {| Code := 1; Message := "数据查询中，建议 1 秒后再轮询";
       Data := ginH [("req_id", VString reqID); ("progress", VInt progress)] |}.

Definition notFound : reply :=
  Error {| ErrCode := 404; ErrMessage := "请求不存在或已过期" |}.

(** [GetFuzzyQueryResult]. [GetSlaveClient] returns a nil error on every
    path, so its error branch is not taken. *)
Definition GetFuzzyQueryResult (p : Poll) (s : store) : reply :=
  let reqID := poll_reqID p in
  if String.eqb reqID "" then
    Error {| ErrCode := 400; ErrMessage := "参数错误：req_id不能为空" |}
  else
  let reqStatusKey := ResultCachePrefix +:+ reqID in
  (* 1. the request handle *)
  match hgetall (handle_fault p) (poll_time p) s reqStatusKey with
  | inl _ => notFound
  | inr statusMap =>
  if (size statusMap =? 0)%nat then notFound else
  let cacheKey := field statusMap "cache_key" in
  (* 2. the cache entry *)
  match hgetall (cache_fault p) (poll_time p) s cacheKey with
  | inl _ => progressReply reqID 50
  | inr cacheData =>
  if (size cacheData =? 0)%nat then progressReply reqID 50 else
  let status := field cacheData "status" in
  if String.eqb status "loading" then progressReply reqID 70
  else if String.eqb status "failed" then
    Error {| ErrCode := 500;
             ErrMessage := "查询失败：" +:+ field cacheData "error_msg" |}
  else if String.eqb status "ready" then
    JSON StatusOK
      {| Code := 0; Message := "获取成功";
         Data := default VNil (json_Unmarshal (field cacheData "data")) |}
  else NoReply
  end end.

(** The priority and the message body the handler publishes with. *)
Definition priorityOf (q : Submission) : Z :=
  if String.eqb (user_type q) UserTypeVIP then 10 else 0.

Definition workItemBody (keyword : string) : string :=
  json_Marshal (VMap {[ "keyword" := VString keyword ]}).

(** Step 2 of the handler: what it read from the cache. *)
Definition cacheRead (q : Submission) (w : World) : value * string * option error :=
  GetDataByKey (read_fault q) (at_time q) (kv w) (GetFuzzyCacheKey (keyword q)).

(** The lock entry a successful SETNX of this submission creates. *)
Definition lockEntry (q : Submission) : entry :=
  Entry (RString (lockVal q)) (Some (at_time q + 5 * Second)).

(** *** Runs of the system *)

(** The operations that write the keyspace. *)
Inductive sysop : Type :=
  | Submit (q : Submission)
  | Work (search : string -> outcome (value * option error)) (now : Z) (msg : Publishing).

Definition step (o : sysop) (w : World) : World :=
  match o with
  | Submit q => (SubmitFuzzyQuery q w).1
  | Work search now msg =>
      {| kv := (fuzzyQueryWorker search now (kv w) msg).1; mq := mq w |}
  end.

Definition run (ops : list sysop) (w : World) : World :=
  foldl (fun w o => step o w) w ops.

Definition opTime (o : sysop) : Z :=
  match o with
  | Submit q => at_time q
  | Work _ now _ => now
  end.

(** The number of work items on the fuzzy-query queue. *)
Definition enqueued (w : World) : nat := length (queue (mq w) FuzzyQueueName).

(** The status of a cache entry as a reader sees it at [now]: [None] when the
    key is absent or expired. *)
Definition entryStatus (now : Z) (s : store) (cacheKey : string) : option string :=
  match live now s cacheKey with
  | Some (Entry (RHash h) _) => Some (field h "status")
  | _ => None
  end.

(** The order of the specification: absent < loading < {ready, failed}. *)
Definition statusRank (st : option string) : nat :=
  match st with
  | None => 0
  | Some s => if String.eqb s "loading" then 1
              else if String.eqb s "ready" then 2
              else if String.eqb s "failed" then 2
              else 0
  end.

(** The monotonicity of the specification for one operation and the cache
    key of one keyword, observed at the instant of the operation. *)
Definition statusNonDecreasing (o : sysop) (w : World) (kw : string) : Prop :=
  (statusRank (entryStatus (opTime o) (kv w) (GetFuzzyCacheKey kw)) <=
   statusRank (entryStatus (opTime o) (kv (step o w)) (GetFuzzyCacheKey kw)))%nat.

(** *** Concurrent submissions

    The handler as the sequence of commands it issues to Redis and to the
    broker, each atomic on its own and each at its own instant, so that the
    commands of several requests can interleave. The control points are the
    numbered steps of [SubmitFuzzyQuery]. *)

Inductive pc : Type :=
  | AtStart                       (* before the cache lookup (step 2) *)
  | AtLock (status : string)      (* no payload read; before the SETNX (step 4) *)
  | AtMark                        (* lock taken, status not loading: before HSET *)
  | AtMarkExpire                  (* before the EXPIRE of the cache key *)
  | AtPublish                     (* before the publish *)
  | AtHandle                      (* before the HSET of the request handle (step 6) *)
  | AtHandleExpire                (* before the EXPIRE of the request handle *)
  | Finished (r : reply).

(** The submission as served at [now]. *)
Definition served (q : Submission) (now : Z) : Submission :=
  {| keyword := keyword q; user_type := user_type q; at_time := now;
     reqID := reqID q; lockVal := lockVal q; read_fault := read_fault q;
     lock_fault := lock_fault q; publish_fault := publish_fault q |}.

(** The next command of a request at control point [pt], issued at [now]. *)
Definition command (now : Z) (q : Submission) (pt : pc) (w : World) : pc * World :=
  let keyword := keyword q in
  let cacheKey := GetFuzzyCacheKey keyword in
  let lockKey := GetFuzzyLockKey keyword in
  let reqStatusKey := ResultCachePrefix +:+ reqID q in
  match pt with
  | AtStart =>
      if String.eqb keyword "" then
        (Finished (Error {| ErrCode := 400;
                            ErrMessage := "参数错误：keyword不能为空" |}), w)
      else
      let '(data, status, err) := GetDataByKey (read_fault q) now (kv w) cacheKey in
      match err with
      | Some e =>
          (Finished (Error {| ErrCode := 500;
                              ErrMessage := "获取数据失败：" +:+ e |}), w)
      | None =>
          if negb (is_nil data) then
            (Finished (JSON StatusOK {| Code := 0; Message := "获取成功";
                                        Data := data |}), w)
          else (AtLock status, w)
      end
  | AtLock status =>
      match acquireLock (served q now) (kv w) lockKey with
      | inl e =>
          (Finished (Error {| ErrCode := 500;
                              ErrMessage := "获取锁失败：" +:+ e |}), w)
      | inr (lockSuccess, s1) =>
          (if lockSuccess && negb (String.eqb status "loading")
           then AtMark else AtHandle,
           {| kv := s1; mq := mq w |})
      end
  | AtMark =>
      (AtMarkExpire,
       {| kv := HSet now (kv w) cacheKey (loadingFields keyword now); mq := mq w |})
  | AtMarkExpire =>
      (AtPublish,
       {| kv := Expire now (kv w) cacheKey FuzzyCacheExpire; mq := mq w |})
  | AtPublish =>
      match PublishPriorityMQ (publish_fault q) (mq w) FuzzyQueueName
                              (workItemBody keyword) (priorityOf q) with
      | inl e =>
          (Finished
             (Error {| ErrCode := 500;
                       ErrMessage := "发布模糊查询 MQ 消息失败 keyword:" +:+ keyword +:+
                                     " error:" +:+ e |}), w)
      | inr mq' => (AtHandle, {| kv := kv w; mq := mq' |})
      end
  | AtHandle =>
      (AtHandleExpire,
       {| kv := HSet now (kv w) reqStatusKey (pendingFields keyword cacheKey);
          mq := mq w |})
  | AtHandleExpire =>
      (Finished
         (JSON StatusOK
            {| Code := 1; Message := "数据查询中，请轮询获取结果";
               Data := ginH [("req_id", VString (reqID q));
                             ("poll_url",
                              VString ("/api/public/query/fuzzy/result?req_id=" +:+
                                       reqID q))] |}),
       {| kv := Expire now (kv w) reqStatusKey (5 * Minute); mq := mq w |})
  | Finished r => (Finished r, w)
  end.

(** [n] commands of one request in a row, all at [now]. *)
Fixpoint commands (n : nat) (now : Z) (q : Submission) (pt : pc) (w : World)
  : pc * World :=
  match n with
  | O => (pt, w)
  | S n' => let '(pt', w') := command now q pt w in commands n' now q pt' w'
  end.

(** Requests in flight, each at its control point, over one world. *)
Record System : Type := { threads : list (Submission * pc); world : World }.

(** One move of the scheduler: request [i] issues its next command at [now],
    or a worker serves a delivery. *)
Inductive move : Type :=
  | Cmd (i : nat) (now : Z)
  | Deliver (search : string -> outcome (value * option error)) (now : Z)
            (msg : Publishing).

Definition sysStep (m : move) (sys : System) : System :=
  match m with
  | Cmd i now =>
      match threads sys !! i with
      | Some (q, pt) =>
          let '(pt', w') := command now q pt (world sys) in
          {| threads := <[i := (q, pt')]> (threads sys); world := w' |}
      | None => sys
      end
  | Deliver search now msg =>
      {| threads := threads sys;
         world := {| kv := (fuzzyQueryWorker search now (kv (world sys)) msg).1;
                     mq := mq (world sys) |} |}
  end.

Definition sysRun (sched : list move) (sys : System) : System :=
  foldl (fun sys m => sysStep m sys) sys sched.

(** A request that holds the right to publish and has not published yet. *)
Definition aboutToPublish (th : Submission * pc) : bool :=
  match th.2 with
  | AtMark | AtMarkExpire | AtPublish => true
  | _ => false
  end.

Definition pending (ths : list (Submission * pc)) : nat :=
  length (filter (fun th => aboutToPublish th = true) ths).

(** What the lock maintains over interleaved requests for keyword [k] whose
    commands fall in the window [t0, t0 + 5 s): counted from [base] items on
    the queue, at most one request has published or is about to, and when one
    has, the lock of [k] outlives the window. *)
Definition dedupInv (k : string) (t0 : Z) (base : nat) (sys : System) : Prop :=
  Forall (fun th => keyword th.1 = k) (threads sys) /\
  (pending (threads sys) + enqueued (world sys) <= base + 1)%nat /\
  ((pending (threads sys) + enqueued (world sys) = base + 1)%nat ->
   heldUntil (t0 + 5 * Second) (kv (world sys)) (GetFuzzyLockKey k)).

Definition inWindow (t0 : Z) (m : move) : Prop :=
  match m with
  | Cmd _ now => t0 <= now < t0 + 5 * Second
  | Deliver _ _ _ => True
  end.

End Handlers.
End handle.

(** ** A runtime to run the model on

    JSON restricted to the fragment the examples need (null, the empty
    array, strings without escapes, the one-field work item), a counter for
    [math/rand], key order for map iteration, insertion sort for
    [sort.Slice]. *)

Module Reference.
Import dbm mongo until handle.

Definition dquote : string := String (Ascii.ascii_of_nat 34) EmptyString.

Fixpoint has_dquote (s : string) : bool :=
  match s with
  | EmptyString => false
  | String a rest => Ascii.eqb a (Ascii.ascii_of_nat 34) || has_dquote rest
  end.

(** [s] without its prefix [p], when it has it. *)
Fixpoint strip_prefix (p s : string) : option string :=
  match p, s with
  | EmptyString, _ => Some s
  | String a p', String b s' => if Ascii.eqb a b then strip_prefix p' s' else None
  | String _ _, EmptyString => None
  end.

Definition strip_suffix (p s : string) : option string :=
  match strip_prefix (String.rev p) (String.rev s) with
  | Some r => Some (String.rev r)
  | None => None
  end.

Definition quoted (s : string) : string := dquote +:+ s +:+ dquote.

Definition unquoted (s : string) : option string :=
  match strip_prefix dquote s with
  | Some r =>
      match strip_suffix dquote r with
      | Some body => if has_dquote body then None else Some body
      | None => None
      end
  | None => None
  end.

Definition itemOpen : string := "{" +:+ quoted "keyword" +:+ ":".

Definition marshal (v : value) : string :=
  match v with
  | VNil => "null"
  | VBool true => "true"
  | VBool false => "false"
  | VString s => quoted s
  | VList [] => "[]"
  | VMap m =>
      match m !! "keyword" with
      | Some (VString k) =>
          if (size m =? 1)%nat then itemOpen +:+ quoted k +:+ "}" else ""
      | _ => ""
      end
  | _ => ""
  end.

Definition unmarshalItem (s : string) : option string :=
  match strip_prefix itemOpen s with
  | Some r =>
      match strip_suffix "}" r with
      | Some q => unquoted q
      | None => None
      end
  | None => None
  end.

Definition unmarshal (s : string) : option value :=
  if String.eqb s "null" then Some VNil
  else if String.eqb s "true" then Some (VBool true)
  else if String.eqb s "false" then Some (VBool false)
  else if String.eqb s "[]" then Some (VList [])
  else match unquoted s with
       | Some body => Some (VString body)
       | None =>
           match unmarshalItem s with
           | Some k => Some (VMap {[ "keyword" := VString k ]})
           | None => None
           end
       end.

Definition unmarshalStrings (s : string) : option (gmap string string) :=
  match unmarshalItem s with
  | Some k => Some {[ "keyword" := k ]}
  | None => None
  end.

Fixpoint insertBy {A} (less : A -> A -> bool) (x : A) (l : list A) : list A :=
  match l with
  | [] => [x]
  | y :: rest => if less y x then y :: insertBy less x rest else x :: l
  end.

Fixpoint insertionSort {A} (less : A -> A -> bool) (l : list A) : list A :=
  match l with
  | [] => []
  | x :: rest => insertBy less x (insertionSort less rest)
  end.

#[local] Instance runtime : GoRuntime := {|
  md5_sum := fun s => s;
  json_Marshal := marshal;
  json_Unmarshal := unmarshal;
  json_UnmarshalStrings := unmarshalStrings;
  time_Format := fun _ => "2006-01-02 15:04:05";
  fmt_f0 := fun _ => "0";
  Rand := nat;
  rand_Intn := fun g n => ((g `mod` n)%nat, S g);
  map_range := fun m => (map_to_list m).*2;
  sort_Slice := insertionSort;
|}.

(** *** Concrete data *)

Definition opts0 : FailoverOptions :=
  {| MasterName := "mymaster"; SentinelAddrs := ["localhost:26379"];
     SentinelPassword := ""; SentinelDB := 0 |}.

Definition master0 : Client := MkClient "localhost:6379" "" 0 0%nat.
Definition slave1 : Client := MkClient "localhost:6380" "" 0 1%nat.
Definition slave2 : Client := MkClient "localhost:6381" "" 0 2%nat.

Definition manager (slaves : list Client) (g : nat) : RedisManger :=
  {| masterClient := master0; slaveClients := slaves; maxBatches := 10;
     sentinelOpts := opts0; rand := g |}.

(** A sentinel that lists one replica, and a network on which it does not
    answer PING. *)
Definition slaveInfo (ip port : string) : value :=
  VMap (list_to_map [("ip", VString ip); ("port", VString port)]).

Definition netDown : Net :=
  {| sentinel_do := inr (VList [slaveInfo "172.28.0.11" "6379"]);
     ping_ok := fun _ => false |}.

Definition netUp : Net :=
  {| sentinel_do := inr (VList [slaveInfo "172.28.0.11" "6379"]);
     ping_ok := fun _ => true |}.

Definition netNoSentinel : Net :=
  {| sentinel_do := inl "dial tcp: connection refused";
     ping_ok := fun _ => true |}.

Definition world0 : World :=
  {| kv := ∅; mq := {| channel := true; queues := ∅ |} |}.

Definition submission (kw : string) (t : Z) (rid lv : string) : Submission :=
  {| keyword := kw; user_type := ""; at_time := t; reqID := rid; lockVal := lv;
     read_fault := None; lock_fault := None; publish_fault := None |}.

Definition workItem (kw : string) : Publishing :=
  {| Body := marshal (VMap {[ "keyword" := VString kw ]}); Priority := 0 |}.

(** Two requests for one keyword in flight, and a schedule in which both
    read the cache before either takes the lock. *)
Definition racingRequests : System :=
  {| threads := [(submission "weather" 0 "r1" "l1", AtStart);
                 (submission "weather" 0 "r2" "l2", AtStart)];
     world := world0 |}.

Definition racingSchedule : list move :=
  [Cmd 0 0; Cmd 1 (1 * Second);              (* both look the cache up *)
   Cmd 1 (2 * Second); Cmd 0 (3 * Second);   (* both try the lock *)
   Cmd 1 (3 * Second); Cmd 0 (3 * Second); Cmd 1 (3 * Second);
   Cmd 1 (4 * Second); Cmd 0 (4 * Second); Cmd 1 (4 * Second);
   Cmd 1 (4 * Second)].

(** A submission whose publish times out. *)
Definition brokerDown : Submission :=
  {| keyword := "weather"; user_type := "vip"; at_time := 0;
     reqID := "r1"; lockVal := "l1";
     read_fault := None; lock_fault := None;
     publish_fault := Some "context deadline exceeded" |}.

(** A search that cannot list the collections, as [GetMongoDataFuzzyByKeyword]
    reports it. *)
Definition mongoDown : MongoManger :=
  {| listCollectionNames := inl "server selection timeout";
     querySingleCollection := fun _ _ => inr [];
     arrival := fun names => names |}.

Definition searchDown : string -> outcome (value * option error) :=
  GetMongoDataFuzzyByKeyword mongoDown.

(** A first submission at 0 s, then its work item served at 1 s by a search
    that fails. *)
Definition afterFailedSearch : World :=
  run [Submit (submission "weather" 0 "r1" "l1");
       Work searchDown Second (workItem "weather")] world0.

Definition mongoOne : MongoManger :=
  {| listCollectionNames := inr ["weibo"];
     querySingleCollection := fun _ _ => inr [];
     arrival := fun names => names |}.


(** A second submission of the keyword at 6 s, after the lock expired. *)
Definition resubmit : sysop :=
  Submit (submission "weather" (6 * Second) "r2" "l2").

(** The second of the two requests looks the cache up first; the first runs
    to its end and its work item is served at 1 s. *)
Definition stalledSchedule : list move :=
  [Cmd 1 0;
   Cmd 0 0; Cmd 0 0; Cmd 0 0; Cmd 0 0; Cmd 0 0; Cmd 0 0; Cmd 0 0;
   Deliver (GetMongoDataFuzzyByKeyword mongoOne) Second (workItem "weather")].

(** The second request goes on at 6 s: SETNX, HSET, EXPIRE, publish. *)
Definition stalledResume : list move :=
  [Cmd 1 (6 * Second); Cmd 1 (6 * Second); Cmd 1 (6 * Second); Cmd 1 (6 * Second)].

Definition hotDoc (t : string) (ms : Z) : bsonM :=
  {[ "hotitem" := VMap (list_to_map [("title", VString t); ("crawledat", VDateTime ms)]) ]}.

End Reference.

(** ** Further code of the repository

    The functions below are those the files above hold besides the ones
    already embedded, with the callers and helpers they share. *)

(** *** work/dbm: start-up and the life of the replica set *)

Module replicas.
Import dbm.

Section Replicas.
Context `{GoRuntime}.

(** What one tick of the refresh, and by induction the loop, keeps: identities
    only grow, the master and the sentinel options stay, every client in
    service is older than the next identity and was not closed, a closed
    client is older than the next identity, and a client in service is an
    original one or was opened since. *)
Definition refreshKeeps (r : RedisManger) (next : nat)
    (out : RedisManger * nat * list event) : Prop :=
  (next <= out.1.2)%nat /\
  masterClient out.1.1 = masterClient r /\
  sentinelOpts out.1.1 = sentinelOpts r /\
  (forall c, c ∈ slaveClients out.1.1 -> (handle c < out.1.2)%nat) /\
  (forall c, EvClose c ∈ out.2 -> (handle c < out.1.2)%nat) /\
  (forall c, c ∈ slaveClients out.1.1 -> EvClose c ∉ out.2) /\
  (forall c, c ∈ slaveClients out.1.1 ->
     c ∈ slaveClients r \/ (next <= handle c)%nat).

(** The connections a trace opened, in order. *)
Definition opened (evs : list event) : list Client :=
  omap (fun e => match e with EvNewClient c => Some c | _ => None end) evs.

(** The discipline of [r.mu] over a trace, starting with the lock held or
    not: [Lock] only when free, [Unlock] only when held, the replica list
    assigned only while held, and the lock free at the end. *)
Fixpoint wellLocked (held : bool) (evs : list event) : bool :=
  match evs with
  | [] => negb held
  | EvLock :: rest => negb held && wellLocked true rest
  | EvUnlock :: rest => held && wellLocked false rest
  | EvAssignSlaves _ :: rest => held && wellLocked held rest
  | _ :: rest => wellLocked held rest
  end.

(** [NewRedisManager]: [master] is the failover client, [master_ping] the
    error of its PING if any, [g] the seeded generator; the probing loop is
    the one of the refresh. The refresh goroutine it starts is
    [refreshSlaveClientsLoop]. *)
Definition NewRedisManager (net : Net) (master : Client)
    (master_ping : option error) (g : Rand)
    (sentinelOpts : FailoverOptions) (maxBatches : Z) (next : nat)
  : (error + RedisManger) * nat * list event :=
  match master_ping with
  | Some err =>
      (inl (wrap "connect to master failed: " err), next, [EvPing master false])
  | None =>
      let '(slaveAddrs, err) := getSlaveAddrs net sentinelOpts in
      match err with
      | Some e =>
          (inl (wrap "get slave addresses failed: " e), next, [EvPing master true])
      | None =>
          let '(slaveClients, next', evs) :=
              probeSlaves net sentinelOpts slaveAddrs next in
          (inr {| masterClient := master; slaveClients := slaveClients;
                  maxBatches := maxBatches; sentinelOpts := sentinelOpts;
                  rand := g |},
           next',
           ([EvPing master true] ++ evs ++
            (if (length slaveClients =? 0)%nat
             then [EvLog LWarn "no available slave nodes"] else []) ++
            [EvLog LInfo "RedisManager: 1 master"])%list)
      end
  end.

End Replicas.
End replicas.

(** *** work/handle: the replies and paths of a submission *)

Module flow.
Import dbm until handle.

Section Flow.
Context `{GoRuntime}.

(** The reply of step 7 of [SubmitFuzzyQuery]. *)
Definition pollingHint (q : Submission) : reply :=
  JSON StatusOK
    {| Code := 1; Message := "数据查询中，请轮询获取结果";
       Data := ginH [("req_id", VString (reqID q));
                     ("poll_url",
                      VString ("/api/public/query/fuzzy/result?req_id=" +:+ reqID q))] |}.

(** The reply to a failed publish. *)
Definition publishError (q : Submission) (e : error) : reply :=
  Error {| ErrCode := 500;
           ErrMessage := "发布模糊查询 MQ 消息失败 keyword:" +:+ keyword q +:+
                         " error:" +:+ e |}.

(** The work item a submission publishes. *)
Definition workItemOf (q : Submission) : Publishing :=
  {| Body := workItemBody (keyword q); Priority := priorityOf q |}.

(** The three keys of a submission. *)
Definition cacheKeyOf (q : Submission) : string := GetFuzzyCacheKey (keyword q).
Definition lockKeyOf (q : Submission) : string := GetFuzzyLockKey (keyword q).
Definition handleKeyOf (q : Submission) : string := ResultCachePrefix +:+ reqID q.

(** Step 6: the request handle and its five minutes. *)
Definition writeHandle (q : Submission) (s : store) : store :=
  Expire (at_time q)
    (HSet (at_time q) s (handleKeyOf q) (pendingFields (keyword q) (cacheKeyOf q)))
    (handleKeyOf q) (5 * Minute).

(** Step 5: the entry marked loading for ten minutes. *)
Definition markLoading (q : Submission) (s : store) : store :=
  Expire (at_time q)
    (HSet (at_time q) s (cacheKeyOf q) (loadingFields (keyword q) (at_time q)))
    (cacheKeyOf q) FuzzyCacheExpire.

(** A poll of the handle of [q] at [t], nothing failing. *)
Definition pollOf (q : Submission) (t : Z) : Poll :=
  {| poll_reqID := reqID q; poll_time := t;
     handle_fault := None; cache_fault := None |}.

(** The store a submission leaves that took the lock, marked the entry and
    wrote its handle. *)
Definition firstStore (q : Submission) (w : World) : store :=
  writeHandle q (markLoading q (<[lockKeyOf q := lockEntry q]> (kv w))).

End Flow.
End flow.
(** ** The consumers' acknowledgements *)

Module consumer.

(** The events that settle a delivery: [msg.Ack] and [msg.Nack]. *)
Definition settles (e : event) : bool :=
  match e with
  | EvAck _ | EvNack _ _ => true
  | _ => false
  end.

(** The calls of the document search. *)
Definition searches (e : event) : bool :=
  match e with
  | EvSearch _ => true
  | _ => false
  end.

End consumer.

(** ** Documents the search keeps *)

Module documents.
Import dbm mongo.

(** A document the first loop of [deduplicateAndSort] does not skip: a
    [hotitem] map with a string [title] and a DateTime [crawledat]. *)
Definition wellTyped (doc : bsonM) : bool :=
  match title doc, crawledat doc with
  | Some _, Some _ => true
  | _, _ => false
  end.

(** A database of two collections, the second of which cannot be queried. *)
Definition mongoTwo : MongoManger :=
  {| listCollectionNames := inr ["weibo"; "zhihu"];
     querySingleCollection := fun name _ =>
       if String.eqb name "weibo"
       then inr [Reference.hotDoc "a" 1000; Reference.hotDoc "b" 5000]
       else inl "cursor closed";
     arrival := fun names => names |}.

End documents.

(** ** work/dbm, work/handle: the latest crawl of a source *)

Module latest.
Import dbm until handle.

(** The keys this path reads: the sorted sets, each as the list of its
    members from the highest score down (the order of [ZREVRANGE key 0 -1]),
    beside the keyspace of strings and hashes. A sorted set without members
    does not exist. *)
Record Hot : Type := { zsets : gmap string (list string); docs : store }.

(** One request: the source asked for, the instant, and the failures of the
    three commands. *)
Record LatestRequest : Type := {
  source : string;                   (* c.Query("source") *)
  req_time : Z;
  zrevrange_fault : option error;
  get_fault : option error;
  zrem_fault : option error;
}.

(** [ZREVRANGE key 0 0] *)
Definition ZRevRange00 (fault : option error) (now : Z) (h : Hot) (k : string)
  : error + list string :=
  match fault with
  | Some e => inl e
  | None =>
      match live now (docs h) k with
      | Some _ => inl WRONGTYPE
      | None => inr (take 1 (default [] (zsets h !! k)))
      end
  end.

(** The result of [GET]: the value, [redis.Nil] for a missing key, or
    another error. *)
Inductive getResult : Type :=
  | GetValue (v : string)
  | GetNil
  | GetFailed (e : error).

Definition Get (fault : option error) (now : Z) (h : Hot) (k : string) : getResult :=
  match fault with
  | Some e => GetFailed e
  | None =>
      match live now (docs h) k with
      | Some (Entry (RString v) _) => GetValue v
      | Some (Entry (RHash _) _) => GetFailed WRONGTYPE
      | None =>
          match zsets h !! k with
          | Some _ => GetFailed WRONGTYPE
          | None => GetNil
          end
      end
  end.

(** [ZREM key member] on the master; its result is dropped by the caller. *)
Definition ZRem (fault : option error) (now : Z) (h : Hot) (k member : string) : Hot :=
  match fault with
  | Some _ => h
  | None =>
      match live now (docs h) k, zsets h !! k with
      | None, Some l =>
          let l' := filter (fun m => m <> member) l in
          {| zsets := if decide (l' = []) then delete k (zsets h)
                      else <[k := l']> (zsets h);
             docs := docs h |}
      | _, _ => h
      end
  end.

(** A request none of whose commands fails. *)
Definition quiet (r : LatestRequest) : Prop :=
  zrevrange_fault r = None /\ get_fault r = None /\ zrem_fault r = None.

Section Latest.
Context `{GoRuntime}.
(** The message of the error [json.Unmarshal] reports for an input. *)
Context (json_Error : string -> error).

(** [GetLatestDataBySource]. [selectReadClient] returns a nil error on every
    path, so its error branch is not taken. *)
Definition GetLatestDataBySource (r : LatestRequest) (h : Hot)
  : Hot * (value * option error) :=
  let now := req_time r in
  (* 1. the sorted set of the source *)
  let zsetKey := "hot:zset:" +:+ source r in
  (* 2. the member of the highest score *)
  match ZRevRange00 (zrevrange_fault r) now h zsetKey with
  | inl err => (h, (VNil, Some (wrap "get latest data key failed: " err)))
  | inr latestMembers =>
  (* 3. nothing crawled *)
  match latestMembers with
  | [] => (h, (VNil, Some ("no data found for source: " +:+ source r)))
  | latestDataKey :: _ =>
  (* 4. the document under that member *)
  match Get (get_fault r) now h latestDataKey with
  | GetNil =>
      (ZRem (zrem_fault r) now h zsetKey latestDataKey,
       (VNil, Some ("latest data key expired: " +:+ latestDataKey)))
  | GetFailed err => (h, (VNil, Some (wrap "get data from redis failed: " err)))
  | GetValue jsonStr =>
  (* 5. decoding *)
  match json_Unmarshal jsonStr with
  | None => (h, (VNil, Some (wrap "unmarshal json failed: " (json_Error jsonStr))))
  | Some data => (h, (data, None))
  end end end end.

(** [GetLatestCrawleData] *)
Definition GetLatestCrawleData (r : LatestRequest) (h : Hot) : Hot * reply :=
  if String.eqb (source r) "" then
    (h, Error {| ErrCode := 400; ErrMessage := "参数错误：source不能为空" |})
  else
  let '(h', (data, err)) := GetLatestDataBySource r h in
  match err with
  | Some e => (h', Error {| ErrCode := 500; ErrMessage := "获取数据失败：" +:+ e |})
  | None => (h', JSON StatusOK {| Code := 0; Message := "获取成功"; Data := data |})
  end.

(** The requests of a client that asks again, one after the other. *)
Definition askAgain (rs : list LatestRequest) (h : Hot) : Hot :=
  foldl (fun h r => (GetLatestCrawleData r h).1) h rs.

End Latest.

(** A source with two crawls, the newer of which has expired. *)
Definition hotTwo : Hot :=
  {| zsets := {[ "hot:zset:weibo" := ["hot:weibo:2"; "hot:weibo:1"] ]};
     docs := {[ "hot:weibo:1" := Entry (RString "[]") None ]} |}.

Definition ask (src : string) (t : Z) : LatestRequest :=
  {| source := src; req_time := t;
     zrevrange_fault := None; get_fault := None; zrem_fault := None |}.

End latest.

(** ** work/until: the middleware around the handlers *)

Module gin.
Import dbm until handle.

Definition UserTypeNormal : string := "normal".
Definition AccessLogQueueName : string := "access-log-queue".
Definition StatusInternalServerError : Z := 500.
Definition JWTExpireHour : Z := 24 * 30.
Definition Hour : Z := 60 * Minute.

(** An element of [c.Errors]: a [*BusinessError], or any other error. *)
Inductive ginError : Type :=
  | Business (e : BusinessError)
  | System (msg : error).

(** [err.Err.Error()] *)
Definition errorText (e : ginError) : string :=
  match e with
  | Business b => ErrMessage b
  | System msg => msg
  end.

(** The part of a [gin.Context] the middleware and the handlers use. The
    responses written with [c.JSON] are kept in order; the status line is
    that of the first. *)
Record Context : Type := {
  Authorization : string;             (* c.GetHeader("Authorization") *)
  Request_Method : string;
  Request_Path : string;
  Request_RawQuery : string;
  ClientIP : string;
  Keys : gmap string value;           (* c.Set, c.Get *)
  Errors : list ginError;             (* c.Error *)
  Written : list (Z * Response);      (* c.JSON *)
  Aborted : bool;                     (* c.Abort *)
}.

Definition c_Set (c : Context) (key : string) (v : value) : Context :=
  {| Authorization := Authorization c; Request_Method := Request_Method c;
     Request_Path := Request_Path c; Request_RawQuery := Request_RawQuery c;
     ClientIP := ClientIP c; Keys := <[key := v]> (Keys c);
     Errors := Errors c; Written := Written c; Aborted := Aborted c |}.

Definition c_Error (c : Context) (e : ginError) : Context :=
  {| Authorization := Authorization c; Request_Method := Request_Method c;
     Request_Path := Request_Path c; Request_RawQuery := Request_RawQuery c;
     ClientIP := ClientIP c; Keys := Keys c;
     Errors := (Errors c ++ [e])%list; Written := Written c; Aborted := Aborted c |}.

Definition c_JSON (c : Context) (status : Z) (body : Response) : Context :=
  {| Authorization := Authorization c; Request_Method := Request_Method c;
     Request_Path := Request_Path c; Request_RawQuery := Request_RawQuery c;
     ClientIP := ClientIP c; Keys := Keys c;
     Errors := Errors c; Written := (Written c ++ [(status, body)])%list;
     Aborted := Aborted c |}.

Definition c_Abort (c : Context) : Context :=
  {| Authorization := Authorization c; Request_Method := Request_Method c;
     Request_Path := Request_Path c; Request_RawQuery := Request_RawQuery c;
     ClientIP := ClientIP c; Keys := Keys c;
     Errors := Errors c; Written := Written c; Aborted := true |}.

(** [c.Get(key)] as the handlers use it, the missing key giving nil. *)
Definition c_Get (c : Context) (key : string) : value :=
  default VNil (Keys c !! key).

(** [c.GetString(key)]: the empty string unless the key holds a string. *)
Definition c_GetString (c : Context) (key : string) : string :=
  match Keys c !! key with
  | Some (VString s) => s
  | _ => ""
  end.

(** [c.Writer.Status()]: 200 until something is written. *)
Definition Writer_Status (c : Context) : Z :=
  match Written c with
  | [] => StatusOK
  | (status, _) :: _ => status
  end.

(** What running a handler, with the handlers after it, leaves: the
    context, the shared state, the log lines, and the value of a panic that
    nothing recovered. *)
Record Ran : Type := {
  ctx : Context;
  wld : World;
  logs : list event;
  panic : option string;
}.

Definition HandlerFunc : Type := Context -> World -> Ran.

(** A handler of this repository answers in one of three ways. *)
Definition respond (r : reply) (c : Context) : Context :=
  match r with
  | JSON status body => c_JSON c status body
  | Error e => c_Error c (Business e)
  | NoReply => c
  end.

Record LogLayout : Type := {
  Method : string;
  Path : string;
  Query : string;
  IP : string;
  UserAgent : string;
  Err : string;                       (* Error, [omitempty] *)
  Cost : Z;
  Status : Z;
}.

(** What [json.Marshal] is given for a [LogLayout], by its field tags. *)
Definition layoutValue (l : LogLayout) : value :=
  VMap (list_to_map
    ([("method", VString (Method l)); ("path", VString (Path l));
      ("query", VString (Query l)); ("ip", VString (IP l));
      ("user_agent", VString (UserAgent l))] ++
     (if String.eqb (Err l) "" then [] else [("error", VString (Err l))]) ++
     [("cost", VInt (Cost l)); ("status", VInt (Status l))])%list).

(** [PublishMQ]: an unset channel is an error; otherwise the broker's or
    the context's error ([fault]), or the message appended to the queue. *)
Definition PublishMQ (fault : option error) (mq : MQ) (queueName body : string)
  : error + MQ :=
  if negb (channel mq) then inl "mq channel not initialized"
  else match fault with
       | Some e => inl e
       | None =>
           inr {| channel := channel mq;
                  queues := <[queueName :=
                     (queue mq queueName ++ [{| Body := body; Priority := 0 |}])%list]>
                     (queues mq) |}
       end.

(** The clock readings of one request and the failure of its log publish. *)
Record Access : Type := {
  clock_start : Z;                    (* time.Now() on entry *)
  clock_end : Z;                      (* at time.Since(start) *)
  log_fault : option error;
}.

(** [time.Duration.Milliseconds] *)
Definition Milliseconds (d : Z) : Z := d ÷ 1000000.

Section Middleware.
Context `{GoRuntime}.
(** [fmt.Sscanf(authHeader, "Bearer %s", &tokenStr)]: the token scanned and
    the error. *)
Context (Sscanf_Bearer : string -> string * option error).
(** [jwt.ParseWithClaims] with the HMAC key function at the instant of the
    request: the user id and the user name of the claims when the token is
    valid. The claims are the [*JwtClaims] handed to the parser, so the
    assertions on them hold. *)
Context (jwt_Parse : string -> option (Z * string)).

(** The goroutine that publishes the access log. *)
Definition publishAccessLog (a : Access) (layout : LogLayout) (w : World)
  : World * list event :=
  let logData := json_Marshal (layoutValue layout) in
  match PublishMQ (log_fault a) (mq w) AccessLogQueueName logData with
  | inl _ => (w, [EvLog LError "publish access log msg failed: "])
  | inr mq' => ({| kv := kv w; mq := mq' |}, [])
  end.

(** [ErrorAndLogHandler]; [next] is [c.Next()]. *)
Definition ErrorAndLogHandler (a : Access) (next : HandlerFunc) : HandlerFunc :=
  fun c w =>
  let action := Request_Method c in
  let path := Request_Path c in
  let query := Request_RawQuery c in
  let r := next c w in
  match panic r with
  | Some err =>
      {| ctx := c_Abort (c_JSON (ctx r) StatusInternalServerError
                           {| Code := 500; Message := "服务器内部错误：" +:+ err;
                              Data := VNil |});
         wld := wld r; logs := logs r; panic := None |}
  | None =>
  let c := ctx r in
  let cost := Milliseconds (clock_end a - clock_start a) in
  let layout status err :=
    {| Method := action; Path := path; Query := query; IP := ClientIP c;
       UserAgent := ""; Err := err; Cost := cost; Status := status |} in
  match last (Errors c) with
  | Some err =>
      let '(c1, status) :=
        match err with
        | Business bizErr =>
            (if negb (ErrCode bizErr =? 601) then
               c_JSON c StatusOK {| Code := ErrCode bizErr;
                                    Message := ErrMessage bizErr; Data := VNil |}
             else c,
             ErrCode bizErr)
        | System msg =>
            (c_JSON c StatusInternalServerError
               {| Code := 500; Message := "操作失败：" +:+ msg; Data := VNil |},
             500)
        end in
      let '(w1, evs) := publishAccessLog a (layout status (errorText err)) (wld r) in
      {| ctx := c_Abort c1; wld := w1; logs := (logs r ++ evs)%list; panic := None |}
  | None =>
      let '(w1, evs) := publishAccessLog a (layout (Writer_Status c) "") (wld r) in
      {| ctx := c; wld := w1; logs := (logs r ++ evs)%list; panic := None |}
  end
  end.

(** [JWTMiddleware] *)
Definition JWTMiddleware (next : HandlerFunc) : HandlerFunc :=
  fun c w =>
  let stop msg :=
    {| ctx := c_Abort (c_Error c (Business {| ErrCode := 401; ErrMessage := msg |}));
       wld := w; logs := []; panic := None |} in
  let authHeader := Authorization c in
  if String.eqb authHeader "" then stop "未提供认证 Token" else
  let tokenStr := (Sscanf_Bearer authHeader).1 in
  if String.eqb tokenStr "" then stop "Token格式错误" else
  match jwt_Parse tokenStr with
  | None => stop "Token 无效或已过期"
  | Some (userID, username) =>
      next (c_Set (c_Set c "userId" (VInt userID)) "userName" (VString username)) w
  end.

(** [PublicJWTMiddleware] *)
Definition PublicJWTMiddleware (next : HandlerFunc) : HandlerFunc :=
  fun c w =>
  let userType := UserTypeNormal in
  let degrade msg :=
    next (c_Set (c_Error c (Business {| ErrCode := 601; ErrMessage := msg |}))
                "user_type" (VString userType)) w in
  let authHeader := Authorization c in
  if String.eqb authHeader "" then next (c_Set c "user_type" (VString userType)) w else
  let '(tokenStr, err) := Sscanf_Bearer authHeader in
  if bool_decide (is_Some err) || String.eqb tokenStr "" then
    degrade "Token格式错误,降级为普通用户"
  else
  match jwt_Parse tokenStr with
  | None => degrade "Token 无效或已过期,降级为普通用户"
  | Some (userId, userName) =>
      next (c_Set (c_Set (c_Set c "user_type" (VString UserTypeVIP))
                         "userId" (VInt userId))
                  "userName" (VString userName)) w
  end.

(** The handlers as the router calls them. *)
Definition ran (c : Context) (w : World) : Ran :=
  {| ctx := c; wld := w; logs := []; panic := None |}.

(** [SubmitFuzzyQuery] on the context: the user type is the one the
    middleware left. *)
Definition withUserType (q : Submission) (userType : string) : Submission :=
  {| keyword := keyword q; user_type := userType; at_time := at_time q;
     reqID := reqID q; lockVal := lockVal q; read_fault := read_fault q;
     lock_fault := lock_fault q; publish_fault := publish_fault q |}.

Definition submitHandler (q : Submission) : HandlerFunc :=
  fun c w =>
  let '(w', r) := SubmitFuzzyQuery (withUserType q (c_GetString c "user_type")) w in
  ran (respond r c) w'.

Definition resultHandler (p : Poll) : HandlerFunc :=
  fun c w => ran (respond (GetFuzzyQueryResult p (kv w)) c) w.

(** [UserProfileHandler] *)
Definition UserProfileHandler : HandlerFunc :=
  fun c w =>
  let userID := c_Get c "userId" in
  let username := c_Get c "userName" in
  ran (c_JSON c StatusOK
         {| Code := 0; Message := "获取成功";
            Data := ginH [("userId", userID); ("userName", username);
                          ("role", VString "admin")] |}) w.

(** The claims under which [PublicJWTMiddleware] marks a request vip. *)
Definition vipClaims (c : Context) : option (Z * string) :=
  if String.eqb (Authorization c) "" then None else
  let '(tokenStr, err) := Sscanf_Bearer (Authorization c) in
  if bool_decide (is_Some err) || String.eqb tokenStr "" then None
  else jwt_Parse tokenStr.

(** The claims under which [JWTMiddleware] lets a request through. *)
Definition bearerClaims (c : Context) : option (Z * string) :=
  if String.eqb (Authorization c) "" then None else
  if String.eqb (Sscanf_Bearer (Authorization c)).1 "" then None
  else jwt_Parse (Sscanf_Bearer (Authorization c)).1.

(** What reaches the client for a reply of a handler. *)
Definition clientView (r : reply) : list (Z * Response) :=
  match r with
  | JSON status body => [(status, body)]
  | Error e =>
      if ErrCode e =? 601 then []
      else [(StatusOK, {| Code := ErrCode e; Message := ErrMessage e; Data := VNil |})]
  | NoReply => []
  end.

(** The two chains of [RegisterRoutes] under the engine's
    [ErrorAndLogHandler]. *)
Definition publicRoute (a : Access) (h : HandlerFunc) : HandlerFunc :=
  ErrorAndLogHandler a (PublicJWTMiddleware h).

Definition authRoute (a : Access) (h : HandlerFunc) : HandlerFunc :=
  ErrorAndLogHandler a (JWTMiddleware h).

(** *** Login *)

Record JwtClaims : Type := {
  UserID : Z;
  Username : string;
  ExpiresAt : Z;
  IssuedAt : Z;
  Issuer : string;
}.

(** [token.SignedString([]byte(JWTSecret))] of an HS256 token with the
    claims. *)
Context (jwt_SignedString : JwtClaims -> string * option error).

(** [jwt.NewNumericDate]: the instant truncated to the second. *)
Definition NewNumericDate (t : Z) : Z := t / Second * Second.

Definition GenerateJWT (now : Z) (userID : Z) (username : string)
  : string * option error :=
  jwt_SignedString
    {| UserID := userID; Username := username;
       ExpiresAt := NewNumericDate (now + Hour * JWTExpireHour);
       IssuedAt := NewNumericDate now;
       Issuer := "AHKLIC-GO-WEB" |}.

(** The text of the validator's error for the fields, in the order of the
    struct, whose [binding:"required"] check failed. *)
Context (validator_Error : list string -> error).

(** [c.ShouldBindJSON(&req)] on the [LoginRequest] of [LoginHandler]:
    [decoded] is the outcome of the JSON decoding of the body into the
    struct (a field the body does not give stays empty); both fields are
    tagged [binding:"required"], which an empty string does not satisfy. *)
Definition ShouldBindJSON (decoded : error + string * string)
  : error + string * string :=
  match decoded with
  | inl err => inl err
  | inr (username, password) =>
      match ((if String.eqb username "" then ["Username"] else []) ++
             (if String.eqb password "" then ["Password"] else []))%list with
      | [] => inr (username, password)
      | missing => inl (validator_Error missing)
      end
  end.

(** [LoginHandler]; [decoded] is what the request body decodes to. *)
Definition LoginHandler (decoded : error + string * string) (now : Z) : reply :=
  match ShouldBindJSON decoded with
  | inl err => Error {| ErrCode := 400; ErrMessage := "参数错误：" +:+ err |}
  | inr (username, password) =>
      if negb (String.eqb username "admin") || negb (String.eqb password "123456") then
        Error {| ErrCode := 403; ErrMessage := "用户名或密码错误" |}
      else
      match GenerateJWT now 1001 username with
      | (_, Some _) => Error {| ErrCode := 500; ErrMessage := "Token 生成失败" |}
      | (token, None) =>
          JSON StatusOK
            {| Code := 0; Message := "登录成功";
               Data := ginH [("token", VString token);
                             ("expire_hour", VInt JWTExpireHour)] |}
      end
  end.

(** *** The access-log consumer *)

(** [json.Unmarshal] into a [LogLayout]: the fields decoded, and the error. *)
Context (json_UnmarshalLayout : string -> LogLayout * option error).

(** One delivery of [startAccessLogConsumer]. *)
Definition accessLogWorker (msg : Publishing) : list event :=
  let '(logData, err) := json_UnmarshalLayout (Body msg) in
  (match err with
   | Some _ => [EvLog LError "failed to unmarshal access log"]
   | None => []
   end ++
   [if Status logData =? 200 then EvLog LInfo "access log"
    else EvLog LError "access log"] ++
   [EvAck false])%list.

(** The loop over the deliveries; it ends when the context is cancelled or
    when the channel is closed. *)
Fixpoint startAccessLogConsumer (msgs : list Publishing) (cancelled : bool)
  : list event :=
  match msgs with
  | [] => if cancelled then [EvLog LInfo "访问日志消费者退出"] else []
  | msg :: rest => (accessLogWorker msg ++ startAccessLogConsumer rest cancelled)%list
  end.

End Middleware.

(** A request as it enters the engine. *)
Definition request (auth : string) : Context :=
  {| Authorization := auth; Request_Method := "GET";
     Request_Path := "/api/public/query/fuzzy/search";
     Request_RawQuery := "keyword=weather"; ClientIP := "127.0.0.1";
     Keys := ∅; Errors := []; Written := []; Aborted := false |}.

Definition access0 : Access :=
  {| clock_start := 0; clock_end := 2000000; log_fault := None |}.

(** A scanner and a parser that accept the one token [good]. *)
Definition scanBearer (s : string) : string * option error :=
  match Reference.strip_prefix "Bearer " s with
  | Some t => (t, None)
  | None => ("", Some "input does not match format")
  end.

Definition parseGood (t : string) : option (Z * string) :=
  if String.eqb t "good" then Some (1001, "admin") else None.

End gin.

(** * Properties *)

(** ** The keyspace *)

Section StoreFacts.
Implicit Types (s : store) (k : string) (now : Z).

Lemma live_Some now s k e :
  live now s k = Some e <-> s !! k = Some e /\ alive now e = true.
Proof.
  unfold live. destruct (s !! k) as [e'|] eqn:E.
  - destruct (alive now e') eqn:A; split.
    + intros [= <-]. done.
    + intros [[= ->] _]. done.
    + done.
    + intros [[= ->] A']. congruence.
  - split; [done | intros [? _]; done].
Qed.

Lemma live_insert now s k e :
  live now (<[k := e]> s) k = if alive now e then Some e else None.
Proof. unfold live. by rewrite lookup_insert_eq. Qed.

Lemma live_insert_ne now s k k' e :
  k <> k' -> live now (<[k := e]> s) k' = live now s k'.
Proof. intros Hne. unfold live. by rewrite lookup_insert_ne. Qed.

Lemma HSet_lookup_ne now s k k' fv :
  k <> k' -> HSet now s k fv !! k' = s !! k'.
Proof.
  intros Hne. unfold HSet.
  destruct (live now s k) as [[[v|h] ex]|]; try done; by rewrite lookup_insert_ne.
Qed.

Lemma Expire_lookup_ne now s k k' d :
  k <> k' -> Expire now s k d !! k' = s !! k'.
Proof.
  intros Hne. unfold Expire.
  destruct (live now s k) as [[v ex]|]; try done; by rewrite lookup_insert_ne.
Qed.

Lemma SetNX_lookup_ne now s k k' v d :
  k <> k' -> (SetNX now s k v d).2 !! k' = s !! k'.
Proof.
  intros Hne. unfold SetNX.
  destruct (live now s k); simpl; try done; by rewrite lookup_insert_ne.
Qed.

Lemma live_ext now s s' k : s !! k = s' !! k -> live now s k = live now s' k.
Proof. unfold live. by intros ->. Qed.

Lemma live_visible now (s : store) k v ex :
  s !! k = Some (Entry v ex) -> (forall t, ex = Some t -> now < t) ->
  live now s k = Some (Entry v ex).
Proof.
  intros Hk Hv. unfold live. rewrite Hk. unfold alive. simpl.
  destruct ex as [t|]; [|done]. by rewrite (proj2 (Z.ltb_lt now t)) by by apply Hv.
Qed.

Lemma live_expired now (s : store) k v ex :
  s !! k = Some (Entry v (Some ex)) -> ex <= now -> live now s k = None.
Proof.
  intros Hk Hv. unfold live. rewrite Hk. unfold alive. simpl.
  by rewrite (proj2 (Z.ltb_ge now ex)).
Qed.

(** A later field of one HSET overrides nothing written before it under
    another name. *)
Lemma set_fields_lookup_notin fv h f :
  f ∉ fv.*1 -> set_fields fv h !! f = h !! f.
Proof.
  unfold set_fields. revert h. induction fv as [|[f' v'] fv IH]; intros h Hf; [done|].
  simpl in *. apply not_elem_of_cons in Hf as [Hne Hf].
  rewrite IH by done. by rewrite lookup_insert_ne.
Qed.

Lemma set_fields_lookup_last fv h f v :
  f ∉ fv.*1 -> set_fields ((f, v) :: fv) h !! f = Some v.
Proof.
  intros Hf. unfold set_fields. simpl. fold (set_fields fv (<[f:=v]> h)).
  rewrite set_fields_lookup_notin by done. by rewrite lookup_insert_eq.
Qed.

End StoreFacts.


(** ** The replica set *)

Section ReplicaSet.
Import dbm.
Context `{GoRuntime}.

Lemma slaveAddrs_ok net opts addrs :
  getSlaveAddrs net opts = (addrs, None) -> addrs <> [].
Proof.
  unfold getSlaveAddrs. intros Hg.
  destruct (SentinelAddrs opts); [done|].
  destruct (sentinel_do net) as [e|v]; [done|].
  destruct v as [| | | | | |vs|]; try done.
  destruct (slaveAddrsOf vs) eqn:E; [done|]. by injection Hg as <-.
Qed.

Lemma slaveAddrs_err net opts addrs e :
  getSlaveAddrs net opts = (addrs, Some e) -> addrs = [].
Proof.
  unfold getSlaveAddrs. intros Hg.
  destruct (SentinelAddrs opts); [by injection Hg|].
  destruct (sentinel_do net) as [e'|v]; [by injection Hg|].
  destruct v as [| | | | | |vs|]; try (by injection Hg).
  destruct (slaveAddrsOf vs) eqn:E; [by injection Hg | done].
Qed.

(** The probing loop closes only the connections it opened itself, and never
    assigns the replica list. *)
Lemma probeSlaves_events net opts addrs next ev :
  ev ∈ (probeSlaves net opts addrs next).2 ->
  (exists c, ev = EvNewClient c) \/ (exists c ok, ev = EvPing c ok) \/
  (exists c, ev = EvClose c /\ (next <= handle c)%nat).
Proof.
  revert next. induction addrs as [|a rest IH]; intros next; simpl; [by intros ?%elem_of_nil|].
  destruct (probeSlaves net opts rest (S next)) as [[cs n'] evs] eqn:E.
  specialize (IH (S next)). rewrite E in IH. simpl in IH.
  assert (Htail : ev ∈ evs ->
    (exists c, ev = EvNewClient c) \/ (exists c ok, ev = EvPing c ok) \/
    (exists c, ev = EvClose c /\ (next <= handle c)%nat)).
  { intros Hin. destruct (IH Hin) as [?|[?|(c & -> & Hc)]]; eauto.
    right; right. exists c. split; [done | lia]. }
  destruct (ping_ok net _); simpl;
    rewrite !elem_of_cons; intros Hin.
  - destruct Hin as [Hev|[Hev|Hin]]; [eauto | eauto | by apply Htail].
  - destruct Hin as [Hev|[Hev|[Hev|Hin]]]; [eauto | eauto | | by apply Htail].
    right; right. eexists. split; [done | simpl; lia].
Qed.

(** Each draw in range selects the member at that position. *)
Lemma selectReadClient_at_lookup (r : RedisManger) idx c :
  (selectReadClient_at r idx).1 = Returned (c, None) <-> slaveClients r !! idx = Some c.
Proof.
  unfold selectReadClient_at. destruct (slaveClients r !! idx) as [c'|]; simpl.
  - split; [by intros [= ->] | by intros [= ->]].
  - split; intros; done.
Qed.

Lemma filter_ext_elem_of {A} (P Q : A -> Prop)
    `{!forall x, Decision (P x), !forall x, Decision (Q x)} (l : list A) :
  (forall x, x ∈ l -> P x <-> Q x) -> filter P l = filter Q l.
Proof.
  induction l as [|x l IH]; intros HPQ; [done|].
  rewrite !filter_cons.
  rewrite IH by (intros y Hy; apply HPQ; by right).
  destruct (decide (P x)) as [HP|HP], (decide (Q x)) as [HQ|HQ]; try done.
  - exfalso. apply HQ, HPQ; [by left | done].
  - exfalso. apply HP, HPQ; [by left | done].
Qed.

Lemma filter_none {A} (P : A -> Prop) `{!forall x, Decision (P x)} (l : list A) :
  (forall x, x ∈ l -> ~ P x) -> filter P l = [].
Proof.
  induction l as [|x l IH]; intros HP; [done|].
  rewrite filter_cons, decide_False by (apply HP; by left).
  apply IH. intros y Hy. apply HP. by right.
Qed.

Lemma count_positions {A} `{EqDecision A} (l : list A) (c : A) :
  length (filter (fun i => l !! i = Some c) (seq 0 (length l))) =
  length (filter (fun x => x = c) l).
Proof.
  induction l as [|x l IH] using rev_ind; [done|].
  rewrite length_app. simpl. rewrite Nat.add_1_r, seq_S. simpl.
  rewrite !filter_app, !length_app.
  f_equal.
  - rewrite <- IH. f_equal. apply filter_ext_elem_of.
    intros i Hi. apply elem_of_seq in Hi.
    rewrite lookup_app_l by lia. done.
  - rewrite !filter_cons, !filter_nil.
    rewrite list_lookup_middle by done.
    destruct (decide (Some x = Some c)) as [[= ->]|Hne].
    + by rewrite decide_True.
    + rewrite decide_False; [done | congruence].
Qed.

Lemma drawsSelecting_count (r : RedisManger) c :
  length (drawsSelecting r c) = length (filter (fun x => x = c) (slaveClients r)).
Proof.
  unfold drawsSelecting. rewrite <- count_positions.
  f_equal. apply list_filter_iff. intros i. apply selectReadClient_at_lookup.
Qed.

Lemma NoDup_count_one {A} `{EqDecision A} (l : list A) (c : A) :
  NoDup l -> c ∈ l -> length (filter (fun x => x = c) l) = 1%nat.
Proof.
  induction 1 as [|x l Hx Hnd IH]; [by intros ?%elem_of_nil|].
  rewrite elem_of_cons, filter_cons. intros [->|Hin].
  - rewrite decide_True by done. simpl. f_equal.
    apply length_zero_iff_nil.
    apply filter_none. by intros y Hy ->.
  - rewrite decide_False; [by apply IH|]. by intros ->.
Qed.

End ReplicaSet.

Section ReadClient.
Import dbm.
Context `{GoRuntime}.

(** C7. With an empty replica set [selectReadClient] returns the master
    client with a nil error and logs the degraded-mode warning. With a
    non-empty set, and [Intn] in its range, it returns the member at the
    drawn position with a nil error; over the draws [0..len) each client is
    selected as often as it occurs in the set, exactly once when the
    connections are distinct, so a uniform draw gives a uniform choice. *)
Theorem selectReadClient_master_or_uniform_member (r : RedisManger) :
  (forall g n, (0 < n)%nat -> ((rand_Intn g n).1 < n)%nat) ->
  (slaveClients r = [] ->
     selectReadClient r =
       (Returned (masterClient r, None), r,
        [EvRLock;
         EvLog LWarn "no slave clients available, use master client for read";
         EvRUnlock])) /\
  (slaveClients r <> [] ->
     exists c, (selectReadClient r).1.1 = Returned (c, None) /\
               c ∈ slaveClients r /\
               slaveClients r !!
                 (rand_Intn (rand r) (length (slaveClients r))).1 = Some c) /\
  (forall c, length (drawsSelecting r c) =
             length (filter (fun x => x = c) (slaveClients r))) /\
  (NoDup (slaveClients r) ->
     forall c, c ∈ slaveClients r -> length (drawsSelecting r c) = 1%nat).
Proof.
  intros Hrange. repeat split.
  - intros Hnil. unfold selectReadClient. by rewrite Hnil.
  - intros Hne. unfold selectReadClient.
    assert (Hlen : (0 < length (slaveClients r))%nat).
    { destruct (slaveClients r); [done | simpl; lia]. }
    rewrite (proj2 (Nat.ltb_lt _ _) Hlen).
    specialize (Hrange (rand r) _ Hlen).
    destruct (rand_Intn (rand r) (length (slaveClients r))) as [idx g] eqn:E.
    simpl in Hrange.
    destruct (lookup_lt_is_Some_2 _ _ Hrange) as [c Hc].
    exists c. unfold selectReadClient_at. rewrite Hc. simpl.
    split; [done|]. split; [|done]. apply list_elem_of_lookup. eauto.
  - apply drawsSelecting_count.
  - intros Hnd c Hc. rewrite drawsSelecting_count. by apply NoDup_count_one.
Qed.

End ReadClient.

Section ReadClientExamples.
Import dbm Reference.
#[local] Existing Instance Reference.runtime.

Lemma reference_Intn_range (g n : nat) :
  (0 < n)%nat -> ((rand_Intn g n).1 < n)%nat.
Proof. intros Hn. simpl. apply Nat.mod_upper_bound. lia. Qed.

Lemma selectReadClient_master_or_uniform_member_witness :
  (selectReadClient (manager [] 3)).1.1 = Returned (master0, None) /\
  (exists c, (selectReadClient (manager [slave1; slave2] 3)).1.1 = Returned (c, None) /\
             c ∈ [slave1; slave2]) /\
  length (drawsSelecting (manager [slave1; slave2] 3) slave2) = 1%nat.
Proof.
  pose proof (selectReadClient_master_or_uniform_member
                (manager [] 3) reference_Intn_range) as (Hm & _).
  pose proof (selectReadClient_master_or_uniform_member
                (manager [slave1; slave2] 3) reference_Intn_range)
    as (_ & Hs & _ & Hu).
  split; [|split].
  - rewrite Hm by reflexivity. reflexivity.
  - destruct Hs as (c & Hc & Hin & _); [discriminate|]. exists c. split; assumption.
  - apply Hu.
    + repeat constructor; rewrite ?elem_of_cons, ?elem_of_nil; intuition discriminate.
    + right. left.
Defined.

End ReadClientExamples.

Section Refresh.
Import dbm.
Context `{GoRuntime}.

(** C3, amended. One tick of the refresh swaps in the probed set exactly when
    the sentinel query succeeded, whether or not any candidate answered the
    PING: the set becomes the list of reachable candidates, possibly empty.
    A successful query always lists at least one address. When the query
    fails nothing is probed, the manager is unchanged, and no connection is
    closed. On a swap the previous connections are closed first and the list
    is assigned last, both inside one exclusive-lock section. *)
Theorem refreshSlaveClients_swaps_on_sentinel_success
    (net : Net) (r : RedisManger) (next : nat) :
  let addrs := (getSlaveAddrs net (sentinelOpts r)).1 in
  let probe := probeSlaves net (sentinelOpts r) addrs next in
  match (getSlaveAddrs net (sentinelOpts r)).2 with
  | Some _ =>
      addrs = [] /\
      refreshSlaveClients net r next =
        (r, next,
         [EvLock; EvLog LError "get slave addresses failed";
          EvLog LError "refresh slave clients failed"; EvUnlock])
  | None =>
      addrs <> [] /\
      refreshSlaveClients net r next =
        (set_slaves r (probedSet net r next), probe.1.2,
         ([EvLock] ++ probe.2 ++ map EvClose (slaveClients r) ++
          [EvAssignSlaves (probedSet net r next); EvUnlock])%list)
  end.
Proof.
  intros addrs probe. unfold refreshSlaveClients, probedSet.
  subst probe addrs.
  destruct (getSlaveAddrs net (sentinelOpts r)) as [addrs [e|]] eqn:Hg; simpl.
  - apply slaveAddrs_err in Hg as ->. simpl. done.
  - apply slaveAddrs_ok in Hg. split; [done|].
    destruct (probeSlaves net (sentinelOpts r) addrs next) as [[cs n'] evs]. done.
Qed.

End Refresh.

Section RefreshExamples.
Import dbm Reference.
#[local] Existing Instance Reference.runtime.

(** C3 as stated fails: with one replica in service and a sentinel that
    lists a candidate which does not answer the PING, the tick assigns the
    empty probed set, and it closes the old connection before assigning. *)
Lemma refreshSlaveClients_empty_probe_counterexample :
  probedSet netDown (manager [slave1] 0) 5 = [] /\
  slaveClients (refreshSlaveClients netDown (manager [slave1] 0) 5).1.1 = [] /\
  (refreshSlaveClients netDown (manager [slave1] 0) 5).2 !! 4%nat = Some (EvClose slave1) /\
  (refreshSlaveClients netDown (manager [slave1] 0) 5).2 !! 5%nat = Some (EvAssignSlaves []) /\
  ~ refreshAsSpecified netDown (manager [slave1] 0) 5.
Proof.
  repeat split; try reflexivity.
  intros (Hassign & _ & _).
  apply (Hassign []); [|reflexivity].
  vm_compute. repeat (first [by left | right]).
Qed.

End RefreshExamples.

(** ** The worker and the cache entry *)

Section CacheEntry.
Import dbm mongo until.
Context `{GoRuntime}.
Implicit Types (s : store) (k : string) (now : Z).

Lemma set_fields_lookup_in fv (h : gmap string string) f v :
  NoDup fv.*1 -> (f, v) ∈ fv -> set_fields fv h !! f = Some v.
Proof.
  revert h. induction fv as [|[f' v'] fv IH]; intros h Hnd Hin.
  - by apply elem_of_nil in Hin.
  - simpl in Hnd. apply NoDup_cons in Hnd as [Hf Hnd].
    apply elem_of_cons in Hin as [[= -> ->]|Hin].
    + by apply set_fields_lookup_last.
    + unfold set_fields. simpl. by apply IH.
Qed.

Lemma field_set_fields fv (h : gmap string string) f v :
  NoDup fv.*1 -> (f, v) ∈ fv -> field (set_fields fv h) f = v.
Proof. intros Hnd Hin. unfold field. by rewrite (set_fields_lookup_in _ _ _ v). Qed.

Lemma size_pos_lookup (h : gmap string string) f v :
  h !! f = Some v -> (0 <? size h)%nat = true.
Proof.
  intros Hf. apply Nat.ltb_lt.
  pose proof (map_size_ne_0_lookup_2 h f (ltac:(eauto))). lia.
Qed.

(** HSET then EXPIRE on one key, as both writers of the cache entry do. *)
Lemma HSet_Expire_lookup now s k fv d :
  hashable now s k ->
  exists h0, HGetAll now s k = inr h0 /\
    Expire now (HSet now s k fv) k d !! k =
      Some (Entry (RHash (set_fields fv h0)) (Some (now + d))).
Proof.
  intros Hh. unfold HGetAll, HSet.
  destruct (live now s k) as [[[v|h] ex]|] eqn:L.
  - by destruct (Hh v ex).
  - exists h. split; [done|]. unfold Expire. rewrite live_insert.
    apply live_Some in L as [_ A]. unfold alive in *. simpl in *. rewrite A.
    by rewrite lookup_insert_eq.
  - exists ∅. split; [done|]. unfold Expire. rewrite live_insert. simpl.
    by rewrite lookup_insert_eq.
Qed.

Lemma HGetAll_lookup t s k h ex :
  s !! k = Some (Entry (RHash h) ex) -> alive t (Entry (RHash h) ex) = true ->
  HGetAll t s k = inr h.
Proof. intros Hk A. unfold HGetAll, live. by rewrite Hk, A. Qed.

Lemma readyFields_NoDup j now : NoDup (readyFields j now).*1.
Proof.
  simpl. repeat constructor; rewrite ?elem_of_cons, ?elem_of_nil; intuition discriminate.
Qed.

(** What the worker leaves under the cache key when the message decodes and
    the search returns. *)
Lemma fuzzyQueryWorker_entry search now s msg m v err :
  json_UnmarshalStrings (Body msg) = Some m ->
  search (field m "keyword") = Returned (v, err) ->
  hashable now s (GetFuzzyCacheKey (field m "keyword")) ->
  exists h0,
    HGetAll now s (GetFuzzyCacheKey (field m "keyword")) = inr h0 /\
    (fuzzyQueryWorker search now s msg).1 !! GetFuzzyCacheKey (field m "keyword") =
      Some (Entry (RHash (set_fields (readyFields (json_Marshal v) now) h0))
                  (Some (now + FuzzyCacheExpire))).
Proof.
  intros Hm Hs Hh. unfold fuzzyQueryWorker. rewrite Hm, Hs. simpl.
  by apply HSet_Expire_lookup.
Qed.

(** C10. A delivery whose body does not decode is acknowledged and dropped:
    the only effects are the error log and [Ack(false)]; there is no
    negative acknowledgement, the search is not invoked and the keyspace is
    unchanged, so the consumer loop goes on with the next delivery from the
    same state. *)
Theorem fuzzyQueryWorker_acks_malformed search now s msg :
  json_UnmarshalStrings (Body msg) = None ->
  fuzzyQueryWorker search now s msg =
    (s, [EvLog LError "解析模糊查询消息失败:"; EvAck false]) /\
  (forall multiple requeue,
     EvNack multiple requeue ∉ (fuzzyQueryWorker search now s msg).2) /\
  (forall key fv, EvHSet key fv ∉ (fuzzyQueryWorker search now s msg).2) /\
  (forall rest cancelled,
     startFuzzyQueryConsumer search s ((now, msg) :: rest) cancelled =
       ((startFuzzyQueryConsumer search s rest cancelled).1,
        [EvLog LError "解析模糊查询消息失败:"; EvAck false] ++
        (startFuzzyQueryConsumer search s rest cancelled).2)%list).
Proof.
  intros Hm.
  assert (Hw : fuzzyQueryWorker search now s msg =
                 (s, [EvLog LError "解析模糊查询消息失败:"; EvAck false])).
  { unfold fuzzyQueryWorker. by rewrite Hm. }
  split; [done|]. rewrite Hw. simpl. repeat split.
  - intros multiple requeue Hin.
    rewrite !elem_of_cons, elem_of_nil in Hin. by destruct Hin as [|[|]].
  - intros key fv Hin.
    rewrite !elem_of_cons, elem_of_nil in Hin. by destruct Hin as [|[|]].
  - intros rest cancelled. rewrite Hw.
    by destruct (startFuzzyQueryConsumer search s rest cancelled).
Qed.

(** C2, the behaviour of the code. Whatever the search returns, with or
    without an error, the worker logs success, writes the entry with status
    [ready] and the marshalled result in [data], sets the expiry and only
    then acknowledges; it never writes [failed] nor an error detail. On a
    failed search the result is nil, so the entry is [ready] with the
    marshalled nil. *)
Theorem fuzzyQueryWorker_writes_ready_on_any_return search now s msg m v err :
  json_UnmarshalStrings (Body msg) = Some m ->
  search (field m "keyword") = Returned (v, err) ->
  hashable now s (GetFuzzyCacheKey (field m "keyword")) ->
  let cacheKey := GetFuzzyCacheKey (field m "keyword") in
  let out := fuzzyQueryWorker search now s msg in
  (exists h, HGetAll now out.1 cacheKey = inr h /\
             field h "status" = "ready" /\
             field h "data" = json_Marshal v /\
             h !! "error_msg" =
               match HGetAll now s cacheKey with
               | inr h0 => h0 !! "error_msg"
               | inl _ => None
               end) /\
  out.2 =
    ([EvLog LInfo "开始模糊查询"; EvSearch (field m "keyword")] ++
     match err with
     | Some _ => [EvLog LError "模糊查询数据库失败"]
     | None => []
     end ++
     [EvLog LInfo "模糊查询成功";
      EvHSet cacheKey (readyFields (json_Marshal v) now);
      EvExpire cacheKey FuzzyCacheExpire;
      EvAck false])%list.
Proof.
  intros Hm Hs Hh cacheKey out.
  destruct (fuzzyQueryWorker_entry _ _ _ _ _ _ _ Hm Hs Hh) as (h0 & Hg & Hk).
  split.
  - eexists. split; [|split; [|split]].
    + eapply HGetAll_lookup; [exact Hk|]. unfold alive. simpl.
      apply Z.ltb_lt. unfold FuzzyCacheExpire, Minute, Second, Nanosecond. lia.
    + apply field_set_fields; [apply readyFields_NoDup|]. by left.
    + apply field_set_fields; [apply readyFields_NoDup|]. right. by left.
    + fold cacheKey in Hg. rewrite Hg. apply set_fields_lookup_notin.
      simpl. rewrite !elem_of_cons, elem_of_nil. intuition discriminate.
  - subst out. unfold fuzzyQueryWorker. rewrite Hm, Hs. done.
Qed.

(** What a read before the expiry finds of the entry the worker wrote for
    the payload [P]. *)
Lemma GetDataByKey_after_worker search now s msg m P err t :
  json_UnmarshalStrings (Body msg) = Some m ->
  search (field m "keyword") = Returned (P, err) ->
  hashable now s (GetFuzzyCacheKey (field m "keyword")) ->
  now <= t < now + FuzzyCacheExpire ->
  GetDataByKey None t (fuzzyQueryWorker search now s msg).1
               (GetFuzzyCacheKey (field m "keyword")) =
    (default VNil (json_Unmarshal (json_Marshal P)), "", None).
Proof.
  intros Hm Hs Hh Ht.
  destruct (fuzzyQueryWorker_entry _ _ _ _ _ _ _ Hm Hs Hh) as (h0 & Hg & Hk).
  unfold GetDataByKey.
  erewrite HGetAll_lookup; [|exact Hk|].
  2:{ unfold alive. simpl. apply Z.ltb_lt. lia. }
  pose proof (readyFields_NoDup (json_Marshal P) now) as Hnd.
  erewrite size_pos_lookup.
  2:{ apply (set_fields_lookup_in _ _ "status" "ready"); [done | by left]. }
  rewrite (field_set_fields _ _ "status" "ready") by (done || by left).
  rewrite (field_set_fields _ _ "data" (json_Marshal P))
    by (done || (right; by left)).
  done.
Qed.

(** C9, amended. The entry the worker writes for a payload [P] reads back
    through [GetDataByKey], at any instant before the entry's expiry, as the
    decoding of the encoding of [P] with an empty status and a nil error: the
    cache itself loses nothing. The read yields [P] unchanged exactly when
    the JSON codec round-trips on [P]. It does not where decoding never
    yields a document with a DateTime [crawledat] (decoding into an
    [interface{}] yields no DateTime at all) and [P] is a list holding such
    a document, as every non-empty search result is. *)
Theorem GetDataByKey_returns_written_payload search now s msg m P err t :
  json_UnmarshalStrings (Body msg) = Some m ->
  search (field m "keyword") = Returned (P, err) ->
  hashable now s (GetFuzzyCacheKey (field m "keyword")) ->
  now <= t < now + FuzzyCacheExpire ->
  let readBack :=
    GetDataByKey None t (fuzzyQueryWorker search now s msg).1
                 (GetFuzzyCacheKey (field m "keyword")) in
  readBack = (default VNil (json_Unmarshal (json_Marshal P)), "", None) /\
  (readBack = (P, "", None) <->
   default VNil (json_Unmarshal (json_Marshal P)) = P) /\
  ((forall text l d,
      json_Unmarshal text = Some (VList l) -> VMap d ∈ l -> crawledat d = None) ->
   forall l d, P = VList l -> VMap d ∈ l -> is_Some (crawledat d) ->
     readBack <> (P, "", None)).
Proof.
  intros Hm Hs Hh Ht readBack.
  pose proof (GetDataByKey_after_worker _ _ _ _ _ _ _ _ Hm Hs Hh Ht) as Hread.
  fold readBack in Hread.
  split; [done|]. split.
  - rewrite Hread. split; [by intros [= ->] | by intros ->].
  - intros Hlaw l d -> Hd [c Hc]. rewrite Hread. intros [= Hrt].
    destruct (json_Unmarshal (json_Marshal (VList l))) as [v|] eqn:Hu; [|done].
    simpl in Hrt. subst v. rewrite (Hlaw _ _ _ Hu Hd) in Hc. done.
Qed.

End CacheEntry.

Section CacheEntryExamples.
Import dbm mongo until Reference.
#[local] Existing Instance Reference.runtime.

Lemma hashable_empty now k : hashable now ∅ k.
Proof. intros v ex. unfold live. by rewrite lookup_empty. Qed.

Lemma fuzzyQueryWorker_acks_malformed_witness :
  json_UnmarshalStrings "not json" = None /\
  fuzzyQueryWorker searchDown Second ∅ {| Body := "not json"; Priority := 0 |} =
    (∅, [EvLog LError "解析模糊查询消息失败:"; EvAck false]).
Proof.
  split; [reflexivity|].
  apply (fuzzyQueryWorker_acks_malformed searchDown Second ∅
           {| Body := "not json"; Priority := 0 |}).
  reflexivity.
Defined.

(** The failing input of C2: a work item whose search cannot list the
    collections. *)
Lemma fuzzyQueryWorker_writes_ready_on_any_return_witness :
  searchDown "weather" =
    Returned (VNil, Some "获取集合列表失败: server selection timeout") /\
  exists h,
    HGetAll Second (fuzzyQueryWorker searchDown Second ∅ (workItem "weather")).1
            (GetFuzzyCacheKey "weather") = inr h /\
    field h "status" = "ready" /\ field h "data" = "null" /\
    h !! "error_msg" = None.
Proof.
  split; [reflexivity|].
  destruct (fuzzyQueryWorker_writes_ready_on_any_return
              searchDown Second ∅ (workItem "weather")
              {[ "keyword" := "weather" ]} VNil
              (Some "获取集合列表失败: server selection timeout"))
    as [(h & Hg & Hst & Hd & He) _].
  - reflexivity.
  - reflexivity.
  - apply hashable_empty.
  - exists h. repeat split; assumption.
Defined.

Lemma unmarshal_list text l : unmarshal text = Some (VList l) -> l = [].
Proof.
  unfold unmarshal. repeat case_match; intros [=]; by subst.
Qed.

(** The empty result list reads back unchanged; a result that holds a
    document with a DateTime does not. *)
Lemma GetDataByKey_returns_written_payload_witness :
  GetDataByKey None (2 * Second)
    (fuzzyQueryWorker (GetMongoDataFuzzyByKeyword mongoOne) Second ∅
                      (workItem "weather")).1
    (GetFuzzyCacheKey (field {[ "keyword" := "weather" ]} "keyword")) =
  (VList [], "", None) /\
  GetDataByKey None (2 * Second)
    (fuzzyQueryWorker (fun _ => Returned (VList [VMap (hotDoc "a" 1000)], None))
                      Second ∅ (workItem "weather")).1
    (GetFuzzyCacheKey (field {[ "keyword" := "weather" ]} "keyword")) <>
  (VList [VMap (hotDoc "a" 1000)], "", None).
Proof.
  split.
  - apply (GetDataByKey_returns_written_payload
             (GetMongoDataFuzzyByKeyword mongoOne) Second ∅ (workItem "weather")
             {[ "keyword" := "weather" ]} (VList []) None (2 * Second)).
    + reflexivity.
    + reflexivity.
    + apply hashable_empty.
    + unfold FuzzyCacheExpire, Minute, Second, Nanosecond. lia.
    + reflexivity.
  - refine (proj2 (proj2 (GetDataByKey_returns_written_payload
             (fun _ => Returned (VList [VMap (hotDoc "a" 1000)], None))
             Second ∅ (workItem "weather")
             {[ "keyword" := "weather" ]} (VList [VMap (hotDoc "a" 1000)]) None
             (2 * Second) _ _ _ _)) _ [VMap (hotDoc "a" 1000)] (hotDoc "a" 1000) _ _ _).
    + reflexivity.
    + reflexivity.
    + apply hashable_empty.
    + unfold FuzzyCacheExpire, Minute, Second, Nanosecond. lia.
    + intros text l d Hu Hd. apply unmarshal_list in Hu. subst l.
      by apply elem_of_nil in Hd.
    + reflexivity.
    + by left.
    + by eexists.
Defined.

End CacheEntryExamples.

Section RoundTripCounterexample.
Import dbm mongo until Reference.

(** C9 as stated fails, whatever the library routines are, as soon as the
    JSON decoder never yields a document with a DateTime [crawledat], which
    holds of [json.Unmarshal] into an [interface{}], and some message body
    decodes at all: the worker's search returns one document crawled at
    1000 ms, and the read does not give it back. *)
Lemma GetDataByKey_round_trip_counterexample :
  ~ exists R : GoRuntime,
      (forall text l d,
         json_Unmarshal text = Some (VList l) -> VMap d ∈ l -> crawledat d = None) /\
      (exists msg m, json_UnmarshalStrings (Body msg) = Some m) /\
      (forall search now (s : store) msg m P err t,
         json_UnmarshalStrings (Body msg) = Some m ->
         search (field m "keyword") = Returned (P, err) ->
         hashable now s (GetFuzzyCacheKey (field m "keyword")) ->
         now <= t < now + FuzzyCacheExpire ->
         GetDataByKey None t (fuzzyQueryWorker search now s msg).1
                      (GetFuzzyCacheKey (field m "keyword")) = (P, "", None)).
Proof.
  intros (R & Hlaw & (msg & m & Hm) & Hclaim).
  set (P := VList [VMap (hotDoc "a" 1000)]).
  set (search := fun _ : string => Returned (P, @None error)).
  assert (Ht : 0 <= 0 < 0 + FuzzyCacheExpire).
  { unfold FuzzyCacheExpire, Minute, Second, Nanosecond. lia. }
  pose proof (Hclaim search 0 ∅ msg m P None 0 Hm eq_refl
                (hashable_empty _ _) Ht) as Hback.
  rewrite (GetDataByKey_after_worker search 0 ∅ msg m P None 0 Hm eq_refl
             (hashable_empty _ _) Ht) in Hback.
  injection Hback as Hrt.
  destruct (json_Unmarshal (json_Marshal P)) as [v|] eqn:Hu; [|done].
  simpl in Hrt. subst v.
  pose proof (Hlaw _ _ (hotDoc "a" 1000) Hu ltac:(by left)) as Hc.
  done.
Qed.

End RoundTripCounterexample.

(** ** Polling *)

Section Polling.
Import dbm until handle.
Context `{GoRuntime}.

Lemma field_is_Some (h : gmap string string) f :
  field h f <> "" -> is_Some (h !! f).
Proof. unfold field. destruct (h !! f); [eauto | done]. Qed.

Lemma size_eqb_lookup (h : gmap string string) f :
  field h f <> "" -> (size h =? 0)%nat = false.
Proof.
  intros Hf. apply Nat.eqb_neq.
  eapply map_size_ne_0_lookup_2. by apply field_is_Some.
Qed.

Lemma entryStatus_HGetAll now (s : store) k st :
  entryStatus now s k = Some st ->
  exists h, HGetAll now s k = inr h /\ field h "status" = st.
Proof.
  unfold entryStatus, HGetAll.
  destruct (live now s k) as [[[v|h] ex]|]; try done.
  intros [= <-]. eauto.
Qed.


End Polling.

Section PollingExamples.
Import dbm mongo until handle Reference.
#[local] Existing Instance Reference.runtime.


End PollingExamples.

(** ** Submissions *)

Section Keys.
Import dbm until handle.
Context `{GoRuntime}.

Lemma cacheKey_ne_lockKey a b : GetFuzzyCacheKey a <> GetFuzzyLockKey b.
Proof. unfold GetFuzzyCacheKey, GetFuzzyLockKey. simpl. intros [=]. Qed.

Lemma reqKey_ne_lockKey r b : ResultCachePrefix +:+ r <> GetFuzzyLockKey b.
Proof. unfold GetFuzzyLockKey. simpl. intros [=]. Qed.

Lemma reqKey_ne_cacheKey r b : ResultCachePrefix +:+ r <> GetFuzzyCacheKey b.
Proof. unfold GetFuzzyCacheKey. simpl. intros [=]. Qed.

End Keys.

Section Submissions.
Import dbm until handle.
Context `{GoRuntime}.
Implicit Types (q : Submission) (w : World).

Lemma queue_publish mq name body prio mq' fault :
  PublishPriorityMQ fault mq name body prio = inr mq' ->
  queue mq' name = (queue mq name ++ [{| Body := body; Priority := prio |}])%list.
Proof.
  unfold PublishPriorityMQ. destruct (channel mq); simpl; [|done].
  destruct fault; [done|]. intros [= <-]. unfold queue at 1. simpl.
  by rewrite lookup_insert_eq.
Qed.

Lemma SubmitFuzzyQuery_lock q w :
  let w' := (SubmitFuzzyQuery q w).1 in
  let lk := GetFuzzyLockKey (keyword q) in
  (mq w' = mq w \/
   (exists msg, queue (mq w') FuzzyQueueName =
                  (queue (mq w) FuzzyQueueName ++ [msg])%list) /\
   acquireLock q (kv w) lk = inr (true, <[lk := lockEntry q]> (kv w)) /\
   (cacheRead q w).1.2 <> "loading" /\
   kv w' !! lk = Some (lockEntry q)) /\
  (kv w' !! lk = kv w !! lk \/
   live (at_time q) (kv w) lk = None /\ kv w' !! lk = Some (lockEntry q)).
Proof.
  intros w' lk. subst w'. unfold SubmitFuzzyQuery, cacheRead.
  destruct (String.eqb (keyword q) ""); [by auto|].
  destruct (GetDataByKey _ _ _ _) as [[data status] [e|]]; [by auto|].
  destruct (is_nil data); simpl negb; cbv iota; [|by auto].
  fold lk. unfold acquireLock.
  destruct (lock_fault q); [by auto|].
  unfold SetNX.
  destruct (live (at_time q) (kv w) lk) eqn:L.
  - simpl. rewrite Expire_lookup_ne, HSet_lookup_ne by apply reqKey_ne_lockKey. auto.
  - simpl. destruct (String.eqb status "loading") eqn:S; simpl.
    + rewrite Expire_lookup_ne, HSet_lookup_ne by apply reqKey_ne_lockKey.
      rewrite lookup_insert_eq. auto.
    + destruct (PublishPriorityMQ _ _ _ _ _) as [e|mq'] eqn:P; simpl.
      * rewrite Expire_lookup_ne, HSet_lookup_ne by apply cacheKey_ne_lockKey.
        rewrite lookup_insert_eq. auto.
      * rewrite Expire_lookup_ne, HSet_lookup_ne by apply reqKey_ne_lockKey.
        rewrite Expire_lookup_ne, HSet_lookup_ne by apply cacheKey_ne_lockKey.
        rewrite lookup_insert_eq. apply queue_publish in P.
        apply String.eqb_neq in S. split; [right|]; eauto 10.
Qed.

Lemma heldUntil_live t1 now (s : store) k :
  heldUntil t1 s k -> now < t1 -> is_Some (live now s k).
Proof.
  intros (e & Hk & Hexp) Hlt. unfold live. rewrite Hk.
  unfold alive. destruct (e_exp e) as [t|] eqn:E; [|eauto].
  specialize (Hexp t eq_refl).
  rewrite (proj2 (Z.ltb_lt now t)) by lia. eauto.
Qed.

Lemma acquireLock_true q (s s1 : store) lk :
  acquireLock q s lk = inr (true, s1) ->
  lock_fault q = None /\ live (at_time q) s lk = None /\
  s1 = <[lk := lockEntry q]> s.
Proof.
  unfold acquireLock, SetNX. destruct (lock_fault q); [done|].
  destruct (live (at_time q) s lk); [done|]. by intros [= <-].
Qed.

(** A held lock: the submission publishes nothing and leaves the lock. *)
Lemma SubmitFuzzyQuery_lock_held q w :
  is_Some (live (at_time q) (kv w) (GetFuzzyLockKey (keyword q))) ->
  mq (SubmitFuzzyQuery q w).1 = mq w /\
  kv (SubmitFuzzyQuery q w).1 !! GetFuzzyLockKey (keyword q) =
    kv w !! GetFuzzyLockKey (keyword q).
Proof.
  intros [e He].
  destruct (SubmitFuzzyQuery_lock q w) as [Hmq Hlk]. split.
  - destruct Hmq as [?|(_ & Ha & _)]; [done|].
    apply acquireLock_true in Ha as (_ & Hl & _). congruence.
  - destruct Hlk as [?|[Hl _]]; [done | congruence].
Qed.

Lemma entryStatus_loading_read q w :
  entryStatus (at_time q) (kv w) (GetFuzzyCacheKey (keyword q)) = Some "loading" ->
  read_fault q = None -> cacheRead q w = (VNil, "loading", None).
Proof.
  intros (h & Hg & Hst)%entryStatus_HGetAll Hf.
  unfold cacheRead, GetDataByKey. rewrite Hf, Hg, Hst. simpl.
  by rewrite andb_false_r.
Qed.

(** A loading entry: the submission publishes nothing. *)
Lemma SubmitFuzzyQuery_loading q w :
  entryStatus (at_time q) (kv w) (GetFuzzyCacheKey (keyword q)) = Some "loading" ->
  mq (SubmitFuzzyQuery q w).1 = mq w.
Proof.
  intros Hst. destruct (read_fault q) as [e|] eqn:Hf.
  - unfold SubmitFuzzyQuery, GetDataByKey. rewrite Hf.
    by destruct (String.eqb (keyword q) "").
  - destruct (SubmitFuzzyQuery_lock q w) as [[?|(_ & _ & Hne & _)] _]; [done|].
    rewrite (entryStatus_loading_read q w Hst Hf) in Hne. done.
Qed.

Lemma fuzzyQueryWorker_lock search now (s : store) msg k :
  (fuzzyQueryWorker search now s msg).1 !! GetFuzzyLockKey k = s !! GetFuzzyLockKey k.
Proof.
  unfold fuzzyQueryWorker.
  destruct (json_UnmarshalStrings (Body msg)) as [m|]; [|done].
  destruct (search _) as [[v err]|]; [|done]. simpl.
  by rewrite Expire_lookup_ne, HSet_lookup_ne by apply cacheKey_ne_lockKey.
Qed.

End Submissions.

Section Dedup.
Import dbm until handle.
Context `{GoRuntime}.
Implicit Types (q : Submission) (w : World).

Lemma enqueued_grow w w' msg :
  queue (mq w') FuzzyQueueName = (queue (mq w) FuzzyQueueName ++ [msg])%list ->
  enqueued w' = S (enqueued w).
Proof. unfold enqueued. intros ->. rewrite length_app. simpl. lia. Qed.

(** Within the window of one lock expiry, once a work item for [k] is on the
    queue the lock for [k] outlives the window. *)
Lemma run_window_invariant (k : string) (t0 : Z) (ops : list sysop) w0 w :
  (forall q, Submit q ∈ ops -> keyword q = k /\ t0 <= at_time q < t0 + 5 * Second) ->
  enqueued w = enqueued w0 \/
    (enqueued w = S (enqueued w0) /\
     heldUntil (t0 + 5 * Second) (kv w) (GetFuzzyLockKey k)) ->
  enqueued (run ops w) = enqueued w0 \/
    (enqueued (run ops w) = S (enqueued w0) /\
     heldUntil (t0 + 5 * Second) (kv (run ops w)) (GetFuzzyLockKey k)).
Proof.
  revert w. induction ops as [|o ops IH]; intros w Hops Hinv; [done|].
  simpl. apply IH; [intros q Hq; apply Hops; by right|].
  destruct o as [q|search now msg]; simpl.
  - destruct (Hops q) as [<- Ht]; [by left|].
    destruct (SubmitFuzzyQuery_lock q w) as [Hmq Hlk].
    destruct Hinv as [Hsame|[Hone Hheld]].
    + destruct Hmq as [Hmq|([msg Hq] & _ & _ & Hnew)].
      * left. unfold enqueued in *. by rewrite Hmq.
      * right. split; [by rewrite (enqueued_grow _ _ _ Hq), Hsame|].
        eexists. split; [exact Hnew|]. simpl. intros t [= <-]. lia.
    + right.
      destruct (heldUntil_live _ (at_time q) _ _ Hheld) as [e He]; [lia|].
      destruct (SubmitFuzzyQuery_lock_held q w) as [Hmq' Hlk']; [eauto|].
      split; [unfold enqueued in *; by rewrite Hmq'|].
      destruct Hheld as (e' & He' & Hexp). exists e'. by rewrite Hlk'.
  - destruct Hinv as [Hsame|[Hone Hheld]]; [by left|]. right. split; [done|].
    destruct Hheld as (e' & He' & Hexp). exists e'.
    by rewrite fuzzyQueryWorker_lock.
Qed.

(** Submissions of one keyword served one after the other within one lock
    expiry, with worker deliveries in between, enqueue at most one item. *)
Lemma run_enqueue_at_most_once (k : string) (t0 : Z) (ops : list sysop) (w : World) :
  (forall q, Submit q ∈ ops -> keyword q = k /\ t0 <= at_time q < t0 + 5 * Second) ->
  (enqueued (run ops w) <= enqueued w + 1)%nat.
Proof.
  intros Hops.
  destruct (run_window_invariant k t0 ops w w Hops) as [->|[-> _]]; [by left | lia | lia].
Qed.

(** A submission that changes the queue adds exactly one item, took the lock
    and read a status other than [loading]. *)
Lemma SubmitFuzzyQuery_enqueue_needs_lock q w :
  mq (SubmitFuzzyQuery q w).1 <> mq w ->
  enqueued (SubmitFuzzyQuery q w).1 = S (enqueued w) /\
  (exists s1, acquireLock q (kv w) (GetFuzzyLockKey (keyword q)) = inr (true, s1)) /\
  (cacheRead q w).1.2 <> "loading".
Proof.
  intros Hne.
  destruct (SubmitFuzzyQuery_lock q w) as [[?|([msg Hq] & Ha & Hst & _)] _]; [done|].
  split; [by apply (enqueued_grow _ _ msg)|]. split; [eauto | done].
Qed.

End Dedup.

(** ** The status of a cache entry over time *)

Section StatusOrder.
Import dbm until handle.
Context `{GoRuntime}.
Implicit Types (q : Submission) (w : World) (s : store).

Lemma statusRank_le_2 st : (statusRank st <= 2)%nat.
Proof.
  unfold statusRank. destruct st as [x|]; [|lia].
  repeat (case_match; try lia).
Qed.

Lemma entryStatus_ext now s s' k :
  s !! k = s' !! k -> entryStatus now s k = entryStatus now s' k.
Proof. intros Hk. unfold entryStatus. by rewrite (live_ext now s s' k Hk). Qed.

Lemma entryStatus_hashable now s k st :
  entryStatus now s k = Some st -> hashable now s k.
Proof.
  unfold entryStatus, hashable. intros Hst v ex Hl. by rewrite Hl in Hst.
Qed.

Lemma hashable_ext now s s' k : s !! k = s' !! k -> hashable now s k -> hashable now s' k.
Proof. intros Hk Hh v ex. rewrite <- (live_ext now s s' k Hk). apply Hh. Qed.

(** HSET then EXPIRE with a positive duration: the status just written is
    what a reader sees at once. *)
Lemma HSet_Expire_status now s k fv d v :
  hashable now s k -> 0 < d -> NoDup fv.*1 -> ("status", v) ∈ fv ->
  entryStatus now (Expire now (HSet now s k fv) k d) k = Some v.
Proof.
  intros Hh Hd Hnd Hin.
  destruct (HSet_Expire_lookup now s k fv d Hh) as (h0 & _ & Hk).
  unfold entryStatus, live. rewrite Hk. unfold alive. simpl.
  rewrite (proj2 (Z.ltb_lt _ _)) by lia.
  by rewrite (field_set_fields _ _ _ v).
Qed.

Lemma FuzzyCacheExpire_pos : 0 < FuzzyCacheExpire.
Proof. unfold FuzzyCacheExpire, Minute, Second, Nanosecond. lia. Qed.

Lemma loadingFields_NoDup kw now : NoDup (loadingFields kw now).*1.
Proof.
  simpl. repeat constructor; rewrite ?elem_of_cons, ?elem_of_nil; intuition discriminate.
Qed.

(** The worker's write never lowers the status of any cache entry. *)
Lemma fuzzyQueryWorker_status_non_decreasing search now msg w kw :
  statusNonDecreasing (Work search now msg) w kw.
Proof.
  unfold statusNonDecreasing. simpl.
  destruct (entryStatus now (kv w) (GetFuzzyCacheKey kw)) as [st|] eqn:Hst;
    [|simpl; lia].
  unfold fuzzyQueryWorker.
  destruct (json_UnmarshalStrings (Body msg)) as [m|]; [|simpl; by rewrite Hst].
  destruct (search _) as [[v err]|]; [|simpl; by rewrite Hst]. simpl.
  destruct (decide (GetFuzzyCacheKey (field m "keyword") = GetFuzzyCacheKey kw)) as [->|Hne].
  - rewrite (HSet_Expire_status _ _ _ _ _ "ready").
    + pose proof (statusRank_le_2 (Some st)) as Hle. simpl in Hle |- *. lia.
    + by eapply entryStatus_hashable.
    + apply FuzzyCacheExpire_pos.
    + apply readyFields_NoDup.
    + by left.
  - erewrite (entryStatus_ext _ (Expire _ _ _ _)); [by rewrite Hst|].
    by rewrite Expire_lookup_ne, HSet_lookup_ne.
Qed.

(** What a submission does to a cache key: nothing, or, having read no
    payload and a status other than [loading] and having taken the lock, the
    HSET of [loading] and the EXPIRE. *)
Lemma SubmitFuzzyQuery_cache q w kw :
  let now := at_time q in
  let K := GetFuzzyCacheKey kw in
  kv (SubmitFuzzyQuery q w).1 !! K = kv w !! K \/
  (K = GetFuzzyCacheKey (keyword q) /\
   (exists status, cacheRead q w = (VNil, status, None) /\ status <> "loading") /\
   exists s1, s1 !! K = kv w !! K /\
     kv (SubmitFuzzyQuery q w).1 !! K =
       Expire now (HSet now s1 K (loadingFields (keyword q) now)) K FuzzyCacheExpire !! K).
Proof.
  intros now K. unfold SubmitFuzzyQuery, cacheRead.
  destruct (String.eqb (keyword q) ""); [by left|].
  destruct (GetDataByKey _ _ _ _) as [[data status] [e|]]; [by left|].
  destruct data; simpl is_nil; simpl negb; cbv iota; try by left.
  unfold acquireLock.
  destruct (lock_fault q); [by left|].
  destruct (SetNX _ _ _ _ _) as [ok s1] eqn:Hnx.
  assert (Hs1 : forall k, k <> GetFuzzyLockKey (keyword q) -> s1 !! k = kv w !! k).
  { intros k Hk. replace s1 with (SetNX (at_time q) (kv w) (GetFuzzyLockKey (keyword q))
                                        (lockVal q) (5 * Second)).2 by by rewrite Hnx.
    by apply SetNX_lookup_ne. }
  assert (HK : s1 !! K = kv w !! K) by apply Hs1, cacheKey_ne_lockKey.
  destruct (ok && negb (String.eqb status "loading")) eqn:Hc.
  - apply andb_prop in Hc as [-> Hl]. apply negb_true_iff, String.eqb_neq in Hl.
    destruct (decide (K = GetFuzzyCacheKey (keyword q))) as [HKq|Hne].
    + right. split; [done|]. split; [eauto|]. exists s1. split; [done|].
      destruct (PublishPriorityMQ _ _ _ _ _); simpl; rewrite <- HKq; [done|].
      by rewrite Expire_lookup_ne, HSet_lookup_ne by apply reqKey_ne_cacheKey.
    + left.
      destruct (PublishPriorityMQ _ _ _ _ _); simpl.
      * by rewrite Expire_lookup_ne, HSet_lookup_ne.
      * rewrite Expire_lookup_ne, HSet_lookup_ne by apply reqKey_ne_cacheKey.
        by rewrite Expire_lookup_ne, HSet_lookup_ne.
  - left. simpl.
    by rewrite Expire_lookup_ne, HSet_lookup_ne by apply reqKey_ne_cacheKey.
Qed.

Lemma cacheRead_ready_payload q w h v :
  read_fault q = None ->
  HGetAll (at_time q) (kv w) (GetFuzzyCacheKey (keyword q)) = inr h ->
  field h "status" = "ready" ->
  json_Unmarshal (field h "data") = Some v ->
  cacheRead q w = (v, "", None).
Proof.
  intros Hf Hg Hst Hv. unfold cacheRead, GetDataByKey. rewrite Hf, Hg, Hst, Hv.
  assert (Hsz : (0 <? size h)%nat = true).
  { destruct (field_is_Some h "status") as [x Hx]; [by rewrite Hst|].
    by eapply size_pos_lookup. }
  by rewrite Hsz.
Qed.

End StatusOrder.

Section StatusOrderClaim.
Import dbm until handle.
Context `{GoRuntime}.
Implicit Types (q : Submission) (w : World) (s : store).

Lemma cacheRead_fault q w e :
  read_fault q = Some e -> cacheRead q w = (VNil, "", Some e).
Proof. intros Hf. unfold cacheRead, GetDataByKey. by rewrite Hf. Qed.

Lemma cacheRead_status q w h st :
  read_fault q = None ->
  HGetAll (at_time q) (kv w) (GetFuzzyCacheKey (keyword q)) = inr h ->
  field h "status" = st -> st <> "ready" ->
  cacheRead q w = (VNil, st, None).
Proof.
  intros Hf Hg Hst Hne. unfold cacheRead, GetDataByKey. rewrite Hf, Hg, Hst.
  apply String.eqb_neq in Hne. rewrite Hne. by rewrite andb_false_r.
Qed.

(** An operation (a submission or a worker delivery) served as one step does
    not lower the status, in the order absent < loading < ready, of a cache
    entry that is absent, [loading], or [ready] with a payload that decodes
    to a non-nil value. *)
Lemma step_status_non_decreasing (o : sysop) (w : World) (kw : string) :
  let K := GetFuzzyCacheKey kw in
  let before := entryStatus (opTime o) (kv w) K in
  (before = None \/ before = Some "loading" \/
   (before = Some "ready" /\
    exists h v, HGetAll (opTime o) (kv w) K = inr h /\
                json_Unmarshal (field h "data") = Some v /\ is_nil v = false)) ->
  statusNonDecreasing o w kw.
Proof.
  intros K before Hbefore.
  destruct o as [q|search now msg]; [|apply fuzzyQueryWorker_status_non_decreasing].
  unfold statusNonDecreasing. simpl in *. fold K. fold before.
  destruct (SubmitFuzzyQuery_cache q w kw) as [Hsame|(HK & (st & Hread & Hst) & _)].
  { fold K in Hsame. by rewrite (entryStatus_ext _ _ _ _ Hsame). }
  fold K in HK.
  destruct Hbefore as [->|[Hl|(Hr & h & v & Hg & Hv & Hnil)]]; [simpl; lia| |].
  - exfalso. subst before. rewrite HK in Hl.
    destruct (read_fault q) as [e|] eqn:Hf.
    + rewrite (cacheRead_fault q w e Hf) in Hread. done.
    + rewrite (entryStatus_loading_read q w Hl Hf) in Hread.
      injection Hread as <-. done.
  - exfalso. subst before. rewrite HK in Hr, Hg.
    destruct (read_fault q) as [e|] eqn:Hf.
    + rewrite (cacheRead_fault q w e Hf) in Hread. done.
    + destruct (entryStatus_HGetAll _ _ _ _ Hr) as (h' & Hg' & Hst').
      rewrite Hg in Hg'. injection Hg' as <-.
      rewrite (cacheRead_ready_payload q w h v Hf Hg Hst' Hv) in Hread.
      injection Hread as -> _. done.
Qed.

End StatusOrderClaim.

(** ** Deduplication of search results *)

Section Dedup8.
Import dbm mongo.
Context `{GoRuntime}.

Lemma Permutation_singleton_eq {A} (l : list A) (x : A) : l ≡ₚ [x] -> l = [x].
Proof. intros Hp. symmetry in Hp. by apply Permutation_singleton_l in Hp. Qed.

(** C8, the behaviour of the code on two documents of one title whose
    [crawledat] differ by less than a second: the comparison is on whole
    seconds, so the later document does not replace the earlier one. This
    holds for every iteration order of the map and every sort that permutes
    its input. *)
Theorem deduplicateAndSort_keeps_earlier_within_second :
  (forall m, map_range m ≡ₚ (map_to_list m).*2) ->
  (forall less l, sort_Slice less l ≡ₚ l) ->
  deduplicateAndSort [Reference.hotDoc "a" 1000; Reference.hotDoc "a" 1999] 50
    = Some [Reference.hotDoc "a" 1000] /\
  crawledat (Reference.hotDoc "a" 1000) = Some 1000 /\
  crawledat (Reference.hotDoc "a" 1999) = Some 1999.
Proof.
  intros Hrange Hsort. split; [|split; reflexivity].
  unfold deduplicateAndSort.
  replace (dedupLoop ∅ [Reference.hotDoc "a" 1000; Reference.hotDoc "a" 1999])
    with (Some ({[ "a" := Reference.hotDoc "a" 1000 ]} : gmap string bsonM))
    by reflexivity.
  assert (Hr : map_range {[ "a" := Reference.hotDoc "a" 1000 ]}
               = [Reference.hotDoc "a" 1000]).
  { apply Permutation_singleton_eq. rewrite Hrange, map_to_list_singleton. done. }
  rewrite Hr.
  rewrite (Permutation_singleton_eq _ _ (Hsort less [Reference.hotDoc "a" 1000])).
  reflexivity.
Qed.

End Dedup8.

Section Dedup8Examples.
Import dbm mongo Reference.
#[local] Existing Instance Reference.runtime.

Lemma insertBy_perm {A} (less : A -> A -> bool) x l : insertBy less x l ≡ₚ x :: l.
Proof.
  induction l as [|y l IH]; simpl; [done|].
  destruct (less y x); [|done]. rewrite IH. apply Permutation_swap.
Qed.

Lemma insertionSort_perm {A} (less : A -> A -> bool) l : insertionSort less l ≡ₚ l.
Proof.
  induction l as [|x l IH]; simpl; [done|]. by rewrite insertBy_perm, IH.
Qed.

Lemma deduplicateAndSort_keeps_earlier_within_second_witness :
  deduplicateAndSort [hotDoc "a" 1000; hotDoc "a" 1999] 50 = Some [hotDoc "a" 1000].
Proof.
  apply deduplicateAndSort_keeps_earlier_within_second.
  - intros m. reflexivity.
  - intros less l. apply insertionSort_perm.
Defined.

End Dedup8Examples.

Section DedupLoop.
Import dbm mongo.
Implicit Types (seen : gmap string bsonM) (doc : bsonM) (docs : list bsonM).

Lemma seenInv_weaken docs doc seen :
  (title doc = None \/ crawledat doc = None) ->
  seenInv docs seen -> seenInv (docs ++ [doc]) seen.
Proof.
  intros Hbad [Hkept Hmax]. split.
  - intros t d Hd. destruct (Hkept t d Hd) as (? & ? & ?).
    repeat split; try done. apply elem_of_app. by left.
  - intros d' t c' Hin Ht Hc.
    apply elem_of_app in Hin as [Hin|Hin%list_elem_of_singleton]; [by eapply Hmax|].
    subst d'. destruct Hbad; congruence.
Qed.

(** One iteration keeps the invariant and does not panic. *)
Lemma dedupStep_inv docs doc seen :
  seenInv docs seen ->
  exists seen', dedupStep seen doc = Some seen' /\ seenInv (docs ++ [doc]) seen'.
Proof.
  intros Hinv. unfold dedupStep.
  destruct (as_map (doc !! "hotitem")) as [hotitem|] eqn:Hh.
  2:{ exists seen. split; [done|]. apply seenInv_weaken; [|done].
      left. unfold title. by rewrite Hh. }
  destruct (as_string (hotitem !! "title")) as [t|] eqn:Ht.
  2:{ exists seen. split; [done|]. apply seenInv_weaken; [|done].
      left. unfold title. by rewrite Hh. }
  destruct (as_datetime (hotitem !! "crawledat")) as [c|] eqn:Hc.
  2:{ exists seen. split; [done|]. apply seenInv_weaken; [|done].
      right. unfold crawledat. by rewrite Hh. }
  assert (Htitle : title doc = Some t) by (unfold title; by rewrite Hh).
  assert (Hcraw : crawledat doc = Some c) by (unfold crawledat; by rewrite Hh).
  destruct Hinv as [Hkept Hmax].
  assert (Hins : forall bound,
    (forall d' c', d' ∈ docs -> title d' = Some t -> crawledat d' = Some c' ->
                   unixSeconds c' <= unixSeconds c) ->
    bound = <[t := doc]> seen -> seenInv (docs ++ [doc]) bound).
  { intros bound Hle ->. split.
    - intros t' d. rewrite lookup_insert. case_decide as Heq.
      + intros [= <-]. subst t'. rewrite Hcraw. repeat split; eauto.
        apply elem_of_app. right. by apply list_elem_of_singleton.
      + intros Hd. destruct (Hkept t' d Hd) as (? & ? & ?).
        repeat split; try done. apply elem_of_app. by left.
    - intros d' t' c' Hin Ht' Hc'. destruct (decide (t' = t)) as [->|Hne].
      + exists doc, c. rewrite lookup_insert_eq. repeat split; try done.
        apply elem_of_app in Hin as [Hin|Hin%list_elem_of_singleton].
        * by eapply Hle.
        * subst d'. rewrite Hcraw in Hc'. injection Hc' as <-. lia.
      + apply elem_of_app in Hin as [Hin|Hin%list_elem_of_singleton].
        * destruct (Hmax d' t' c' Hin Ht' Hc') as (d & cd & ? & ? & ?).
          exists d, cd. by rewrite lookup_insert_ne.
        * subst d'. congruence. }
  destruct (seen !! t) as [existingDoc|] eqn:Hseen.
  - destruct (Hkept t existingDoc Hseen) as (Hte & [ce Hce] & Hine).
    rewrite Hce. rewrite Z.gtb_ltb.
    destruct (Z.ltb_spec (unixSeconds ce) (unixSeconds c)) as [Hlt|Hge].
    + eexists. split; [done|]. apply Hins; [|done].
      intros d' c' Hin Ht' Hc'.
      destruct (Hmax d' t c' Hin Ht' Hc') as (d & cd & Hd & Hcd & Hle).
      rewrite Hseen in Hd. injection Hd as <-. rewrite Hce in Hcd.
      injection Hcd as <-. lia.
    + exists seen. split; [done|]. split.
      * intros t' d Hd. destruct (Hkept t' d Hd) as (? & ? & ?).
        repeat split; try done. apply elem_of_app. by left.
      * intros d' t' c' Hin Ht' Hc'.
        apply elem_of_app in Hin as [Hin|Hin%list_elem_of_singleton];
          [by eapply Hmax|].
        subst d'. rewrite Htitle in Ht'. injection Ht' as <-.
        rewrite Hcraw in Hc'. injection Hc' as <-.
        exists existingDoc, ce. done.
  - eexists. split; [done|]. apply Hins; [|done].
    intros d' c' Hin Ht' Hc'.
    destruct (Hmax d' t c' Hin Ht' Hc') as (d & cd & Hd & _). congruence.
Qed.

Lemma dedupLoop_inv pre docs seen :
  seenInv pre seen ->
  exists seen', dedupLoop seen docs = Some seen' /\ seenInv (pre ++ docs) seen'.
Proof.
  revert pre seen. induction docs as [|doc docs IH]; intros pre seen Hinv.
  - exists seen. by rewrite app_nil_r.
  - destruct (dedupStep_inv pre doc seen Hinv) as (seen1 & Hstep & Hinv1).
    destruct (IH _ _ Hinv1) as (seen' & Hloop & Hinv').
    exists seen'. simpl. rewrite Hstep. split; [done|].
    by rewrite <- app_assoc in Hinv'.
Qed.

Lemma seenInv_empty : seenInv [] ∅.
Proof.
  split.
  - intros t d. by rewrite lookup_empty.
  - intros d' t c' Hin. by apply elem_of_nil in Hin.
Qed.

End DedupLoop.

Section DedupResult.
Import dbm mongo.
Context `{GoRuntime}.
Implicit Types (seen : gmap string bsonM) (doc : bsonM) (docs : list bsonM).

Lemma Sorted_take_prefix {A} (R : relation A) (l : list A) n :
  Sorted R l -> Sorted R (take n l).
Proof.
  intros Hs. revert n. induction Hs as [|x l Hs IH Hhd]; intros [|n]; simpl;
    try constructor.
  - apply IH.
  - destruct Hhd as [|y l Hxy]; destruct n; simpl; by constructor.
Qed.

Lemma Sorted_strengthen {A} (R R' : relation A) (P : A -> Prop) (l : list A) :
  (forall a b, P a -> P b -> R a b -> R' a b) ->
  Forall P l -> Sorted R l -> Sorted R' l.
Proof.
  intros HR HP Hs. induction Hs as [|x l Hs IH Hhd]; [constructor|].
  apply Forall_cons in HP as [Hx Hl]. constructor; [by apply IH|].
  destruct Hhd as [|y l Hxy]; constructor.
  apply Forall_cons in Hl as [Hy _]. by apply HR.
Qed.

Lemma less_false_newerFirst (a b : bsonM) :
  is_Some (crawledat a) -> is_Some (crawledat b) ->
  less b a = false -> newerFirst a b.
Proof.
  intros [ca Ha] [cb Hb]. unfold less, newerFirst. rewrite Ha, Hb, Z.gtb_ltb.
  intros Hlt%Z.ltb_ge. eauto.
Qed.

Lemma seen_titles seen docs :
  seenInv docs seen ->
  title <$> (map_to_list seen).*2 = Some <$> (map_to_list seen).*1.
Proof.
  intros [Hkept _]. rewrite <- !list_fmap_compose.
  apply Forall_fmap_ext, Forall_forall. intros [t d] Hin. simpl.
  apply elem_of_map_to_list in Hin. by destruct (Hkept t d Hin).
Qed.

Lemma seen_values seen docs d :
  seenInv docs seen -> d ∈ (map_to_list seen).*2 ->
  exists t, seen !! t = Some d /\ title d = Some t /\
            is_Some (crawledat d) /\ d ∈ docs.
Proof.
  intros [Hkept _] Hin. apply list_elem_of_fmap in Hin as ([t d'] & -> & Hin).
  apply elem_of_map_to_list in Hin. exists t. simpl.
  destruct (Hkept t d' Hin) as (? & ? & ?). done.
Qed.

(** What [deduplicateAndSort] guarantees whatever the iteration order of the
    map and the sort algorithm: with a non-negative limit it does not panic
    and returns at most [limit] documents, all taken from the input with a
    well-typed title and [crawledat] (the others are dropped), no two with
    the same title, newest first; and the document kept for a title is not
    earlier, in whole seconds, than any well-typed input document of that
    title. *)
Theorem deduplicateAndSort_properties docs limit :
  (forall m, map_range m ≡ₚ (map_to_list m).*2) ->
  (forall less l, sort_Slice less l ≡ₚ l) ->
  (forall l, Forall (fun d => is_Some (crawledat d)) l ->
             Sorted (fun a b => less b a = false) (sort_Slice less l)) ->
  0 <= limit ->
  exists res,
    deduplicateAndSort docs limit = Some res /\
    Z.of_nat (length res) <= limit /\
    NoDup (title <$> res) /\
    (forall d, d ∈ res -> d ∈ docs /\ is_Some (title d) /\ is_Some (crawledat d)) /\
    Sorted newerFirst res /\
    (forall d d' c c', d ∈ res -> d' ∈ docs -> title d' = title d ->
       crawledat d = Some c -> crawledat d' = Some c' ->
       unixSeconds c' <= unixSeconds c).
Proof.
  intros Hrange Hperm Hsorted Hlimit.
  destruct (dedupLoop_inv [] docs ∅ seenInv_empty) as (seen & Hloop & Hinv).
  simpl in Hinv.
  set (uniqueDocs := sort_Slice less (map_range seen)).
  assert (Hu : uniqueDocs ≡ₚ (map_to_list seen).*2).
  { subst uniqueDocs. by rewrite Hperm, Hrange. }
  assert (Hvals : forall d, d ∈ uniqueDocs ->
            exists t, seen !! t = Some d /\ title d = Some t /\
                      is_Some (crawledat d) /\ d ∈ docs).
  { intros d Hd. rewrite Hu in Hd. by eapply seen_values. }
  assert (Hnd : NoDup (title <$> uniqueDocs)).
  { rewrite Hu, (seen_titles seen docs Hinv).
    apply NoDup_fmap_2; [apply _|]. apply NoDup_fst_map_to_list. }
  assert (Hwt : Forall (fun d => is_Some (crawledat d)) uniqueDocs).
  { apply Forall_forall. intros d Hd. by destruct (Hvals d Hd) as (? & ? & ? & ? & ?). }
  assert (Hsrt : Sorted newerFirst uniqueDocs).
  { eapply (Sorted_strengthen (fun a b => less b a = false) newerFirst
              (fun d => is_Some (crawledat d))); [|exact Hwt|].
    - intros a b. apply less_false_newerFirst.
    - apply Hsorted. apply Forall_forall. intros d Hd.
      rewrite Hrange in Hd. by destruct (seen_values seen docs d Hinv Hd) as (? & ? & ? & ? & ?). }
  assert (Hres : exists res, deduplicateAndSort docs limit = Some res /\
                   Z.of_nat (length res) <= limit /\ res `sublist_of` uniqueDocs /\
                   Sorted newerFirst res).
  { unfold deduplicateAndSort. rewrite Hloop. fold uniqueDocs.
    rewrite Z.gtb_ltb.
    destruct (Z.ltb_spec limit (Z.of_nat (length uniqueDocs))) as [Hlt|Hge].
    - rewrite (proj2 (Z.ltb_ge limit 0)) by lia.
      eexists. split; [done|]. split; [|split].
      + rewrite length_take. lia.
      + apply sublist_take.
      + by apply Sorted_take_prefix.
    - eexists. split; [done|]. split; [lia|]. split; [done|done]. }
  destruct Hres as (res & Hdef & Hlen & Hsub & Hsr).
  exists res. split; [done|]. split; [done|]. split; [|split; [|split; [done|]]].
  - apply (sublist_NoDup _ (title <$> uniqueDocs)); [exact Hnd | by apply fmap_sublist].
  - intros d Hd. destruct (Hvals d) as (t & _ & Ht & Hc & Hin).
    { eapply sublist_subseteq; [exact Hsub | exact Hd]. }
    split; [done|]. split; [by rewrite Ht | done].
  - intros d d' c c' Hd Hd' Ht Hc Hc'.
    destruct (Hvals d) as (t & Hseen & Htd & _ & _).
    { eapply sublist_subseteq; [exact Hsub | exact Hd]. }
    destruct Hinv as [_ Hmax]. rewrite Htd in Ht.
    destruct (Hmax d' t c' Hd' Ht Hc') as (d2 & c2 & Hd2 & Hc2 & Hle).
    rewrite Hseen in Hd2. injection Hd2 as <-. rewrite Hc in Hc2.
    by injection Hc2 as <-.
Qed.

End DedupResult.

Section DedupResultExamples.
Import dbm mongo Reference.
#[local] Existing Instance Reference.runtime.

Lemma less_asym (a b : bsonM) : less a b = true -> less b a = false.
Proof.
  unfold less. destruct (crawledat a) as [ca|], (crawledat b) as [cb|]; try done.
  rewrite !Z.gtb_ltb. intros Hlt%Z.ltb_lt. apply Z.ltb_ge. lia.
Qed.

Lemma insertBy_sorted (x : bsonM) (l : list bsonM) :
  Sorted (fun a b => less b a = false) l ->
  Sorted (fun a b => less b a = false) (insertBy less x l).
Proof.
  induction 1 as [|y l Hs IH Hhd]; simpl; [by repeat constructor|].
  destruct (less y x) eqn:Hyx.
  - constructor; [done|].
    destruct Hhd as [|z l Hyz]; simpl.
    + constructor. by apply less_asym.
    + destruct (less z x); constructor; [done | by apply less_asym].
  - constructor; [by constructor | by constructor].
Qed.

Lemma insertionSort_sorted (l : list bsonM) :
  Sorted (fun a b => less b a = false) (insertionSort less l).
Proof.
  induction l as [|x l IH]; simpl; [constructor | by apply insertBy_sorted].
Qed.

(** The reference runtime meets what [deduplicateAndSort_properties] asks of
    the iteration order and of the sort. *)
Lemma deduplicateAndSort_reference docs :
  exists res,
    deduplicateAndSort docs 50 = Some res /\
    Z.of_nat (length res) <= 50 /\
    NoDup (title <$> res) /\
    Sorted newerFirst res.
Proof.
  destruct (deduplicateAndSort_properties docs 50) as (res & ? & ? & ? & _ & ? & _).
  - intros m. reflexivity.
  - intros less l. apply insertionSort_perm.
  - intros l _. apply insertionSort_sorted.
  - lia.
  - exists res. done.
Qed.

End DedupResultExamples.

(** ** Interleaved submissions *)

Section Interleaving.
Import dbm until handle.
Context `{GoRuntime}.
Implicit Types (q : Submission) (w : World) (pt : pc).

(** The commands of one request, issued in a row at one instant, are the
    handler. *)
Lemma commands_SubmitFuzzyQuery q w :
  commands 7 (at_time q) q AtStart w =
    (Finished (SubmitFuzzyQuery q w).2, (SubmitFuzzyQuery q w).1).
Proof.
  unfold SubmitFuzzyQuery. simpl.
  destruct (String.eqb (keyword q) ""); [done|].
  destruct (GetDataByKey _ _ _ _) as [[data status] [e|]]; [done|].
  destruct (is_nil data); simpl negb; cbv iota; [|done].
  cbn [commands command].
  unfold acquireLock. cbn [served lock_fault at_time lockVal].
  destruct (lock_fault q); [reflexivity|].
  destruct (SetNX _ _ _ _ _) as [ok s1].
  destruct (ok && negb (String.eqb status "loading")).
  - cbn [commands command]. unfold workItemBody, priorityOf. cbn [kv mq].
    destruct (PublishPriorityMQ _ _ _ _ _); reflexivity.
  - reflexivity.
Qed.


End Interleaving.

Section InterleavingInvariant.
Import dbm until handle.
Context `{GoRuntime}.
Implicit Types (q : Submission) (w : World) (pt : pc).

Lemma pending_app ths1 ths2 :
  pending (ths1 ++ ths2) = (pending ths1 + pending ths2)%nat.
Proof. unfold pending. by rewrite filter_app, length_app. Qed.

Lemma pending_cons th ths :
  pending (th :: ths) = ((if aboutToPublish th then 1 else 0) + pending ths)%nat.
Proof.
  unfold pending. rewrite filter_cons.
  destruct (aboutToPublish th); [by rewrite decide_True | by rewrite decide_False].
Qed.

(** Replacing the control point of request [i]. *)
Lemma pending_insert ths (i : nat) th th' :
  ths !! i = Some th ->
  (pending (<[i := th']> ths) + (if aboutToPublish th then 1 else 0) =
   pending ths + (if aboutToPublish th' then 1 else 0))%nat.
Proof.
  intros Hi. pose proof (lookup_lt_Some _ _ _ Hi) as Hlt.
  rewrite insert_take_drop by done.
  rewrite <- (take_drop_middle ths i th Hi) at 3.
  rewrite !pending_app, !pending_cons. lia.
Qed.

Lemma heldUntil_ext t1 (s s' : store) k :
  s' !! k = s !! k -> heldUntil t1 s k -> heldUntil t1 s' k.
Proof. intros Hk (e & He & Hexp). exists e. by rewrite Hk. Qed.

(** A command that does not raise the count and keeps a held lock, or one
    that takes a free lock and raises the count by one, keeps the invariant. *)
Lemma dedupInv_update k t0 base sys (i : nat) q pt pt' w' :
  threads sys !! i = Some (q, pt) ->
  dedupInv k t0 base sys ->
  let lk := GetFuzzyLockKey k in
  let wt := fun p => if aboutToPublish (q, p) then 1%nat else 0%nat in
  ((wt pt' + enqueued w' <= wt pt + enqueued (world sys))%nat /\
   (heldUntil (t0 + 5 * Second) (kv (world sys)) lk ->
    heldUntil (t0 + 5 * Second) (kv w') lk)) \/
  ((wt pt' + enqueued w' = wt pt + enqueued (world sys) + 1)%nat /\
   ~ heldUntil (t0 + 5 * Second) (kv (world sys)) lk /\
   heldUntil (t0 + 5 * Second) (kv w') lk) ->
  dedupInv k t0 base {| threads := <[i := (q, pt')]> (threads sys); world := w' |}.
Proof.
  intros Hi (Hkw & Hle & Hheld) lk wt Hcase.
  pose proof (pending_insert (threads sys) i (q, pt) (q, pt') Hi) as Hp.
  fold (wt pt) in Hp. fold (wt pt') in Hp.
  split; [|simpl; destruct Hcase as [[Hw Hh]|(Hw & Hfree & Hh)]].
  - simpl. apply Forall_insert; [done|]. simpl.
    by apply (Forall_lookup_1 _ _ _ _ Hkw Hi).
  - split; [lia|]. intros Heq. apply Hh, Hheld. lia.
  - split; [|done].
    destruct (decide (pending (threads sys) + enqueued (world sys) = base + 1)%nat)
      as [Heq|Hne]; [by destruct Hfree; apply Hheld|]. lia.
Qed.

Lemma sysStep_inv k t0 base m sys :
  inWindow t0 m -> dedupInv k t0 base sys -> dedupInv k t0 base (sysStep m sys).
Proof.
  intros Hwin Hinv. destruct m as [i now|search now msg]; simpl in *.
  2:{ destruct Hinv as (Hkw & Hle & Hheld). split; [done|]. split; [done|].
      simpl. intros Heq. eapply heldUntil_ext; [|by apply Hheld].
      apply fuzzyQueryWorker_lock. }
  destruct (threads sys !! i) as [[q pt]|] eqn:Hi; [|done].
  assert (Hk : keyword q = k).
  { destruct Hinv as (Hkw & _). by apply (Forall_lookup_1 _ _ _ _ Hkw Hi). }
  destruct (command now q pt (world sys)) as [pt' w'] eqn:Hc.
  apply (dedupInv_update k t0 base sys i q pt pt' w' Hi Hinv).
  unfold command in Hc. rewrite Hk in Hc.
  destruct pt as [|st| | | | | |r]; simpl.
  - (* the cache lookup *)
    left. destruct (String.eqb k ""); [by injection Hc as <- <-|].
    destruct (GetDataByKey _ _ _ _) as [[data status] [e|]]; [by injection Hc as <- <-|].
    destruct (negb (is_nil data)); by injection Hc as <- <-.
  - (* the SETNX *)
    unfold acquireLock, SetNX in Hc. cbn [served lock_fault at_time lockVal] in Hc.
    destruct (lock_fault q); [left; by injection Hc as <- <-|].
    destruct (live now (kv (world sys)) (GetFuzzyLockKey k)) eqn:Hl.
    + left. injection Hc as <- <-. simpl. split; [by unfold enqueued | done].
    + assert (Hfree : ~ heldUntil (t0 + 5 * Second) (kv (world sys)) (GetFuzzyLockKey k)).
      { intros Hh. destruct (heldUntil_live _ now _ _ Hh) as [e He]; [lia|]. congruence. }
      simpl in Hc.
      destruct (negb (String.eqb st "loading")); injection Hc as <- <-;
        unfold enqueued; simpl.
      * right. split; [lia|]. split; [done|].
        eexists. split; [apply lookup_insert_eq|]. simpl. intros t [= <-]. lia.
      * left. split; [lia|]. intros Hh. by destruct Hfree.
  - (* HSET loading *)
    left. injection Hc as <- <-. simpl. split; [done|].
    apply heldUntil_ext. apply HSet_lookup_ne, cacheKey_ne_lockKey.
  - (* EXPIRE of the cache key *)
    left. injection Hc as <- <-. simpl. split; [done|].
    apply heldUntil_ext. apply Expire_lookup_ne, cacheKey_ne_lockKey.
  - (* the publish *)
    left. destruct (PublishPriorityMQ _ _ _ _ _) as [e|mq'] eqn:Hp;
      injection Hc as <- <-; simpl; [split; [lia | done]|].
    split; [|done]. apply queue_publish in Hp.
    unfold enqueued. simpl. rewrite Hp, length_app. simpl. lia.
  - (* HSET of the request handle *)
    left. injection Hc as <- <-. simpl. split; [done|].
    apply heldUntil_ext. apply HSet_lookup_ne, reqKey_ne_lockKey.
  - (* EXPIRE of the request handle *)
    left. injection Hc as <- <-. simpl. split; [done|].
    apply heldUntil_ext. apply Expire_lookup_ne, reqKey_ne_lockKey.
  - left. by injection Hc as <- <-.
Qed.

Lemma sysRun_inv k t0 base sched sys :
  Forall (inWindow t0) sched ->
  dedupInv k t0 base sys -> dedupInv k t0 base (sysRun sched sys).
Proof.
  revert sys. induction sched as [|m sched IH]; intros sys Hwin Hinv; [done|].
  apply Forall_cons in Hwin as [Hm Hwin]. simpl.
  apply IH; [done|]. by apply sysStep_inv.
Qed.

Lemma pending_fresh ths :
  Forall (fun th => th.2 = AtStart) ths -> pending ths = 0%nat.
Proof.
  induction 1 as [|[q pt] ths Hpt _ IH]; [done|].
  rewrite pending_cons, IH. simpl in Hpt. by subst pt.
Qed.

(** Requests for one keyword whose commands interleave in any order within
    one lock expiry enqueue at most one work item. *)
Lemma interleaved_enqueue_at_most_once k t0 sched sys :
  Forall (fun th => keyword th.1 = k /\ th.2 = AtStart) (threads sys) ->
  Forall (inWindow t0) sched ->
  (enqueued (world (sysRun sched sys)) <= enqueued (world sys) + 1)%nat.
Proof.
  intros Hths Hwin.
  assert (Hinv : dedupInv k t0 (enqueued (world sys)) sys).
  { split; [by eapply Forall_impl; [exact Hths | intros ? []]|].
    rewrite pending_fresh by (by eapply Forall_impl; [exact Hths | intros ? []]).
    simpl. split; [lia|]. lia. }
  destruct (sysRun_inv k t0 _ sched sys Hwin Hinv) as (_ & Hle & _). lia.
Qed.

End InterleavingInvariant.

Section DedupClaim.
Import dbm until handle.
Context `{GoRuntime}.

(** C1. Requests for one keyword [k], each the sequence of Redis and broker
    commands of [SubmitFuzzyQuery], interleaved command by command in any
    order with worker deliveries, all commands falling within one lock expiry
    (5 s from [t0]): at most one work item reaches the fuzzy-query queue.
    The commands of one request issued in a row are the handler itself, and
    for the handler: runs of whole submissions within the window enqueue at
    most one item; a submission that enqueues adds exactly one item, and only
    when its SETNX on the lock key succeeded and the status it read was not
    [loading]; it enqueues nothing while the lock is held, and nothing while
    the cache entry is [loading]. *)
Theorem SubmitFuzzyQuery_enqueues_at_most_once
    (k : string) (t0 : Z) (sched : list move) (sys : System) :
  Forall (fun th => keyword th.1 = k /\ th.2 = AtStart) (threads sys) ->
  Forall (inWindow t0) sched ->
  (enqueued (world (sysRun sched sys)) <= enqueued (world sys) + 1)%nat /\
  (forall q w,
     commands 7 (at_time q) q AtStart w =
       (Finished (SubmitFuzzyQuery q w).2, (SubmitFuzzyQuery q w).1)) /\
  (forall ops w,
     (forall q, Submit q ∈ ops ->
                keyword q = k /\ t0 <= at_time q < t0 + 5 * Second) ->
     (enqueued (run ops w) <= enqueued w + 1)%nat) /\
  (forall q w,
     mq (SubmitFuzzyQuery q w).1 <> mq w ->
     enqueued (SubmitFuzzyQuery q w).1 = S (enqueued w) /\
     (exists s1, acquireLock q (kv w) (GetFuzzyLockKey (keyword q)) = inr (true, s1)) /\
     (cacheRead q w).1.2 <> "loading") /\
  (forall q w,
     is_Some (live (at_time q) (kv w) (GetFuzzyLockKey (keyword q))) ->
     mq (SubmitFuzzyQuery q w).1 = mq w) /\
  (forall q w,
     entryStatus (at_time q) (kv w) (GetFuzzyCacheKey (keyword q)) = Some "loading" ->
     mq (SubmitFuzzyQuery q w).1 = mq w).
Proof.
  intros Hths Hwin. repeat apply conj.
  - by apply (interleaved_enqueue_at_most_once k t0).
  - apply commands_SubmitFuzzyQuery.
  - intros ops w. apply run_enqueue_at_most_once.
  - apply SubmitFuzzyQuery_enqueue_needs_lock.
  - intros q w Hl. by apply SubmitFuzzyQuery_lock_held.
  - intros q w. apply SubmitFuzzyQuery_loading.
Qed.

End DedupClaim.

Section DedupExamples.
Import dbm until handle Reference.
#[local] Existing Instance Reference.runtime.

(** Two requests for one keyword: both read the cache before either takes
    the lock, then each runs on; the second SETNX fails. *)
Lemma SubmitFuzzyQuery_enqueues_at_most_once_witness :
  (enqueued (world (sysRun racingSchedule racingRequests))
   <= enqueued (world racingRequests) + 1)%nat.
Proof.
  apply (SubmitFuzzyQuery_enqueues_at_most_once "weather" 0
           racingSchedule racingRequests).
  - repeat constructor.
  - repeat constructor; simpl; unfold Second, Nanosecond; lia.
Defined.

Example racing_requests_enqueue_one :
  queue (mq (world (sysRun racingSchedule racingRequests))) FuzzyQueueName =
    [workItem "weather"] /\
  Forall (fun th => exists body, th.2 = Finished (JSON StatusOK body) /\ Code body = 1)
         (threads (sysRun racingSchedule racingRequests)).
Proof.
  split; [reflexivity|].
  repeat constructor; eexists; split; reflexivity.
Qed.

End DedupExamples.

(** * Further properties of the code *)

(** ** Probing and refreshing the replica set *)

Section Probing.
Import dbm replicas.
Context `{GoRuntime}.

Lemma probeSlaves_next net opts addrs next :
  (probeSlaves net opts addrs next).1.2 = (next + length addrs)%nat.
Proof.
  revert next. induction addrs as [|a rest IH]; intros next; simpl; [lia|].
  specialize (IH (S next)).
  destruct (probeSlaves net opts rest (S next)) as [[cs n'] evs].
  simpl in IH. destruct (ping_ok net (translateAddr a)); simpl; lia.
Qed.

Lemma probeSlaves_clients net opts addrs next c :
  c ∈ (probeSlaves net opts addrs next).1.1 ->
  ping_ok net (Addr c) = true /\
  (next <= handle c < next + length addrs)%nat /\
  EvNewClient c ∈ (probeSlaves net opts addrs next).2.
Proof.
  revert next. induction addrs as [|a rest IH]; intros next; simpl;
    [by intros ?%elem_of_nil|].
  specialize (IH (S next)).
  destruct (probeSlaves net opts rest (S next)) as [[cs n'] evs].
  simpl in IH.
  assert (Htail : c ∈ cs ->
    ping_ok net (Addr c) = true /\
    (next <= handle c < next + S (length rest))%nat /\ EvNewClient c ∈ evs).
  { intros Hc. destruct (IH Hc) as (? & ? & ?). split; [done|]. split; [lia|done]. }
  destruct (ping_ok net (translateAddr a)) eqn:Hp; simpl.
  - intros [->|Hc]%elem_of_cons.
    + simpl. split; [done|]. split; [lia|]. by left.
    + destruct (Htail Hc) as (? & ? & ?). repeat split; try done; try lia.
      right. by right.
  - intros Hc. destruct (Htail Hc) as (? & ? & ?). repeat split; try done; try lia.
    do 3 right. done.
Qed.

Lemma probeSlaves_closed net opts addrs next c :
  EvClose c ∈ (probeSlaves net opts addrs next).2 ->
  ping_ok net (Addr c) = false /\
  (next <= handle c < next + length addrs)%nat.
Proof.
  revert next. induction addrs as [|a rest IH]; intros next; simpl;
    [by intros ?%elem_of_nil|].
  specialize (IH (S next)).
  destruct (probeSlaves net opts rest (S next)) as [[cs n'] evs].
  simpl in IH.
  assert (Htail : EvClose c ∈ evs ->
    ping_ok net (Addr c) = false /\ (next <= handle c < next + S (length rest))%nat).
  { intros Hc. destruct (IH Hc) as (? & ?). split; [done|lia]. }
  destruct (ping_ok net (translateAddr a)) eqn:Hp; simpl; rewrite !elem_of_cons.
  - intros [?|[?|Hc]]; [done|done|by apply Htail].
  - intros [?|[?|[[= ->]|Hc]]]; [done|done| |by apply Htail].
    simpl. split; [done|lia].
Qed.

Lemma probeSlaves_addrs net opts addrs next :
  Addr <$> (probeSlaves net opts addrs next).1.1 =
  filter (fun a => ping_ok net a = true) (translateAddr <$> addrs).
Proof.
  revert next. induction addrs as [|a rest IH]; intros next; simpl; [done|].
  specialize (IH (S next)).
  destruct (probeSlaves net opts rest (S next)) as [[cs n'] evs].
  simpl in IH. rewrite filter_cons.
  destruct (ping_ok net (translateAddr a)) eqn:Hp.
  - rewrite decide_True by done. cbn [fst snd fmap list_fmap Addr]. by f_equal.
  - rewrite decide_False by done. done.
Qed.

Lemma probeSlaves_handles_sorted net opts addrs next :
  StronglySorted lt (handle <$> (probeSlaves net opts addrs next).1.1).
Proof.
  revert next. induction addrs as [|a rest IH]; intros next; simpl; [constructor|].
  pose proof (probeSlaves_clients net opts rest (S next)) as Hcl.
  specialize (IH (S next)).
  destruct (probeSlaves net opts rest (S next)) as [[cs n'] evs].
  simpl in *. destruct (ping_ok net (translateAddr a)); simpl; [|done].
  constructor; [done|]. apply Forall_forall. intros h Hh.
  apply list_elem_of_fmap in Hh as (c & -> & Hc).
  destruct (Hcl c Hc) as (_ & ? & _). lia.
Qed.

Lemma probeSlaves_opened net opts addrs next c :
  EvNewClient c ∈ (probeSlaves net opts addrs next).2 ->
  (c ∈ (probeSlaves net opts addrs next).1.1 /\ ping_ok net (Addr c) = true) \/
  (EvClose c ∈ (probeSlaves net opts addrs next).2 /\ ping_ok net (Addr c) = false).
Proof.
  revert next. induction addrs as [|a rest IH]; intros next; simpl;
    [by intros ?%elem_of_nil|].
  specialize (IH (S next)).
  destruct (probeSlaves net opts rest (S next)) as [[cs n'] evs].
  simpl in IH.
  destruct (ping_ok net (translateAddr a)) eqn:Hp; simpl; rewrite !elem_of_cons.
  - intros [[= ->]|[?|Hc]]; [|done|].
    + left. split; [by left|done].
    + destruct (IH Hc) as [[? ?]|[? ?]]; [left|right]; (split; [|done]).
      * by right.
      * right. by right.
  - intros [[= ->]|[?|[?|Hc]]]; [|done|done|].
    + right. split; [|done]. right. right. by left.
    + destruct (IH Hc) as [[? ?]|[? ?]]; [left|right]; (split; [|done]); [done|].
      do 3 right. done.
Qed.

Lemma probeSlaves_opened_addrs net opts addrs next :
  Addr <$> opened (probeSlaves net opts addrs next).2 = translateAddr <$> addrs.
Proof.
  revert next. induction addrs as [|a rest IH]; intros next; simpl; [done|].
  specialize (IH (S next)).
  destruct (probeSlaves net opts rest (S next)) as [[cs n'] evs].
  simpl in IH.
  destruct (ping_ok net (translateAddr a)); cbn [snd];
    cbn [opened omap list_omap]; rewrite fmap_cons; f_equal; exact IH.
Qed.

(** X1. The probing loop accounts for every candidate: it opens one
    connection per listed address, to the translated address and numbered
    consecutively; the connections it returns are those to the translated
    addresses that answered the PING, in the order listed and with distinct
    identities; every connection it opened is either returned and not
    closed, or closed and not returned, according to the PING; and it closes
    no other connection. *)
Theorem probeSlaves_keeps_reachable_closes_rest net opts addrs next :
  let cs := (probeSlaves net opts addrs next).1.1 in
  let evs := (probeSlaves net opts addrs next).2 in
  (probeSlaves net opts addrs next).1.2 = (next + length addrs)%nat /\
  Addr <$> opened evs = translateAddr <$> addrs /\
  (forall c, EvNewClient c ∈ evs ->
     (ping_ok net (Addr c) = true /\ c ∈ cs /\ (EvClose c ∉ evs)) \/
     (ping_ok net (Addr c) = false /\ EvClose c ∈ evs /\ (c ∉ cs))) /\
  Addr <$> cs = filter (fun a => ping_ok net a = true) (translateAddr <$> addrs) /\
  NoDup (handle <$> cs) /\
  (forall c, c ∈ cs -> EvNewClient c ∈ evs /\ (EvClose c ∉ evs)) /\
  (forall c, EvClose c ∈ evs ->
     (c ∉ cs) /\ ping_ok net (Addr c) = false /\
     (next <= handle c < next + length addrs)%nat) /\
  (length cs +
   length (filter (fun a => ping_ok net a = false) (translateAddr <$> addrs))
   = length addrs)%nat.
Proof.
  intros cs evs. subst cs evs. repeat apply conj.
  - apply probeSlaves_next.
  - apply probeSlaves_opened_addrs.
  - intros c Hnew.
    destruct (probeSlaves_opened _ _ _ _ _ Hnew) as [[Hc Hp]|[Hcl Hp]]; [left|right].
    + split; [done|]. split; [done|]. intros Hcl.
      destruct (probeSlaves_closed _ _ _ _ _ Hcl) as (Hp' & _). congruence.
    + split; [done|]. split; [done|]. intros Hc.
      destruct (probeSlaves_clients _ _ _ _ _ Hc) as (Hp' & _). congruence.
  - apply probeSlaves_addrs.
  - pose proof (probeSlaves_handles_sorted net opts addrs next) as Hs.
    induction Hs as [|h hs Hs IH Hall]; constructor; [|done].
    intros Hin. pose proof (proj1 (Forall_forall _ _) Hall h Hin). lia.
  - intros c Hc. destruct (probeSlaves_clients _ _ _ _ _ Hc) as (Hp & _ & Hnew).
    split; [done|]. intros Hcl.
    destruct (probeSlaves_closed _ _ _ _ _ Hcl) as (Hp' & _). congruence.
  - intros c Hcl. destruct (probeSlaves_closed _ _ _ _ _ Hcl) as (Hp & Hh).
    split; [|done]. intros Hc.
    destruct (probeSlaves_clients _ _ _ _ _ Hc) as (Hp' & _). congruence.
  - rewrite <- (length_fmap Addr), probeSlaves_addrs.
    rewrite <- (length_fmap translateAddr addrs).
    generalize (translateAddr <$> addrs). intros l.
    induction l as [|a l IH]; [done|].
    rewrite !filter_cons. destruct (ping_ok net a).
    + rewrite decide_True, decide_False by done. simpl in *. lia.
    + rewrite decide_False, decide_True by done. simpl in *. lia.
Qed.

End Probing.

Section RefreshLoop.
Import dbm replicas.
Context `{GoRuntime}.

Lemma refreshSlaveClients_keeps net r next :
  (forall c, c ∈ slaveClients r -> (handle c < next)%nat) ->
  refreshKeeps r next (refreshSlaveClients net r next).
Proof.
  intros Hold. unfold refreshKeeps, refreshSlaveClients.
  destruct (getSlaveAddrs net (sentinelOpts r)) as [addrs [e|]] eqn:Hg.
  - apply slaveAddrs_err in Hg as ->. simpl. repeat apply conj; try done.
    + intros c Hc. rewrite !elem_of_cons, elem_of_nil in Hc. by destruct Hc as [|[|[|[|]]]].
    + intros c _ Hc. rewrite !elem_of_cons, elem_of_nil in Hc. by destruct Hc as [|[|[|[|]]]].
    + intros c Hc. by left.
  - pose proof (probeSlaves_next net (sentinelOpts r) addrs next) as Hn.
    pose proof (probeSlaves_clients net (sentinelOpts r) addrs next) as Hcl.
    pose proof (probeSlaves_closed net (sentinelOpts r) addrs next) as Hcd.
    destruct (probeSlaves net (sentinelOpts r) addrs next) as [[cs n'] evs].
    simpl in *. subst n'.
    assert (Hclose : forall c,
      EvClose c ∈ EvLock :: (evs ++ map EvClose (slaveClients r) ++
                             [EvAssignSlaves cs; EvUnlock])%list ->
      EvClose c ∈ evs \/ c ∈ slaveClients r).
    { intros c Hc. apply elem_of_cons in Hc as [?|Hc]; [done|].
      apply elem_of_app in Hc as [?|Hc]; [by left|].
      apply elem_of_app in Hc as [Hc|Hc].
      - right. apply list_elem_of_In, in_map_iff in Hc as (c' & [= ->] & Hc').
        by apply list_elem_of_In.
      - rewrite !elem_of_cons, elem_of_nil in Hc. by destruct Hc as [|[|]]. }
    repeat apply conj; try done; try lia.
    + intros c Hc. destruct (Hcl c Hc) as (_ & ? & _). lia.
    + intros c Hc. destruct (Hclose c Hc) as [Hc'|Hc'].
      * destruct (Hcd c Hc'). lia.
      * specialize (Hold c Hc'). lia.
    + intros c Hc Hev. destruct (Hcl c Hc) as (Hp & Hh & _).
      destruct (Hclose c Hev) as [Hc'|Hc'].
      * destruct (Hcd c Hc'). congruence.
      * specialize (Hold c Hc'). lia.
    + intros c Hc. right. destruct (Hcl c Hc) as (_ & ? & _). lia.
Qed.

Lemma refreshSlaveClientsLoop_keeps ticks r next :
  (forall c, c ∈ slaveClients r -> (handle c < next)%nat) ->
  refreshKeeps r next (refreshSlaveClientsLoop ticks r next).
Proof.
  revert r next. induction ticks as [|net rest IH]; intros r next Hold.
  - simpl. unfold refreshKeeps. simpl. repeat apply conj; try done.
    + intros c Hc. by apply elem_of_nil in Hc.
    + intros c _ Hc. by apply elem_of_nil in Hc.
    + intros c Hc. by left.
  - simpl.
    pose proof (refreshSlaveClients_keeps net r next Hold) as K1.
    destruct (refreshSlaveClients net r next) as [[r1 next1] evs1].
    destruct K1 as (Hn1 & Hm1 & Ho1 & Hh1 & Hc1 & Hs1 & Hf1). simpl in *.
    specialize (IH r1 next1 Hh1).
    destruct (refreshSlaveClientsLoop rest r1 next1) as [[r2 next2] evs2].
    destruct IH as (Hn2 & Hm2 & Ho2 & Hh2 & Hc2 & Hs2 & Hf2). simpl in *.
    unfold refreshKeeps. simpl. repeat apply conj; try congruence; try lia; try done.
    + intros c Hc. apply elem_of_app in Hc as [Hc|Hc].
      * specialize (Hc1 c Hc). lia.
      * by apply Hc2.
    + intros c Hc Hev. apply elem_of_app in Hev as [Hev|Hev].
      * destruct (Hf2 c Hc) as [Hc'|Hge].
        -- by apply (Hs1 c Hc').
        -- specialize (Hc1 c Hev). lia.
      * by apply (Hs2 c Hc).
    + intros c Hc. destruct (Hf2 c Hc) as [Hc'|Hge]; [|right; lia].
      destruct (Hf1 c Hc'); [by left | by right].
Qed.

(** X2. Over any number of refresh ticks, started with connection identities
    below the next one to hand out: the master connection and the sentinel
    options never change, and every replica connection in service at the end
    was never closed by the loop, whatever the ticks swapped or dropped. *)
Theorem refreshSlaveClientsLoop_serves_open_connections ticks r next :
  (forall c, c ∈ slaveClients r -> (handle c < next)%nat) ->
  let out := refreshSlaveClientsLoop ticks r next in
  masterClient out.1.1 = masterClient r /\
  sentinelOpts out.1.1 = sentinelOpts r /\
  (forall c, c ∈ slaveClients out.1.1 -> EvClose c ∉ out.2) /\
  (forall c, c ∈ slaveClients out.1.1 -> (handle c < out.1.2)%nat).
Proof.
  intros Hold out.
  destruct (refreshSlaveClientsLoop_keeps ticks r next Hold)
    as (_ & Hm & Ho & Hh & _ & Hs & _).
  done.
Qed.

Lemma wellLocked_neutral held mid rest :
  Forall (fun ev => (exists c, ev = EvNewClient c) \/ (exists c ok, ev = EvPing c ok) \/
                    (exists c, ev = EvClose c) \/ (exists l msg, ev = EvLog l msg)) mid ->
  wellLocked held (mid ++ rest) = wellLocked held rest.
Proof.
  induction 1 as [|ev mid Hev _ IH]; [done|]. simpl.
  destruct Hev as [[c ->]|[(c & ok & ->)|[[c ->]|(l & msg & ->)]]]; done.
Qed.

Lemma wellLocked_app evs1 evs2 :
  wellLocked false evs1 = true ->
  wellLocked false (evs1 ++ evs2) = wellLocked false evs2.
Proof.
  generalize false at 1 2 as held. intros held.
  revert held. induction evs1 as [|ev evs1 IH]; intros held; simpl.
  - by destruct held.
  - destruct ev; try apply IH; destruct held; simpl; try done; apply IH.
Qed.

Lemma refreshSlaveClients_wellLocked net r next :
  wellLocked false (refreshSlaveClients net r next).2 = true.
Proof.
  unfold refreshSlaveClients.
  destruct (getSlaveAddrs net (sentinelOpts r)) as [addrs [e|]] eqn:Hg.
  - apply slaveAddrs_err in Hg as ->. done.
  - pose proof (probeSlaves_events net (sentinelOpts r) addrs next) as Hev.
    destruct (probeSlaves net (sentinelOpts r) addrs next) as [[cs n'] evs].
    simpl in *. rewrite app_assoc.
    rewrite wellLocked_neutral; [done|].
    apply Forall_app. split.
    + apply Forall_forall. intros ev Hin.
      destruct (Hev ev Hin) as [?|[?|(c & -> & _)]]; eauto 6.
    + apply Forall_forall. intros ev Hin.
      apply list_elem_of_In, in_map_iff in Hin as (c & <- & _). eauto 6.
Qed.

(** X3. The refresh loop keeps the discipline of the manager's mutex on every
    path, the failed ticks included: it locks only when free, unlocks only
    what it holds, assigns the replica list only while holding the lock, and
    leaves the lock free after every tick. *)
Theorem refreshSlaveClientsLoop_well_locked ticks r next :
  wellLocked false (refreshSlaveClientsLoop ticks r next).2 = true.
Proof.
  revert r next. induction ticks as [|net rest IH]; intros r next; [done|].
  simpl. pose proof (refreshSlaveClients_wellLocked net r next) as Ht.
  destruct (refreshSlaveClients net r next) as [[r1 next1] evs1].
  specialize (IH r1 next1).
  destruct (refreshSlaveClientsLoop rest r1 next1) as [[r2 next2] evs2].
  simpl in *. by rewrite wellLocked_app.
Qed.

End RefreshLoop.

Section RefreshLoopExamples.
Import dbm replicas Reference.
#[local] Existing Instance Reference.runtime.

Lemma refreshSlaveClientsLoop_serves_open_connections_witness :
  let out := refreshSlaveClientsLoop [netUp; netNoSentinel; netUp]
                                     (manager [slave1; slave2] 0) 3 in
  masterClient out.1.1 = master0 /\
  (forall c, c ∈ slaveClients out.1.1 -> EvClose c ∉ out.2).
Proof.
  destruct (refreshSlaveClientsLoop_serves_open_connections
              [netUp; netNoSentinel; netUp] (manager [slave1; slave2] 0) 3)
    as (Hm & _ & Hs & _).
  - intros c Hc. simpl in Hc. rewrite !elem_of_cons, elem_of_nil in Hc.
    destruct Hc as [->|[->|[]]]; simpl; lia.
  - split; [exact Hm | exact Hs].
Defined.

End RefreshLoopExamples.

(** ** Sentinel discovery and start-up *)

Section Discovery.
Import dbm replicas.
Context `{GoRuntime}.

Lemma slaveAddrsOf_elem slaves a :
  a ∈ slaveAddrsOf slaves <->
  exists m, VMap m ∈ slaves /\
            safeString (m !! "ip") <> "" /\ safeString (m !! "port") <> "" /\
            a = JoinHostPort (safeString (m !! "ip")) (safeString (m !! "port")).
Proof.
  induction slaves as [|v slaves IH]; simpl.
  - split; [by intros ?%elem_of_nil | by intros (m & ?%elem_of_nil & _)].
  - assert (Hskip : (forall m, v <> VMap m) ->
      (a ∈ slaveAddrsOf slaves <->
       exists m, VMap m ∈ v :: slaves /\
            safeString (m !! "ip") <> "" /\ safeString (m !! "port") <> "" /\
            a = JoinHostPort (safeString (m !! "ip")) (safeString (m !! "port")))).
    { intros Hv. rewrite IH. split; intros (m & Hm & Hrest).
      - exists m. split; [by right | done].
      - exists m. split; [|done]. apply elem_of_cons in Hm as [Hm|Hm]; [|done].
        by destruct (Hv m). }
    destruct v as [| | | | | | |m0]; try (apply Hskip; intros m; discriminate).
    destruct (negb (String.eqb (safeString (m0 !! "ip")) "") &&
              negb (String.eqb (safeString (m0 !! "port")) "")) eqn:Hok.
    + apply andb_prop in Hok as
        [Hip%negb_true_iff%String.eqb_neq Hport%negb_true_iff%String.eqb_neq].
      rewrite elem_of_cons, IH. split.
      * intros [->|(m & Hm & Hrest)].
        -- exists m0. split; [by left | done].
        -- exists m. split; [by right | done].
      * intros (m & Hm & Hi & Hp & Ha). apply elem_of_cons in Hm as [[= ->]|Hm].
        -- by left.
        -- right. exists m. done.
    + rewrite IH. split; intros (m & Hm & Hi & Hp & Ha).
      * exists m. split; [by right | done].
      * exists m. split; [|done]. apply elem_of_cons in Hm as [[= ->]|Hm]; [|done].
        apply andb_false_iff in Hok as [Hok|Hok];
          apply negb_false_iff, String.eqb_eq in Hok; congruence.
Qed.

Lemma slaveAddrsOf_length slaves :
  (length (slaveAddrsOf slaves) <= length slaves)%nat.
Proof.
  induction slaves as [|v slaves IH]; simpl; [lia|].
  destruct v; simpl; try lia.
  destruct (_ && _); simpl; lia.
Qed.

Lemma slaveAddrsOf_nonempty slaves :
  slaveAddrsOf slaves <> [] <->
  exists m, VMap m ∈ slaves /\
            safeString (m !! "ip") <> "" /\ safeString (m !! "port") <> "".
Proof.
  split.
  - destruct (slaveAddrsOf slaves) as [|a rest] eqn:Hs; [done|]. intros _.
    assert (Ha : a ∈ slaveAddrsOf slaves) by (rewrite Hs; by left).
    apply slaveAddrsOf_elem in Ha as (m & Hm & Hi & Hp & _). eauto.
  - intros (m & Hm & Hi & Hp) Hnil.
    assert (Ha : JoinHostPort (safeString (m !! "ip")) (safeString (m !! "port"))
                 ∈ slaveAddrsOf slaves).
    { apply slaveAddrsOf_elem. exists m. done. }
    rewrite Hnil in Ha. by apply elem_of_nil in Ha.
Qed.

(** X4. [getSlaveAddrs] returns either an error with no address, or no error
    with at least one address. It succeeds exactly when a sentinel is
    configured, the sentinel answers with a list, and some entry of the list
    is a map with a non-empty ip and port; the addresses are then exactly the
    host:port of those entries, the others being skipped. In particular an
    entry whose ip and port are non-empty strings makes the call succeed
    and is among the addresses. *)
Theorem getSlaveAddrs_lists_well_formed_replicas net opts :
  let addrs := (getSlaveAddrs net opts).1 in
  let err := (getSlaveAddrs net opts).2 in
  (err <> None -> addrs = []) /\
  (err = None <->
   SentinelAddrs opts <> [] /\
   exists slaves m, sentinel_do net = inr (VList slaves) /\ VMap m ∈ slaves /\
     safeString (m !! "ip") <> "" /\ safeString (m !! "port") <> "") /\
  (err = None ->
   addrs <> [] /\
   exists slaves, sentinel_do net = inr (VList slaves) /\
     (length addrs <= length slaves)%nat /\
     forall a, a ∈ addrs <->
       exists m, VMap m ∈ slaves /\
         safeString (m !! "ip") <> "" /\ safeString (m !! "port") <> "" /\
         a = JoinHostPort (safeString (m !! "ip")) (safeString (m !! "port"))) /\
  (forall slaves m ip port,
     SentinelAddrs opts <> [] -> sentinel_do net = inr (VList slaves) ->
     VMap m ∈ slaves ->
     m !! "ip" = Some (VString ip) -> m !! "port" = Some (VString port) ->
     ip <> "" -> port <> "" ->
     err = None /\ JoinHostPort ip port ∈ addrs).
Proof.
  intros addrs err.
  assert (Hok : forall slaves, SentinelAddrs opts <> [] ->
            sentinel_do net = inr (VList slaves) -> slaveAddrsOf slaves <> [] ->
            getSlaveAddrs net opts = (slaveAddrsOf slaves, None)).
  { intros slaves Hsa Hdo Hne. unfold getSlaveAddrs.
    destruct (SentinelAddrs opts); [done|]. rewrite Hdo.
    by destruct (slaveAddrsOf slaves). }
  assert (Hraw : forall slaves m ip port,
     SentinelAddrs opts <> [] -> sentinel_do net = inr (VList slaves) ->
     VMap m ∈ slaves ->
     m !! "ip" = Some (VString ip) -> m !! "port" = Some (VString port) ->
     ip <> "" -> port <> "" ->
     err = None /\ JoinHostPort ip port ∈ addrs).
  { intros slaves m ip port Hsa Hdo Hm Hip Hport Hi Hp. subst addrs err.
    assert (Hin : JoinHostPort ip port ∈ slaveAddrsOf slaves).
    { apply slaveAddrsOf_elem. exists m. rewrite Hip, Hport. done. }
    rewrite (Hok slaves Hsa Hdo); [done|].
    intros Hnil. rewrite Hnil in Hin. by apply elem_of_nil in Hin. }
  split; [|split; [|split; [|exact Hraw]]]; subst addrs err.
  - unfold getSlaveAddrs.
    destruct (SentinelAddrs opts); [done|].
    destruct (sentinel_do net) as [e|[| | | | | |slaves|]]; try done.
    by destruct (slaveAddrsOf slaves).
  - split.
    + unfold getSlaveAddrs.
      destruct (SentinelAddrs opts) as [|sa sas]; [done|].
      destruct (sentinel_do net) as [e|[| | | | | |slaves|]]; try done.
      destruct (slaveAddrsOf slaves) as [|a0 rest] eqn:Hs; [done|]. intros _.
      split; [done|].
      destruct (proj1 (slaveAddrsOf_nonempty slaves)) as (m & Hm & Hi & Hp).
      { by rewrite Hs. }
      by exists slaves, m.
    + intros (Hsa & slaves & m & Hdo & Hm & Hi & Hp).
      rewrite (Hok slaves Hsa Hdo); [done|].
      apply slaveAddrsOf_nonempty. eauto.
  - unfold getSlaveAddrs.
    destruct (SentinelAddrs opts) as [|sa sas]; [done|].
    destruct (sentinel_do net) as [e|[| | | | | |slaves|]]; try done.
    destruct (slaveAddrsOf slaves) as [|a0 rest] eqn:Hs; [done|]. intros _.
    simpl. split; [done|]. exists slaves. split; [done|]. split.
    + pose proof (slaveAddrsOf_length slaves) as Hl. by rewrite Hs in Hl.
    + rewrite <- Hs. apply slaveAddrsOf_elem.
Qed.

(** X5. [NewRedisManager] returns a manager exactly when the master answers
    the PING and the sentinel lists a well-formed replica; a failure opens no
    replica connection. The manager holds the given master and the reachable
    replicas in the order listed, possibly none, in which case the warning is
    logged and reads go to the master. Whatever refresh ticks follow, no
    connection in service is ever one the loop closed and the master stays. *)
Theorem NewRedisManager_starts_with_reachable_replicas
    net master master_ping g opts maxB next :
  let out := NewRedisManager net master master_ping g opts maxB next in
  ((exists r, out.1.1 = inr r) <->
   master_ping = None /\ (getSlaveAddrs net opts).2 = None) /\
  (forall e, out.1.1 = inl e ->
     out.1.2 = next /\ forall c, EvNewClient c ∉ out.2) /\
  (forall r, out.1.1 = inr r ->
     masterClient r = master /\ maxBatches r = maxB /\ sentinelOpts r = opts /\
     Addr <$> slaveClients r =
       filter (fun a => ping_ok net a = true)
              (translateAddr <$> (getSlaveAddrs net opts).1) /\
     (forall c, c ∈ slaveClients r -> (next <= handle c < out.1.2)%nat) /\
     (slaveClients r = [] ->
        EvLog LWarn "no available slave nodes" ∈ out.2 /\
        (selectReadClient r).1.1 = Returned (master, None)) /\
     forall ticks,
       let later := refreshSlaveClientsLoop ticks r out.1.2 in
       masterClient later.1.1 = master /\
       forall c, c ∈ slaveClients later.1.1 -> EvClose c ∉ later.2).
Proof.
  intros out. subst out. unfold NewRedisManager.
  destruct master_ping as [e|].
  { simpl. split; [|split; [|done]].
    - split; [by intros [r ?] | by intros [? _]].
    - intros e' _. split; [done|]. intros c Hc.
      rewrite elem_of_cons, elem_of_nil in Hc. by destruct Hc. }
  destruct (getSlaveAddrs net opts) as [addrs [e|]] eqn:Hg.
  { simpl. split; [|split; [|done]].
    - split; [by intros [r ?] | by intros [_ ?]].
    - intros e' _. split; [done|]. intros c Hc.
      rewrite elem_of_cons, elem_of_nil in Hc. by destruct Hc. }
  pose proof (probeSlaves_next net opts addrs next) as Hn.
  pose proof (probeSlaves_clients net opts addrs next) as Hcl.
  pose proof (probeSlaves_addrs net opts addrs next) as Had.
  destruct (probeSlaves net opts addrs next) as [[cs n'] evs].
  simpl in *. subst n'. split; [|split; [done|]].
  { split; [done | eauto]. }
  intros r [= <-]. simpl.
  assert (Hfresh : forall c, c ∈ cs -> (handle c < next + length addrs)%nat).
  { intros c Hc. destruct (Hcl c Hc) as (_ & ? & _). lia. }
  split; [done|]. split; [done|]. split; [done|]. split; [done|].
  split; [|split].
  - intros c Hc. by destruct (Hcl c Hc) as (_ & ? & _).
  - intros ->. simpl. split.
    + right. apply elem_of_app. right. by left.
    + done.
  - intros ticks.
    destruct (refreshSlaveClientsLoop_keeps ticks
                {| masterClient := master; slaveClients := cs; maxBatches := maxB;
                   sentinelOpts := opts; rand := g |} (next + length addrs) Hfresh)
      as (_ & Hm & _ & _ & _ & Hs & _).
    split; [exact Hm | exact Hs].
Qed.

End Discovery.

(** ** Reading through the manager *)

Section Reads.
Import dbm until handle.
Context `{GoRuntime}.

(** X6. [GetSlaveClient] never returns an error, so the error branch of its
    callers is never taken: with [Intn] in its range it returns, with a nil
    error, the master when there is no replica and a replica in service
    otherwise. It takes and releases the read lock, and changes neither the
    master nor the replica list. *)
Theorem GetSlaveClient_never_fails (r : RedisManger) :
  (forall g n, (0 < n)%nat -> ((rand_Intn g n).1 < n)%nat) ->
  exists c r' mid,
    GetSlaveClient r = (Returned (c, None), r', [EvRLock] ++ mid ++ [EvRUnlock])%list /\
    (if decide (slaveClients r = []) then c = masterClient r else c ∈ slaveClients r) /\
    masterClient r' = masterClient r /\
    slaveClients r' = slaveClients r /\
    sentinelOpts r' = sentinelOpts r.
Proof.
  intros Hrange. unfold GetSlaveClient, selectReadClient.
  destruct (slaveClients r) as [|c0 cs] eqn:Hs; simpl.
  - exists (masterClient r), r, [EvLog LWarn "no slave clients available, use master client for read"].
    rewrite Hs. done.
  - specialize (Hrange (rand r) (S (length cs)) ltac:(lia)).
    destruct (rand_Intn (rand r) (S (length cs))) as [idx g]. simpl in Hrange.
    unfold selectReadClient_at. rewrite Hs.
    destruct (lookup_lt_is_Some_2 (c0 :: cs) idx) as [c Hc]; [simpl; lia|].
    rewrite Hc. exists c, (set_rand r g), []. simpl. rewrite Hs.
    repeat split; try done. apply list_elem_of_lookup. eauto.
Qed.

(** X7. What [GetDataByKey] returns, by the state of the key. A failed read
    gives the error with a nil payload and an empty status; a key that is
    missing or expired gives nil, an empty status and no error; a visible
    hash whose status is [ready] gives the decoding of its [data] field with
    an empty status, any other visible hash gives nil with its status; a
    visible plain string gives the WRONGTYPE error. Hence the status
    [ready] is never reported, a non-nil payload comes only from a visible
    [ready] entry, an error comes with a nil payload and an empty status,
    and any status reported is that of the visible entry. *)
Theorem GetDataByKey_reports_payload_or_status fault now (s : store) cacheKey :
  let out := GetDataByKey fault now s cacheKey in
  let data := out.1.1 in
  let status := out.1.2 in
  let err := out.2 in
  (forall e, fault = Some e -> out = (VNil, "", Some e)) /\
  (fault = None ->
   (s !! cacheKey = None -> out = (VNil, "", None)) /\
   (forall v ex, s !! cacheKey = Some (Entry v (Some ex)) -> ex <= now ->
      out = (VNil, "", None)) /\
   (forall h ex,
      s !! cacheKey = Some (Entry (RHash h) ex) ->
      (forall t, ex = Some t -> now < t) ->
      (h !! "status" = Some "ready" ->
         out = (default VNil (json_Unmarshal (default "" (h !! "data"))), "", None)) /\
      (h !! "status" <> Some "ready" ->
         out = (VNil, default "" (h !! "status"), None))) /\
   (forall v ex,
      s !! cacheKey = Some (Entry (RString v) ex) ->
      (forall t, ex = Some t -> now < t) ->
      out = (VNil, "", Some WRONGTYPE))) /\
  status <> "ready" /\
  (is_nil data = false ->
     fault = None /\ err = None /\ status = "" /\
     entryStatus now s cacheKey = Some "ready") /\
  (err <> None -> is_nil data = true /\ status = "") /\
  (status <> "" ->
     err = None /\ is_nil data = true /\ entryStatus now s cacheKey = Some status).
Proof.
  intros out data status err. subst data status err out.
  split; [|split].
  - intros e ->. done.
  - intros ->. unfold GetDataByKey, HGetAll.
    split; [|split; [|split]].
    + intros Hk. unfold live. by rewrite Hk.
    + intros v ex Hk Hex. by rewrite (live_expired now s cacheKey v ex Hk Hex).
    + intros h ex Hk Hvis. rewrite (live_visible now s cacheKey _ ex Hk Hvis).
      unfold field. split.
      * intros Hst. rewrite Hst. simpl.
        by rewrite (size_pos_lookup h "status" "ready" Hst).
      * intros Hst.
        destruct (String.eqb (default "" (h !! "status")) "ready") eqn:E;
          [|by rewrite andb_false_r].
        apply String.eqb_eq in E. destruct (h !! "status") as [st|] eqn:Hs.
        -- simpl in E. by subst st.
        -- done.
    + intros v ex Hk Hvis. by rewrite (live_visible now s cacheKey _ ex Hk Hvis).
  - unfold GetDataByKey.
    destruct fault as [e|]; [simpl; by repeat split|].
    unfold HGetAll, entryStatus.
    destruct (live now s cacheKey) as [[[v|h] ex]|]; [simpl; by repeat split| |].
    + destruct ((0 <? size h)%nat && String.eqb (field h "status") "ready") eqn:Hc; simpl.
      * apply andb_prop in Hc as [_ Hst%String.eqb_eq]. rewrite Hst.
        repeat split; try done.
      * repeat split; try done.
        intros Hst. rewrite Hst in Hc. simpl in Hc. rewrite andb_true_r in Hc.
        apply Nat.ltb_ge in Hc.
        assert (Hsome : is_Some (h !! "status")).
        { apply field_is_Some. by rewrite Hst. }
        pose proof (map_size_ne_0_lookup_2 h "status" Hsome). lia.
    + simpl. change (field ∅ "status") with "". by repeat split.
Qed.

End Reads.

Section ReadsExamples.
Import dbm until handle Reference.
#[local] Existing Instance Reference.runtime.

Lemma GetSlaveClient_never_fails_witness :
  exists c r' mid,
    GetSlaveClient (manager [slave1; slave2] 7) =
      (Returned (c, None), r', [EvRLock] ++ mid ++ [EvRUnlock])%list /\
    slaveClients r' = [slave1; slave2].
Proof.
  destruct (GetSlaveClient_never_fails (manager [slave1; slave2] 7)
              reference_Intn_range) as (c & r' & mid & Hg & _ & _ & Hs & _).
  exists c, r', mid. split; [exact Hg | exact Hs].
Defined.

End ReadsExamples.

(** ** The paths of a submission *)

Section SubmissionPaths.
Import dbm until handle flow.
Context `{GoRuntime}.
Implicit Types (q : Submission) (w : World) (s : store).

(** The handler once the lookup found no payload and the SETNX did not fail. *)
Lemma SubmitFuzzyQuery_past_lookup q w status :
  keyword q <> "" -> cacheRead q w = (VNil, status, None) -> lock_fault q = None ->
  SubmitFuzzyQuery q w =
    let '(ok, s1) := SetNX (at_time q) (kv w) (lockKeyOf q) (lockVal q) (5 * Second) in
    if ok && negb (String.eqb status "loading") then
      match PublishPriorityMQ (publish_fault q) (mq w) FuzzyQueueName
                              (workItemBody (keyword q)) (priorityOf q) with
      | inl e => ({| kv := markLoading q s1; mq := mq w |}, publishError q e)
      | inr mq' => ({| kv := writeHandle q (markLoading q s1); mq := mq' |}, pollingHint q)
      end
    else ({| kv := writeHandle q s1; mq := mq w |}, pollingHint q).
Proof.
  intros Hkw Hread Hlf. unfold SubmitFuzzyQuery.
  apply String.eqb_neq in Hkw. rewrite Hkw.
  unfold cacheRead in Hread. rewrite Hread. simpl is_nil. simpl negb. cbv iota.
  unfold acquireLock. rewrite Hlf. fold (lockKeyOf q).
  destruct (SetNX _ _ _ _ _) as [ok s1].
  destruct (ok && negb (String.eqb status "loading")); [|done].
  unfold workItemBody, priorityOf.
  destruct (PublishPriorityMQ _ _ _ _ _); done.
Qed.

(** The early exits. *)
Lemma SubmitFuzzyQuery_early q w :
  (keyword q = "" ->
   SubmitFuzzyQuery q w =
     (w, Error {| ErrCode := 400; ErrMessage := "参数错误：keyword不能为空" |})) /\
  (forall data status e, keyword q <> "" -> cacheRead q w = (data, status, Some e) ->
   SubmitFuzzyQuery q w =
     (w, Error {| ErrCode := 500; ErrMessage := "获取数据失败：" +:+ e |})) /\
  (forall data status, keyword q <> "" -> cacheRead q w = (data, status, None) ->
   is_nil data = false ->
   SubmitFuzzyQuery q w =
     (w, JSON StatusOK {| Code := 0; Message := "获取成功"; Data := data |})) /\
  (forall status e, keyword q <> "" -> cacheRead q w = (VNil, status, None) ->
   lock_fault q = Some e ->
   SubmitFuzzyQuery q w =
     (w, Error {| ErrCode := 500; ErrMessage := "获取锁失败：" +:+ e |})).
Proof.
  unfold SubmitFuzzyQuery, cacheRead. repeat split.
  - intros ->. done.
  - intros data status e Hkw%String.eqb_neq Hread. by rewrite Hkw, Hread.
  - intros data status Hkw%String.eqb_neq Hread Hnil. by rewrite Hkw, Hread, Hnil.
  - intros status e Hkw%String.eqb_neq Hread Hlf. rewrite Hkw, Hread. simpl.
    unfold acquireLock. by rewrite Hlf.
Qed.

Lemma cacheRead_cases q w :
  (exists e, cacheRead q w = (VNil, "", Some e)) \/
  (exists data, cacheRead q w = (data, "", None) /\ is_nil data = false) \/
  (exists status, cacheRead q w = (VNil, status, None)).
Proof.
  unfold cacheRead, GetDataByKey.
  destruct (read_fault q) as [e|]; [left; eauto|].
  destruct (HGetAll _ _ _) as [e|h]; [left; eauto|].
  destruct (_ && _); [|right; right; eauto].
  destruct (default VNil (json_Unmarshal (field h "data"))) as [] eqn:Hd;
    try (right; left; eexists; split; [done|done]).
  right. right. eauto.
Qed.

End SubmissionPaths.

Section SubmissionFrame.
Import dbm until handle flow.
Context `{GoRuntime}.
Implicit Types (q : Submission) (w : World) (s : store).

Lemma writeHandle_lookup_ne q s k :
  k <> handleKeyOf q -> writeHandle q s !! k = s !! k.
Proof.
  intros Hk. unfold writeHandle. by rewrite Expire_lookup_ne, HSet_lookup_ne.
Qed.

Lemma markLoading_lookup_ne q s k :
  k <> cacheKeyOf q -> markLoading q s !! k = s !! k.
Proof.
  intros Hk. unfold markLoading. by rewrite Expire_lookup_ne, HSet_lookup_ne.
Qed.

Lemma PublishPriorityMQ_frame fault mq0 name body prio mq' :
  PublishPriorityMQ fault mq0 name body prio = inr mq' ->
  channel mq' = channel mq0 /\
  queues mq' = <[name := (queue mq0 name ++ [{| Body := body; Priority := prio |}])%list]>
                 (queues mq0) /\
  forall other, other <> name -> queue mq' other = queue mq0 other.
Proof.
  unfold PublishPriorityMQ. destruct (channel mq0); simpl; [|done].
  destruct fault; [done|]. intros [= <-]. simpl. repeat split.
  intros other Hne. unfold queue. simpl. by rewrite lookup_insert_ne.
Qed.

(** What a submission leaves alone. *)
Lemma SubmitFuzzyQuery_frame q w :
  (forall k, k <> cacheKeyOf q -> k <> lockKeyOf q -> k <> handleKeyOf q ->
     kv (SubmitFuzzyQuery q w).1 !! k = kv w !! k) /\
  (forall name, name <> FuzzyQueueName ->
     queue (mq (SubmitFuzzyQuery q w).1) name = queue (mq w) name) /\
  channel (mq (SubmitFuzzyQuery q w).1) = channel (mq w) /\
  ((SubmitFuzzyQuery q w).1 = w \/ (SubmitFuzzyQuery q w).2 = pollingHint q \/
   exists e, (SubmitFuzzyQuery q w).2 = publishError q e).
Proof.
  destruct (SubmitFuzzyQuery_early q w) as (Hempty & Hrerr & Hhit & Hlerr).
  assert (Hunch : forall r, SubmitFuzzyQuery q w = (w, r) ->
    (forall k, k <> cacheKeyOf q -> k <> lockKeyOf q -> k <> handleKeyOf q ->
       kv (SubmitFuzzyQuery q w).1 !! k = kv w !! k) /\
    (forall name, name <> FuzzyQueueName ->
       queue (mq (SubmitFuzzyQuery q w).1) name = queue (mq w) name) /\
    channel (mq (SubmitFuzzyQuery q w).1) = channel (mq w) /\
    ((SubmitFuzzyQuery q w).1 = w \/ (SubmitFuzzyQuery q w).2 = pollingHint q \/
     exists e, (SubmitFuzzyQuery q w).2 = publishError q e)).
  { intros r ->. simpl. repeat split; try done. by left. }
  destruct (decide (keyword q = "")) as [Hkw|Hkw]; [by eapply Hunch, Hempty|].
  destruct (cacheRead_cases q w) as [[e He]|[(data & Hd & Hnil)|[status Hs]]].
  - eapply Hunch, Hrerr; done.
  - eapply Hunch, Hhit; done.
  - destruct (lock_fault q) as [e|] eqn:Hlf; [eapply Hunch, Hlerr; done|].
    rewrite (SubmitFuzzyQuery_past_lookup q w status Hkw Hs Hlf).
    assert (Hnx : forall k, k <> lockKeyOf q ->
              (SetNX (at_time q) (kv w) (lockKeyOf q) (lockVal q) (5 * Second)).2 !! k
              = kv w !! k).
    { intros k Hk. by apply SetNX_lookup_ne. }
    destruct (SetNX _ _ _ _ _) as [ok s1]. simpl in Hnx.
    destruct (ok && negb (String.eqb status "loading")).
    + destruct (PublishPriorityMQ _ _ _ _ _) as [e|mq'] eqn:Hp; simpl.
      * repeat split; try done.
        -- intros k Hc Hl Hh. rewrite markLoading_lookup_ne by done.
           by apply Hnx.
        -- right. right. eauto.
      * destruct (PublishPriorityMQ_frame _ _ _ _ _ _ Hp) as (Hch & _ & Hq).
        repeat split; try done.
        -- intros k Hc Hl Hh.
           rewrite writeHandle_lookup_ne, markLoading_lookup_ne by done.
           by apply Hnx.
        -- right. by left.
    + simpl. repeat split; try done.
      * intros k Hc Hl Hh. rewrite writeHandle_lookup_ne by done. by apply Hnx.
      * right. by left.
Qed.

(** X8. A submission touches at most three keys of the keyspace (the cache
    key, the lock key and its own request handle) and at most the
    fuzzy-query queue. It changes nothing at all unless it answers with the
    polling hint or with the publish error: an empty keyword, a failed cache
    read, a failed SETNX and a cache hit all leave the keyspace and the
    broker exactly as they were. *)
Theorem SubmitFuzzyQuery_touches_three_keys_one_queue q w :
  let out := SubmitFuzzyQuery q w in
  (forall k, k <> cacheKeyOf q -> k <> lockKeyOf q -> k <> handleKeyOf q ->
     kv out.1 !! k = kv w !! k) /\
  (forall name, name <> FuzzyQueueName -> queue (mq out.1) name = queue (mq w) name) /\
  channel (mq out.1) = channel (mq w) /\
  (out.1 = w \/ out.2 = pollingHint q \/ exists e, out.2 = publishError q e) /\
  (forall data status, keyword q <> "" -> cacheRead q w = (data, status, None) ->
     is_nil data = false ->
     out = (w, JSON StatusOK {| Code := 0; Message := "获取成功"; Data := data |})).
Proof.
  intros out. subst out.
  destruct (SubmitFuzzyQuery_frame q w) as (H1 & H2 & H3 & H4).
  split; [exact H1|]. split; [exact H2|]. split; [exact H3|]. split; [exact H4|].
  intros data status Hkw Hread Hnil.
  by apply (proj1 (proj2 (proj2 (SubmitFuzzyQuery_early q w))) data status).
Qed.

End SubmissionFrame.

(** ** The lock and the request handle *)

Section LockAndHandle.
Import dbm until handle flow.
Context `{GoRuntime}.
Implicit Types (q : Submission) (w : World) (s : store).

Lemma handleKey_ne_cacheKey q q' : handleKeyOf q <> cacheKeyOf q'.
Proof. apply reqKey_ne_cacheKey. Qed.

Lemma handleKey_ne_lockKey q q' : handleKeyOf q <> lockKeyOf q'.
Proof. apply reqKey_ne_lockKey. Qed.

Lemma cacheKeyOf_ne_lockKeyOf q q' : cacheKeyOf q <> lockKeyOf q'.
Proof. apply cacheKey_ne_lockKey. Qed.

Lemma handleKeyOf_inj q q' : handleKeyOf q = handleKeyOf q' -> reqID q = reqID q'.
Proof. unfold handleKeyOf. simpl. by intros [=]. Qed.

(** The lock key after a submission that found it free. *)
Lemma SubmitFuzzyQuery_takes_lock q w status :
  keyword q <> "" -> cacheRead q w = (VNil, status, None) -> lock_fault q = None ->
  live (at_time q) (kv w) (lockKeyOf q) = None ->
  kv (SubmitFuzzyQuery q w).1 !! lockKeyOf q = Some (lockEntry q).
Proof.
  intros Hkw Hread Hlf Hfree.
  rewrite (SubmitFuzzyQuery_past_lookup q w status Hkw Hread Hlf).
  unfold SetNX. rewrite Hfree.
  destruct (true && negb (String.eqb status "loading")).
  - destruct (PublishPriorityMQ _ _ _ _ _); simpl.
    + rewrite markLoading_lookup_ne by (apply not_eq_sym, cacheKeyOf_ne_lockKeyOf).
      apply lookup_insert_eq.
    + rewrite writeHandle_lookup_ne by (apply not_eq_sym, handleKey_ne_lockKey).
      rewrite markLoading_lookup_ne by (apply not_eq_sym, cacheKeyOf_ne_lockKeyOf).
      apply lookup_insert_eq.
  - simpl. rewrite writeHandle_lookup_ne by (apply not_eq_sym, handleKey_ne_lockKey).
    apply lookup_insert_eq.
Qed.

(** X9. The dedup lock lasts exactly its five seconds. After a submission
    that reached the SETNX and found the lock free, the lock key holds that
    submission's value; the SETNX of any submission of the same keyword
    fails at every instant before the expiry and succeeds from the expiry
    on, nothing having released or renewed the lock in between. *)
Theorem dedup_lock_lasts_five_seconds q w status q' :
  keyword q <> "" -> cacheRead q w = (VNil, status, None) -> lock_fault q = None ->
  live (at_time q) (kv w) (lockKeyOf q) = None ->
  keyword q' = keyword q -> lock_fault q' = None ->
  let s' := kv (SubmitFuzzyQuery q w).1 in
  s' !! lockKeyOf q = Some (lockEntry q) /\
  (at_time q' < at_time q + 5 * Second ->
   acquireLock q' s' (lockKeyOf q') = inr (false, s')) /\
  (at_time q + 5 * Second <= at_time q' ->
   acquireLock q' s' (lockKeyOf q') = inr (true, <[lockKeyOf q' := lockEntry q']> s')).
Proof.
  intros Hkw Hread Hlf Hfree Hsame Hlf' s'.
  pose proof (SubmitFuzzyQuery_takes_lock q w status Hkw Hread Hlf Hfree) as Hlk.
  fold s' in Hlk. split; [done|].
  assert (Hk : lockKeyOf q' = lockKeyOf q) by (unfold lockKeyOf; by rewrite Hsame).
  unfold acquireLock, SetNX, live. rewrite Hlf', Hk, Hlk. unfold alive. simpl.
  split; intros Ht.
  - by rewrite (proj2 (Z.ltb_lt _ _) Ht).
  - by rewrite (proj2 (Z.ltb_ge _ _) Ht).
Qed.

(** A poll whose handle is found. *)
Lemma GetFuzzyQueryResult_found (p : Poll) s h :
  poll_reqID p <> "" -> handle_fault p = None ->
  HGetAll (poll_time p) s (ResultCachePrefix +:+ poll_reqID p) = inr h ->
  size h <> 0%nat ->
  GetFuzzyQueryResult p s =
    match hgetall (cache_fault p) (poll_time p) s (field h "cache_key") with
    | inl _ => progressReply (poll_reqID p) 50
    | inr cacheData =>
        if (size cacheData =? 0)%nat then progressReply (poll_reqID p) 50
        else if String.eqb (field cacheData "status") "loading"
        then progressReply (poll_reqID p) 70
        else if String.eqb (field cacheData "status") "failed" then
          Error {| ErrCode := 500;
                   ErrMessage := "查询失败：" +:+ field cacheData "error_msg" |}
        else if String.eqb (field cacheData "status") "ready" then
          JSON StatusOK
            {| Code := 0; Message := "获取成功";
               Data := default VNil (json_Unmarshal (field cacheData "data")) |}
        else NoReply
    end.
Proof.
  intros Hid%String.eqb_neq Hf Hg Hsz%Nat.eqb_neq.
  unfold GetFuzzyQueryResult. rewrite Hid. unfold hgetall at 1. by rewrite Hf, Hg, Hsz.
Qed.

Lemma GetFuzzyQueryResult_found_ne_notFound (p : Poll) s h :
  poll_reqID p <> "" -> handle_fault p = None ->
  HGetAll (poll_time p) s (ResultCachePrefix +:+ poll_reqID p) = inr h ->
  size h <> 0%nat ->
  GetFuzzyQueryResult p s <> notFound.
Proof.
  intros Hid Hf Hg Hsz. rewrite (GetFuzzyQueryResult_found p s h Hid Hf Hg Hsz).
  destruct (hgetall _ _ _ _) as [e|cacheData]; [done|].
  repeat (case_match; try done).
Qed.

Lemma pendingFields_NoDup kw ck : NoDup (pendingFields kw ck).*1.
Proof.
  simpl. repeat constructor; rewrite ?elem_of_cons, ?elem_of_nil; intuition discriminate.
Qed.

(** The handle a submission wrote, as stored. *)
Lemma writeHandle_lookup q s :
  hashable (at_time q) s (handleKeyOf q) ->
  exists h0, writeHandle q s !! handleKeyOf q =
    Some (Entry (RHash (set_fields (pendingFields (keyword q) (cacheKeyOf q)) h0))
                (Some (at_time q + 5 * Minute))).
Proof.
  intros Hh. destruct (HSet_Expire_lookup (at_time q) s (handleKeyOf q)
    (pendingFields (keyword q) (cacheKeyOf q)) (5 * Minute) Hh) as (h0 & _ & Hk).
  eauto.
Qed.

(** A submission that answers with the polling hint wrote its handle last. *)
Lemma SubmitFuzzyQuery_hint_store q w :
  (SubmitFuzzyQuery q w).2 = pollingHint q ->
  exists s2, kv (SubmitFuzzyQuery q w).1 = writeHandle q s2 /\
             s2 !! handleKeyOf q = kv w !! handleKeyOf q.
Proof.
  destruct (SubmitFuzzyQuery_early q w) as (Hempty & Hrerr & Hhit & Hlerr).
  destruct (decide (keyword q = "")) as [Hkw|Hkw]; [by rewrite (Hempty Hkw)|].
  destruct (cacheRead_cases q w) as [[e He]|[(data & Hd & Hnil)|[status Hs]]].
  - by rewrite (Hrerr _ _ _ Hkw He).
  - by rewrite (Hhit _ _ Hkw Hd Hnil).
  - destruct (lock_fault q) as [e|] eqn:Hlf; [by rewrite (Hlerr _ _ Hkw Hs eq_refl)|].
    rewrite (SubmitFuzzyQuery_past_lookup q w status Hkw Hs Hlf).
    assert (Hnx : (SetNX (at_time q) (kv w) (lockKeyOf q) (lockVal q) (5 * Second)).2
                    !! handleKeyOf q = kv w !! handleKeyOf q).
    { apply SetNX_lookup_ne, not_eq_sym, handleKey_ne_lockKey. }
    destruct (SetNX _ _ _ _ _) as [ok s1]. simpl in Hnx.
    destruct (ok && negb (String.eqb status "loading")).
    + destruct (PublishPriorityMQ _ _ _ _ _); simpl; [done|].
      intros _. eexists. split; [done|].
      by rewrite markLoading_lookup_ne by apply handleKey_ne_cacheKey.
    + simpl. intros _. eauto.
Qed.

(** X10. A submission that answers with the polling hint leaves a request
    handle that is found for exactly five minutes: until then a read of the
    handle shows status [pending], the keyword and the cache key, and a poll
    with the request id is never answered 404; from then on the poll is
    answered 404. A later submission with another request id does not touch
    the handle. *)
Theorem SubmitFuzzyQuery_handle_lives_five_minutes q w :
  (SubmitFuzzyQuery q w).2 = pollingHint q ->
  reqID q <> "" ->
  hashable (at_time q) (kv w) (handleKeyOf q) ->
  let w' := (SubmitFuzzyQuery q w).1 in
  (forall t, at_time q <= t < at_time q + 5 * Minute ->
     (exists h, HGetAll t (kv w') (handleKeyOf q) = inr h /\
                field h "status" = "pending" /\
                field h "keyword" = keyword q /\
                field h "cache_key" = cacheKeyOf q) /\
     GetFuzzyQueryResult (pollOf q t) (kv w') <> notFound) /\
  (forall t, at_time q + 5 * Minute <= t ->
     GetFuzzyQueryResult (pollOf q t) (kv w') = notFound) /\
  (forall q2, reqID q2 <> reqID q ->
     kv (SubmitFuzzyQuery q2 w').1 !! handleKeyOf q = kv w' !! handleKeyOf q).
Proof.
  intros Hhint Hid Hh w'.
  destruct (SubmitFuzzyQuery_hint_store q w Hhint) as (s2 & Hkv & Hs2).
  assert (Hh2 : hashable (at_time q) s2 (handleKeyOf q)).
  { eapply hashable_ext; [|exact Hh]. done. }
  destruct (writeHandle_lookup q s2 Hh2) as (h0 & Hk).
  subst w'. rewrite Hkv.
  pose proof (pendingFields_NoDup (keyword q) (cacheKeyOf q)) as Hnd.
  split; [|split].
  - intros t Ht.
    assert (Hg : HGetAll t (writeHandle q s2) (handleKeyOf q) =
                 inr (set_fields (pendingFields (keyword q) (cacheKeyOf q)) h0)).
    { eapply HGetAll_lookup; [exact Hk|]. unfold alive. simpl. apply Z.ltb_lt. lia. }
    split.
    + eexists. split; [exact Hg|].
      split; [|split]; apply field_set_fields; try done.
      * by left.
      * right. by left.
      * right. right. by left.
    + apply (GetFuzzyQueryResult_found_ne_notFound (pollOf q t) _ _ Hid eq_refl Hg).
      eapply map_size_ne_0_lookup_2.
      erewrite (set_fields_lookup_in _ _ "status" "pending"); [done|done|by left].
  - intros t Ht. unfold GetFuzzyQueryResult, pollOf. simpl.
    apply String.eqb_neq in Hid. rewrite Hid.
    unfold hgetall, HGetAll, live. fold (handleKeyOf q). rewrite Hk.
    unfold alive. simpl. by rewrite (proj2 (Z.ltb_ge _ _) Ht).
  - intros q2 Hne.
    destruct (SubmitFuzzyQuery_frame q2 (SubmitFuzzyQuery q w).1) as (Hframe & _).
    rewrite <- Hkv. apply Hframe.
    + apply handleKey_ne_cacheKey.
    + apply handleKey_ne_lockKey.
    + intros Heq%handleKeyOf_inj. by destruct Hne.
Qed.

End LockAndHandle.

Section LockAndHandleExamples.
Import dbm until handle flow Reference.
#[local] Existing Instance Reference.runtime.

Lemma dedup_lock_lasts_five_seconds_witness :
  let q := submission "weather" 0 "r1" "l1" in
  let q' := submission "weather" (6 * Second) "r2" "l2" in
  kv (SubmitFuzzyQuery q world0).1 !! lockKeyOf q = Some (lockEntry q) /\
  acquireLock q' (kv (SubmitFuzzyQuery q world0).1) (lockKeyOf q') =
    inr (true, <[lockKeyOf q' := lockEntry q']> (kv (SubmitFuzzyQuery q world0).1)).
Proof.
  intros q q'.
  destruct (dedup_lock_lasts_five_seconds q world0 "" q')
    as (Hlk & _ & Hafter); try reflexivity; try discriminate.
  split; [exact Hlk|]. apply Hafter. by vm_compute.
Defined.

Lemma SubmitFuzzyQuery_handle_lives_five_minutes_witness :
  let q := submission "weather" 0 "r1" "l1" in
  GetFuzzyQueryResult (pollOf q (4 * Minute)) (kv (SubmitFuzzyQuery q world0).1)
    <> notFound /\
  GetFuzzyQueryResult (pollOf q (5 * Minute)) (kv (SubmitFuzzyQuery q world0).1)
    = notFound.
Proof.
  intros q.
  destruct (SubmitFuzzyQuery_handle_lives_five_minutes q world0)
    as (Hin & Hout & _).
  - reflexivity.
  - discriminate.
  - apply hashable_empty.
  - split.
    + apply Hin. by vm_compute.
    + apply Hout. by vm_compute.
Defined.

End LockAndHandleExamples.
(** ** From a first submission to the payload *)

Section RoundTrip.
Import dbm until handle flow.
Context `{GoRuntime}.
Implicit Types (q : Submission) (w : World) (s : store).

(** A submission that finds neither a cache entry nor a lock. *)
Lemma SubmitFuzzyQuery_first q w :
  keyword q <> "" ->
  read_fault q = None -> lock_fault q = None -> publish_fault q = None ->
  channel (mq w) = true ->
  live (at_time q) (kv w) (cacheKeyOf q) = None ->
  live (at_time q) (kv w) (lockKeyOf q) = None ->
  exists mq',
    SubmitFuzzyQuery q w = ({| kv := firstStore q w; mq := mq' |}, pollingHint q) /\
    queue mq' FuzzyQueueName = (queue (mq w) FuzzyQueueName ++ [workItemOf q])%list.
Proof.
  intros Hkw Hrf Hlf Hpf Hch Hcache Hlock.
  assert (Hread : cacheRead q w = (VNil, "", None)).
  { unfold cacheRead, GetDataByKey, HGetAll. rewrite Hrf.
    fold (cacheKeyOf q). by rewrite Hcache. }
  rewrite (SubmitFuzzyQuery_past_lookup q w "" Hkw Hread Hlf).
  unfold SetNX. rewrite Hlock. simpl.
  destruct (PublishPriorityMQ _ _ _ _ _) as [e|mq'] eqn:Hp.
  - unfold PublishPriorityMQ in Hp. by rewrite Hch, Hpf in Hp.
  - exists mq'. split; [done|]. by apply (queue_publish _ _ _ _ _ _ Hp).
Qed.

(** The cache entry a first submission leaves. *)
Lemma firstStore_cache q w :
  live (at_time q) (kv w) (cacheKeyOf q) = None ->
  firstStore q w !! cacheKeyOf q =
    Some (Entry (RHash (set_fields (loadingFields (keyword q) (at_time q)) ∅))
                (Some (at_time q + FuzzyCacheExpire))).
Proof.
  intros Hcache. unfold firstStore.
  rewrite writeHandle_lookup_ne by (apply not_eq_sym, handleKey_ne_cacheKey).
  assert (Hl : live (at_time q) (<[lockKeyOf q := lockEntry q]> (kv w)) (cacheKeyOf q)
               = None).
  { rewrite live_insert_ne; [done|]. apply not_eq_sym, cacheKeyOf_ne_lockKeyOf. }
  unfold markLoading.
  destruct (HSet_Expire_lookup (at_time q) (<[lockKeyOf q := lockEntry q]> (kv w))
              (cacheKeyOf q) (loadingFields (keyword q) (at_time q)) FuzzyCacheExpire)
    as (h0 & Hg & Hk).
  { intros v ex. by rewrite Hl. }
  unfold HGetAll in Hg. rewrite Hl in Hg. by injection Hg as <-.
Qed.

(** The request handle a first submission leaves. *)
Lemma firstStore_handle q w :
  hashable (at_time q) (kv w) (handleKeyOf q) ->
  exists h0, firstStore q w !! handleKeyOf q =
    Some (Entry (RHash (set_fields (pendingFields (keyword q) (cacheKeyOf q)) h0))
                (Some (at_time q + 5 * Minute))).
Proof.
  intros Hh. apply writeHandle_lookup.
  eapply hashable_ext; [|exact Hh].
  rewrite markLoading_lookup_ne by apply handleKey_ne_cacheKey.
  rewrite lookup_insert_ne; [done|]. apply not_eq_sym, handleKey_ne_lockKey.
Qed.

(** A poll of a live handle whose cache entry is a live hash. *)
Lemma GetFuzzyQueryResult_through q t s h0 hc exh exc :
  reqID q <> "" ->
  s !! handleKeyOf q =
    Some (Entry (RHash (set_fields (pendingFields (keyword q) (cacheKeyOf q)) h0)) exh) ->
  alive t (Entry (RHash h0) exh) = true ->
  s !! cacheKeyOf q = Some (Entry (RHash hc) exc) ->
  alive t (Entry (RHash hc) exc) = true ->
  field hc "status" <> "" ->
  GetFuzzyQueryResult (pollOf q t) s =
    if String.eqb (field hc "status") "loading" then progressReply (reqID q) 70
    else if String.eqb (field hc "status") "failed" then
      Error {| ErrCode := 500; ErrMessage := "查询失败：" +:+ field hc "error_msg" |}
    else if String.eqb (field hc "status") "ready" then
      JSON StatusOK {| Code := 0; Message := "获取成功";
                       Data := default VNil (json_Unmarshal (field hc "data")) |}
    else NoReply.
Proof.
  intros Hid Hk Hal Hc Halc Hst.
  pose proof (pendingFields_NoDup (keyword q) (cacheKeyOf q)) as Hnd.
  assert (Hg : HGetAll t s (handleKeyOf q) =
               inr (set_fields (pendingFields (keyword q) (cacheKeyOf q)) h0)).
  { eapply HGetAll_lookup; [exact Hk|exact Hal]. }
  rewrite (GetFuzzyQueryResult_found (pollOf q t) s _ Hid eq_refl Hg).
  2:{ eapply map_size_ne_0_lookup_2.
      erewrite (set_fields_lookup_in _ _ "status" "pending"); [done|done|by left]. }
  rewrite (field_set_fields _ _ "cache_key" (cacheKeyOf q))
    by (done || (right; right; by left)).
  simpl. unfold hgetall.
  rewrite (HGetAll_lookup t s (cacheKeyOf q) hc exc Hc Halc).
  by rewrite (size_eqb_lookup _ "status" Hst).
Qed.


(** The worker writes under the cache key of its message's keyword only. *)
Lemma fuzzyQueryWorker_lookup_ne search now s msg k :
  (forall m, json_UnmarshalStrings (Body msg) = Some m ->
             k <> GetFuzzyCacheKey (field m "keyword")) ->
  (fuzzyQueryWorker search now s msg).1 !! k = s !! k.
Proof.
  intros Hk. unfold fuzzyQueryWorker.
  destruct (json_UnmarshalStrings (Body msg)) as [m|]; [|done].
  specialize (Hk m eq_refl).
  destruct (search _) as [[v err]|p]; [|done].
  simpl. by rewrite Expire_lookup_ne, HSet_lookup_ne.
Qed.

(** X12. Submit, work, poll. After a first submission of a keyword, once
    the worker has served the published work item at [t1] with a search that
    returned the list [P], a poll with the request id at any [t2] from [t1]
    on within the handle's five minutes is answered 200 with code 0 and the
    decoding of the encoding of [P]: with [P] itself where the JSON codec
    round-trips on it. The first hypothesis on the codec says that the work
    item decodes to a map whose keyword is the submitted one. *)
Theorem submit_work_poll_returns_payload q w search P err t1 t2 m :
  keyword q <> "" -> reqID q <> "" ->
  read_fault q = None -> lock_fault q = None -> publish_fault q = None ->
  channel (mq w) = true ->
  live (at_time q) (kv w) (cacheKeyOf q) = None ->
  live (at_time q) (kv w) (lockKeyOf q) = None ->
  hashable (at_time q) (kv w) (handleKeyOf q) ->
  json_UnmarshalStrings (Body (workItemOf q)) = Some m ->
  field m "keyword" = keyword q ->
  search (keyword q) = Returned (P, err) ->
  at_time q <= t1 -> t1 <= t2 -> t2 < at_time q + 5 * Minute ->
  let served := (fuzzyQueryWorker search t1 (kv (SubmitFuzzyQuery q w).1)
                                  (workItemOf q)).1 in
  GetFuzzyQueryResult (pollOf q t2) served =
    JSON StatusOK {| Code := 0; Message := "获取成功";
                     Data := default VNil (json_Unmarshal (json_Marshal P)) |} /\
  (json_Unmarshal (json_Marshal P) = Some P ->
   GetFuzzyQueryResult (pollOf q t2) served =
     JSON StatusOK {| Code := 0; Message := "获取成功"; Data := P |}).
Proof.
  intros Hkw Hid Hrf Hlf Hpf Hch Hcache Hlock Hh Hm Hf Hs Ht1 Ht2 Ht3 served.
  destruct (SubmitFuzzyQuery_first q w Hkw Hrf Hlf Hpf Hch Hcache Hlock)
    as (mq' & Hout & _).
  assert (Hpoll : GetFuzzyQueryResult (pollOf q t2) served =
    JSON StatusOK {| Code := 0; Message := "获取成功";
                     Data := default VNil (json_Unmarshal (json_Marshal P)) |}).
  { subst served. rewrite Hout. simpl.
    pose proof (firstStore_cache q w Hcache) as Hc.
    destruct (firstStore_handle q w Hh) as (h0 & Hk).
    assert (Hhc : hashable t1 (firstStore q w) (GetFuzzyCacheKey (field m "keyword"))).
    { rewrite Hf. fold (cacheKeyOf q). intros v ex. unfold live. rewrite Hc.
      by destruct (alive _ _). }
    rewrite <- Hf in Hs.
    destruct (fuzzyQueryWorker_entry search t1 (firstStore q w) (workItemOf q)
                m P err Hm Hs Hhc) as (hc & _ & Hw).
    rewrite Hf in Hw. fold (cacheKeyOf q) in Hw.
    pose proof (readyFields_NoDup (json_Marshal P) t1) as Hnd.
    assert (Hst : field (set_fields (readyFields (json_Marshal P) t1) hc) "status"
                  = "ready").
    { apply field_set_fields; [done|by left]. }
    erewrite (GetFuzzyQueryResult_through q t2 _ h0); [|exact Hid| | |exact Hw| |].
    - rewrite (field_set_fields _ _ "data" (json_Marshal P))
        by (done || (right; by left)).
      by rewrite Hst.
    - rewrite fuzzyQueryWorker_lookup_ne; [exact Hk|].
      intros m' Hm'. rewrite Hm in Hm'. injection Hm' as <-. rewrite Hf.
      apply handleKey_ne_cacheKey.
    - unfold alive. cbn [e_exp]. apply Z.ltb_lt. lia.
    - unfold alive. cbn [e_exp]. apply Z.ltb_lt.
      unfold FuzzyCacheExpire, Minute in *. lia.
    - by rewrite Hst. }
  split; [exact Hpoll|]. intros Hrt. by rewrite Hpoll, Hrt.
Qed.

End RoundTrip.

Section RoundTripExamples.
Import dbm mongo until handle flow Reference.
#[local] Existing Instance Reference.runtime.


Lemma submit_work_poll_returns_payload_witness :
  let q := submission "weather" 0 "r1" "l1" in
  let search := GetMongoDataFuzzyByKeyword mongoOne in
  GetFuzzyQueryResult (pollOf q (2 * Second))
    (fuzzyQueryWorker search (1 * Second) (kv (SubmitFuzzyQuery q world0).1)
                      (workItemOf q)).1 =
    JSON StatusOK {| Code := 0; Message := "获取成功";
                     Data := default VNil (json_Unmarshal (json_Marshal (VList []))) |}.
Proof.
  intros q search.
  destruct (submit_work_poll_returns_payload q world0 search (VList []) None
              (1 * Second) (2 * Second) {[ "keyword" := "weather" ]})
    as (Hp & _);
    [first [reflexivity | discriminate | apply hashable_empty | by vm_compute] ..|].
  exact Hp.
Defined.

End RoundTripExamples.
(** ** The fuzzy-query worker *)

Section Worker.
Import dbm until handle flow consumer.
Context `{GoRuntime}.
Implicit Types (s : store) (msg : Publishing).

(** X13. The worker settles every delivery exactly once, with its last
    action: a negative acknowledgement with requeue exactly when the message
    decoded and the search panicked, a plain acknowledgement otherwise. It
    calls the search at most once, and not at all for a message that does
    not decode; a message that does not decode and a search that panics
    leave the keyspace as it was. *)
Theorem fuzzyQueryWorker_settles_delivery_once search now s msg :
  let out := fuzzyQueryWorker search now s msg in
  (exists pre last,
     out.2 = (pre ++ [last])%list /\ List.filter settles pre = [] /\
     (last = EvNack false true /\ out.1 = s /\
        (exists m p, json_UnmarshalStrings (Body msg) = Some m /\
                     search (field m "keyword") = Panicked p)
      \/
      last = EvAck false /\
        (forall m, json_UnmarshalStrings (Body msg) = Some m ->
                   exists v err, search (field m "keyword") = Returned (v, err)))) /\
  (length (List.filter searches out.2) <= 1)%nat /\
  (json_UnmarshalStrings (Body msg) = None ->
   out.1 = s /\ List.filter searches out.2 = []).
Proof.
  intros out. subst out. unfold fuzzyQueryWorker.
  destruct (json_UnmarshalStrings (Body msg)) as [m|] eqn:Hm.
  - destruct (search (field m "keyword")) as [[v err]|p] eqn:Hs.
    + split; [|split; [|done]].
      * destruct err as [e|]; simpl.
        -- eexists [_; _; _; _; _; _], _. split; [done|]. split; [done|].
           right. split; [done|]. intros m' [= <-]. eauto.
        -- eexists [_; _; _; _; _], _. split; [done|]. split; [done|].
           right. split; [done|]. intros m' [= <-]. eauto.
      * destruct err; simpl; lia.
    + split; [|split; [simpl; lia|done]].
      eexists [_; _; _], _. split; [done|]. split; [done|].
      left. split; [done|]. split; [done|]. eauto.
  - split; [|split; [simpl; lia|done]].
    eexists [_], _. split; [done|]. split; [done|].
    right. split; [done|]. intros m' [=].
Qed.

Lemma fuzzyQueryWorker_settles_count search now s msg :
  length (List.filter settles (fuzzyQueryWorker search now s msg).2) = 1%nat.
Proof.
  unfold fuzzyQueryWorker.
  destruct (json_UnmarshalStrings (Body msg)) as [m|]; [|done].
  destruct (search (field m "keyword")) as [[v [e|]]|p]; done.
Qed.

(** X14. The consumer loop settles as many times as it was delivered
    messages, whatever the messages are and whatever the searches do: no
    delivery is left unacknowledged and none is settled twice. *)
Theorem startFuzzyQueryConsumer_settles_each_delivery search s msgs cancelled :
  length (List.filter settles (startFuzzyQueryConsumer search s msgs cancelled).2)
  = length msgs.
Proof.
  revert s. induction msgs as [|[now msg] rest IH]; intros s; [by destruct cancelled|].
  simpl. pose proof (fuzzyQueryWorker_settles_count search now s msg) as H1.
  specialize (IH (fuzzyQueryWorker search now s msg).1).
  destruct (fuzzyQueryWorker search now s msg) as [s1 evs1]. simpl in IH, H1.
  destruct (startFuzzyQueryConsumer search s1 rest cancelled) as [s2 evs2].
  simpl in *. rewrite List.filter_app, length_app, H1, IH. done.
Qed.

Lemma HSet_local now s s' k fv :
  s !! k = s' !! k -> HSet now s k fv !! k = HSet now s' k fv !! k.
Proof.
  intros Hk. unfold HSet. rewrite <- (live_ext now s s' k Hk).
  destruct (live now s k) as [[[v|h] ex]|]; by rewrite ?lookup_insert_eq.
Qed.

Lemma Expire_local now s s' k d :
  s !! k = s' !! k -> Expire now s k d !! k = Expire now s' k d !! k.
Proof.
  intros Hk. unfold Expire. rewrite <- (live_ext now s s' k Hk).
  destruct (live now s k) as [[v ex]|]; by rewrite ?lookup_insert_eq.
Qed.

(** What the worker leaves under a key depends on that key only. *)
Lemma fuzzyQueryWorker_local search now s s' msg k :
  s !! k = s' !! k ->
  (fuzzyQueryWorker search now s msg).1 !! k =
  (fuzzyQueryWorker search now s' msg).1 !! k.
Proof.
  intros Hk. unfold fuzzyQueryWorker.
  destruct (json_UnmarshalStrings (Body msg)) as [m|]; [|done].
  destruct (search (field m "keyword")) as [[v err]|p]; [|done].
  simpl. destruct (decide (GetFuzzyCacheKey (field m "keyword") = k)) as [->|Hne].
  - by apply Expire_local, HSet_local.
  - by rewrite !Expire_lookup_ne, !HSet_lookup_ne.
Qed.

(** X15. Workers on different keywords do not interfere: two deliveries
    whose keywords have different cache keys leave the same keyspace in
    either order, each at its own instant. The consumer runs up to eight
    workers at once; their writes need no ordering unless they serve the
    same keyword. *)
Theorem fuzzyQueryWorker_commutes_across_keywords search1 search2 t1 t2 s msg1 msg2 :
  (forall m1 m2, json_UnmarshalStrings (Body msg1) = Some m1 ->
                 json_UnmarshalStrings (Body msg2) = Some m2 ->
                 GetFuzzyCacheKey (field m1 "keyword") <>
                 GetFuzzyCacheKey (field m2 "keyword")) ->
  (fuzzyQueryWorker search2 t2 (fuzzyQueryWorker search1 t1 s msg1).1 msg2).1 =
  (fuzzyQueryWorker search1 t1 (fuzzyQueryWorker search2 t2 s msg2).1 msg1).1.
Proof.
  intros Hne. apply map_eq. intros k.
  destruct (json_UnmarshalStrings (Body msg1)) as [m1|] eqn:H1.
  2:{ rewrite (fuzzyQueryWorker_lookup_ne search1 t1 _ msg1 k)
        by (intros m; by rewrite H1).
      apply fuzzyQueryWorker_local.
      apply fuzzyQueryWorker_lookup_ne. intros m; by rewrite H1. }
  destruct (json_UnmarshalStrings (Body msg2)) as [m2|] eqn:H2.
  2:{ rewrite (fuzzyQueryWorker_lookup_ne search2 t2 _ msg2 k)
        by (intros m; by rewrite H2).
      symmetry. apply fuzzyQueryWorker_local.
      apply fuzzyQueryWorker_lookup_ne. intros m; by rewrite H2. }
  specialize (Hne m1 m2 eq_refl eq_refl).
  destruct (decide (k = GetFuzzyCacheKey (field m1 "keyword"))) as [->|Hk1].
  - rewrite (fuzzyQueryWorker_lookup_ne search2 t2 _ msg2).
    2:{ intros m. rewrite H2. by intros [= <-]. }
    apply fuzzyQueryWorker_local. symmetry.
    apply fuzzyQueryWorker_lookup_ne. intros m. rewrite H2. by intros [= <-].
  - rewrite (fuzzyQueryWorker_lookup_ne search1 t1 _ msg1 k).
    2:{ intros m. rewrite H1. by intros [= <-]. }
    apply fuzzyQueryWorker_local.
    apply fuzzyQueryWorker_lookup_ne. intros m. rewrite H1. by intros [= <-].
Qed.

End Worker.

Section WorkerExamples.
Import dbm mongo until handle flow consumer Reference.
#[local] Existing Instance Reference.runtime.

Lemma fuzzyQueryWorker_commutes_across_keywords_witness :
  let search := GetMongoDataFuzzyByKeyword mongoOne in
  (fuzzyQueryWorker search 2 (fuzzyQueryWorker search 1 ∅ (workItem "a")).1
                    (workItem "b")).1 =
  (fuzzyQueryWorker search 1 (fuzzyQueryWorker search 2 ∅ (workItem "b")).1
                    (workItem "a")).1.
Proof.
  intros search.
  apply (fuzzyQueryWorker_commutes_across_keywords search search 1 2 ∅
           (workItem "a") (workItem "b")).
  intros m1 m2 H1 H2.
  assert (E1 : json_UnmarshalStrings (Body (workItem "a")) = Some {[ "keyword" := "a" ]})
    by reflexivity.
  assert (E2 : json_UnmarshalStrings (Body (workItem "b")) = Some {[ "keyword" := "b" ]})
    by reflexivity.
  rewrite E1 in H1. rewrite E2 in H2.
  injection H1 as <-. injection H2 as <-. discriminate.
Defined.

End WorkerExamples.
(** ** The document search *)

Section Search.
Import dbm mongo documents.
Context `{GoRuntime}.
Implicit Types (seen : gmap string bsonM) (doc : bsonM) (docs : list bsonM).

Lemma dedupStep_skips seen doc :
  wellTyped doc = false -> dedupStep seen doc = Some seen.
Proof.
  unfold wellTyped, title, crawledat, dedupStep.
  destruct (as_map (doc !! "hotitem")) as [hotitem|]; [|done].
  destruct (as_string (hotitem !! "title")); [|done].
  by destruct (as_datetime (hotitem !! "crawledat")).
Qed.

Lemma dedupLoop_skips seen docs :
  dedupLoop seen docs = dedupLoop seen (List.filter wellTyped docs).
Proof.
  revert seen. induction docs as [|doc docs IH]; intros seen; [done|].
  simpl. destruct (wellTyped doc) eqn:Hw; simpl.
  - destruct (dedupStep seen doc); [apply IH|done].
  - rewrite (dedupStep_skips seen doc Hw). apply IH.
Qed.

(** X16. Documents without a [hotitem] map, a string title or a DateTime
    [crawledat] are skipped wherever they stand in the input: the result,
    for every limit, is that of the input with those documents removed. *)
Theorem deduplicateAndSort_skips_malformed docs limit :
  deduplicateAndSort docs limit =
  deduplicateAndSort (List.filter wellTyped docs) limit.
Proof. unfold deduplicateAndSort. by rewrite dedupLoop_skips. Qed.

Lemma mergeResults_elem (m : MongoManger) keyword names d :
  d ∈ mergeResults m keyword names ->
  exists name results, name ∈ names /\
    querySingleCollection m name keyword = inr results /\ d ∈ results.
Proof.
  induction names as [|name rest IH]; simpl; [by intros ?%elem_of_nil|].
  destruct (querySingleCollection m name keyword) as [e|results] eqn:Hq.
  - intros (n & r & Hn & Hr & Hd)%IH. exists n, r. split; [by right|done].
  - intros [Hd|Hd]%elem_of_app.
    + exists name, results. split; [by left|done].
    + destruct (IH Hd) as (n & r & Hn & Hr & Hd'). exists n, r.
      split; [by right|done].
Qed.

(** X17. The search fails only when the collections cannot be listed, and
    then with a nil result. Otherwise it neither fails nor panics, however
    many of the per-collection queries fail and whatever the documents look
    like: it returns at most 50 documents, each taken from a collection
    whose query succeeded and carrying a title and a [crawledat], no two
    with the same title, newest first. The hypotheses say that ranging over
    a map visits its values and that [sort.Slice] sorts. *)
Theorem GetMongoDataFuzzyByKeyword_returns_at_most_fifty (m : MongoManger) keyword :
  (forall mp, map_range mp ≡ₚ (map_to_list mp).*2) ->
  (forall less l, sort_Slice less l ≡ₚ l) ->
  (forall l, Forall (fun d => is_Some (crawledat d)) l ->
             Sorted (fun a b => less b a = false) (sort_Slice less l)) ->
  match listCollectionNames m with
  | inl err =>
      GetMongoDataFuzzyByKeyword m keyword =
        Returned (VNil, Some ("获取集合列表失败: " +:+ err))
  | inr names =>
      exists res,
        GetMongoDataFuzzyByKeyword m keyword = Returned (VList (VMap <$> res), None) /\
        (length res <= 50)%nat /\
        NoDup (title <$> res) /\
        Sorted newerFirst res /\
        (forall d, d ∈ res ->
           is_Some (title d) /\ is_Some (crawledat d) /\
           exists name results, name ∈ arrival m names /\
             querySingleCollection m name keyword = inr results /\ d ∈ results)
  end.
Proof.
  intros Hrange Hperm Hsorted. unfold GetMongoDataFuzzyByKeyword.
  destruct (listCollectionNames m) as [err|names]; [done|].
  destruct (deduplicateAndSort_properties
              (mergeResults m keyword (arrival m names)) 50
              Hrange Hperm Hsorted ltac:(lia))
    as (res & Hdef & Hlen & Hnd & Hin & Hs & _).
  exists res. rewrite Hdef. split; [done|]. split; [lia|].
  split; [done|]. split; [done|].
  intros d Hd. destruct (Hin d Hd) as (Hm & Ht & Hc).
  split; [done|]. split; [done|]. by apply mergeResults_elem.
Qed.

End Search.

Section SearchExamples.
Import dbm mongo documents Reference.
#[local] Existing Instance Reference.runtime.

Lemma GetMongoDataFuzzyByKeyword_returns_at_most_fifty_witness :
  exists res,
    GetMongoDataFuzzyByKeyword mongoTwo "a" = Returned (VList (VMap <$> res), None) /\
    (length res <= 50)%nat /\
    NoDup (title <$> res).
Proof.
  pose proof (GetMongoDataFuzzyByKeyword_returns_at_most_fifty mongoTwo "a") as Hs.
  simpl in Hs. destruct Hs as (res & Hr & Hl & Hn & _).
  - intros mp. reflexivity.
  - intros less l. apply insertionSort_perm.
  - intros l _. apply insertionSort_sorted.
  - exists res. split; [exact Hr|]. split; [exact Hl|exact Hn].
Defined.

End SearchExamples.
(** ** The latest crawl of a source *)

Section LatestCrawl.
Import dbm until handle latest.
Context `{GoRuntime} (json_Error : string -> error).
Implicit Types (h : Hot) (r : LatestRequest).

Lemma filter_ne_notin (m : string) (l : list string) :
  m ∉ l -> filter (fun x => x <> m) l = l.
Proof.
  induction l as [|x l IH]; [done|].
  intros Hn. apply not_elem_of_cons in Hn as [Hx Hl].
  rewrite filter_cons_True by done. by rewrite IH.
Qed.

Lemma filter_ne_head (m : string) (l : list string) :
  filter (fun x => x <> m) (m :: l) = filter (fun x => x <> m) l.
Proof. by rewrite filter_cons_False by (intros Hne; by apply Hne). Qed.

Lemma ZRem_docs fault now h k m : docs (ZRem fault now h k m) = docs h.
Proof.
  unfold ZRem. destruct fault; [done|].
  destruct (live now (docs h) k); [done|]. by destruct (zsets h !! k).
Qed.

Lemma ZRem_lookup_ne fault now h k m k' :
  k' <> k -> zsets (ZRem fault now h k m) !! k' = zsets h !! k'.
Proof.
  intros Hne. unfold ZRem. destruct fault; [done|].
  destruct (live now (docs h) k); [done|].
  destruct (zsets h !! k) as [l|]; [|done]. simpl.
  case_decide; [by rewrite lookup_delete_ne|by rewrite lookup_insert_ne].
Qed.

Lemma ZRem_lookup now h k m l :
  live now (docs h) k = None -> zsets h !! k = Some l ->
  default [] (zsets (ZRem None now h k m) !! k) = filter (fun x => x <> m) l.
Proof.
  intros Hl Hz. unfold ZRem. rewrite Hl, Hz. simpl.
  case_decide as He.
  - by rewrite lookup_delete_eq, He.
  - by rewrite lookup_insert_eq.
Qed.

Ltac unchanged :=
  split; [done|]; split; [done|]; split; [by intros ?? [= <- _]|];
  split; [by intros ? [=] | by intros []].

(** X18. [GetLatestDataBySource] looks at the newest member of the source's
    sorted set only. It returns data, with a nil error, only when the
    document under that member is a live string that decodes, and then the
    decoded value; with an error the data is nil. It never writes a
    document and never touches another sorted set; it changes the keyspace
    only by removing the newest member, and only when that member's
    document is missing or expired, in which case it reports the expired key
    and does not fall back to an older member. *)
Theorem GetLatestDataBySource_reads_newest_or_purges r h :
  let out := GetLatestDataBySource json_Error r h in
  let zsetKey := "hot:zset:" +:+ source r in
  docs out.1 = docs h /\
  (forall k, k <> zsetKey -> zsets out.1 !! k = zsets h !! k) /\
  (forall data e, out.2 = (data, Some e) -> data = VNil) /\
  (forall data, out.2 = (data, None) ->
     out.1 = h /\
     exists m rest jsonStr ex,
       zsets h !! zsetKey = Some (m :: rest) /\
       live (req_time r) (docs h) m = Some (Entry (RString jsonStr) ex) /\
       json_Unmarshal jsonStr = Some data) /\
  (out.1 <> h ->
     exists m rest,
       zsets h !! zsetKey = Some (m :: rest) /\
       live (req_time r) (docs h) m = None /\
       out.2 = (VNil, Some ("latest data key expired: " +:+ m)) /\
       default [] (zsets out.1 !! zsetKey) = filter (fun x => x <> m) rest).
Proof.
  intros out zsetKey. subst out. unfold GetLatestDataBySource. fold zsetKey.
  unfold ZRevRange00.
  destruct (zrevrange_fault r) as [e|]; [unchanged|].
  destruct (live (req_time r) (docs h) zsetKey) as [e0|] eqn:Hk;
    [unchanged|].
  destruct (zsets h !! zsetKey) as [l|] eqn:Hz; simpl;
    [|unchanged].
  destruct l as [|m rest]; simpl; [unchanged|].
  unfold Get. destruct (get_fault r) as [e|]; [unchanged|].
  destruct (live (req_time r) (docs h) m) as [[[v|hh] ex]|] eqn:Hm.
  - destruct (json_Unmarshal v) as [data|] eqn:Hd;
      [|unchanged].
    split; [done|]. split; [done|]. split; [by intros ?? [=]|]. split; [|done].
    intros data' [= <-]. split; [done|]. by exists m, rest, v, ex.
  - unchanged.
  - destruct (zsets h !! m) as [lm|] eqn:Hzm; [unchanged|].
    split; [apply ZRem_docs|]. split; [intros k Hne; by apply ZRem_lookup_ne|].
    split; [by intros ?? [= <-]|]. split; [by intros ? [=]|].
    intros Hch. exists m, rest. split; [done|]. split; [done|]. split; [done|].
    destruct (zrem_fault r) as [e|] eqn:Hf; [by destruct Hch|].
    cbn [fst]. rewrite (ZRem_lookup _ _ _ _ _ Hk Hz). apply filter_ne_head.
Qed.

(** One request while the newest member is stale. *)
Lemma GetLatestCrawleData_purges r h m l :
  source r <> "" -> quiet r ->
  live (req_time r) (docs h) ("hot:zset:" +:+ source r) = None ->
  zsets h !! ("hot:zset:" +:+ source r) = Some (m :: l) ->
  m ∉ l -> l <> [] ->
  live (req_time r) (docs h) m = None -> zsets h !! m = None ->
  GetLatestCrawleData json_Error r h =
    ({| zsets := <["hot:zset:" +:+ source r := l]> (zsets h); docs := docs h |},
     Error {| ErrCode := 500;
              ErrMessage := "获取数据失败：" +:+ ("latest data key expired: " +:+ m) |}).
Proof.
  intros Hsrc (Hf1 & Hf2 & Hf3) Hk Hz Hnin Hne Hm Hzm.
  unfold GetLatestCrawleData. apply String.eqb_neq in Hsrc. rewrite Hsrc.
  unfold GetLatestDataBySource, ZRevRange00, Get, ZRem.
  set (zk := "hot:zset:" +:+ source r) in *.
  rewrite Hf1, Hk, Hz. simpl. rewrite Hf2, Hm, Hzm, Hf3.
  rewrite filter_ne_head, (filter_ne_notin m l Hnin).
  by rewrite decide_False by done.
Qed.

(** X19. Stale members are purged one request at a time. When the members
    ahead of [k] in a source's sorted set have no live document, as many
    requests as there are such members each remove one of them, leaving [k]
    at the head with the older members behind it and the documents as they
    were; the next request is then answered 200 with the decoded document
    of [k]. *)
Theorem GetLatestCrawleData_heals_after_expired_crawls
    rs r h stale k rest jsonStr ex data :
  let zsetKey := "hot:zset:" +:+ source r in
  source r <> "" ->
  zsets h !! zsetKey = Some (stale ++ k :: rest)%list ->
  NoDup (stale ++ k :: rest)%list ->
  length rs = length stale ->
  (forall r', r' ∈ r :: rs ->
     source r' = source r /\ quiet r' /\
     live (req_time r') (docs h) zsetKey = None /\
     forall m, m ∈ stale ->
       live (req_time r') (docs h) m = None /\ zsets h !! m = None) ->
  live (req_time r) (docs h) k = Some (Entry (RString jsonStr) ex) ->
  json_Unmarshal jsonStr = Some data ->
  let h' := askAgain json_Error rs h in
  zsets h' !! zsetKey = Some (k :: rest) /\
  docs h' = docs h /\
  GetLatestCrawleData json_Error r h' =
    (h', JSON StatusOK {| Code := 0; Message := "获取成功"; Data := data |}).
Proof.
  intros zsetKey Hsrc Hz Hnd Hlen Hrs Hk Hd h'. subst h'.
  revert h rs Hz Hnd Hlen Hrs Hk.
  induction stale as [|m stale IH]; intros h rs Hz Hnd Hlen Hrs Hk.
  - destruct rs; [|done]. simpl. split; [done|]. split; [done|].
    destruct (Hrs r) as (_ & (Hf1 & Hf2 & _) & Hzk & _); [by left|].
    unfold GetLatestCrawleData. apply String.eqb_neq in Hsrc. rewrite Hsrc.
    unfold GetLatestDataBySource, ZRevRange00, Get. fold zsetKey.
    clearbody zsetKey.
    rewrite Hf1, Hzk. simpl in Hz. rewrite Hz. simpl.
    by rewrite Hf2, Hk, Hd.
  - destruct rs as [|r1 rs]; [done|].
    simpl in Hz, Hnd, Hlen. apply NoDup_cons in Hnd as [Hnin Hnd].
    destruct (Hrs r1) as (Hs1 & Hq1 & Hzk1 & Hst1); [right; by left|].
    destruct (Hst1 m) as [Hm1 Hzm1]; [by left|].
    assert (Hstep : GetLatestCrawleData json_Error r1 h =
      ({| zsets := <[zsetKey := (stale ++ k :: rest)%list]> (zsets h);
          docs := docs h |},
       Error {| ErrCode := 500;
                ErrMessage := "获取数据失败：" +:+ ("latest data key expired: " +:+ m) |})).
    { subst zsetKey. rewrite <- Hs1.
      apply GetLatestCrawleData_purges; rewrite ?Hs1; try done.
      by destruct stale. }
    unfold askAgain. simpl. rewrite Hstep. simpl.
    set (h1 := {| zsets := <[zsetKey := (stale ++ k :: rest)%list]> (zsets h);
                  docs := docs h |}).
    fold (askAgain json_Error rs h1).
    destruct (IH h1 rs) as (Hz' & Hd' & Hg'); [..|by repeat split].
    + apply lookup_insert_eq.
    + done.
    + by injection Hlen.
    + intros r' Hr'.
      destruct (Hrs r') as (Hs & Hq & Hzk & Hst).
      { apply elem_of_cons in Hr' as [->|Hr']; [by left|]. right. by right. }
      split; [done|]. split; [done|]. split; [done|].
      intros m' Hm'. destruct (Hst m') as [Hl' Hz']; [by right|].
      split; [done|]. simpl. rewrite lookup_insert_ne; [done|].
      intros <-. by rewrite Hz in Hz'.
    + done.
Qed.

End LatestCrawl.

Section LatestCrawlExamples.
Import dbm until handle latest Reference.
#[local] Existing Instance Reference.runtime.

Lemma GetLatestCrawleData_heals_after_expired_crawls_witness :
  let h' := askAgain (fun _ => "syntax error") [ask "weibo" 0] hotTwo in
  zsets h' !! ("hot:zset:" +:+ source (ask "weibo" 1)) = Some ["hot:weibo:1"] /\
  docs h' = docs hotTwo /\
  GetLatestCrawleData (fun _ => "syntax error") (ask "weibo" 1) h' =
    (h', JSON StatusOK {| Code := 0; Message := "获取成功"; Data := VList [] |}).
Proof.
  apply (GetLatestCrawleData_heals_after_expired_crawls (fun _ => "syntax error")
           [ask "weibo" 0] (ask "weibo" 1) hotTwo ["hot:weibo:2"] "hot:weibo:1" []
           "[]" None (VList [])).
  - discriminate.
  - reflexivity.
  - repeat constructor; rewrite ?elem_of_cons, ?elem_of_nil; intuition discriminate.
  - reflexivity.
  - intros r' Hr'. rewrite !elem_of_cons, elem_of_nil in Hr'.
    destruct Hr' as [->|[->|[]]].
    + split; [reflexivity|]. split; [by repeat split|]. split; [reflexivity|].
      intros m Hm. apply list_elem_of_singleton in Hm as ->. by split.
    + split; [reflexivity|]. split; [by repeat split|]. split; [reflexivity|].
      intros m Hm. apply list_elem_of_singleton in Hm as ->. by split.
  - reflexivity.
  - reflexivity.
Defined.

End LatestCrawlExamples.
(** ** The middleware *)

Section MiddlewareFacts.
Import dbm until handle flow consumer gin.
Context `{GoRuntime}.
Context (Sscanf_Bearer : string -> string * option error).
Context (jwt_Parse : string -> option (Z * string)).
Implicit Types (c : Context) (w : World) (next h : HandlerFunc) (a : Access).

Local Abbreviation PublicJWTMiddleware := (PublicJWTMiddleware Sscanf_Bearer jwt_Parse).
Local Abbreviation JWTMiddleware := (JWTMiddleware Sscanf_Bearer jwt_Parse).
Local Abbreviation vipClaims := (vipClaims Sscanf_Bearer jwt_Parse).
Local Abbreviation bearerClaims := (bearerClaims Sscanf_Bearer jwt_Parse).
Local Abbreviation publicRoute := (publicRoute Sscanf_Bearer jwt_Parse).
Local Abbreviation authRoute := (authRoute Sscanf_Bearer jwt_Parse).

Lemma c_GetString_Set c key s : c_GetString (c_Set c key (VString s)) key = s.
Proof. unfold c_GetString, c_Set. simpl. by rewrite lookup_insert_eq. Qed.

Lemma c_GetString_Set_ne c key key' v :
  key' <> key -> c_GetString (c_Set c key' v) key = c_GetString c key.
Proof. intros Hne. unfold c_GetString, c_Set. simpl. by rewrite lookup_insert_ne. Qed.

Lemma c_Get_Set c key v : c_Get (c_Set c key v) key = v.
Proof. unfold c_Get, c_Set. simpl. by rewrite lookup_insert_eq. Qed.

Lemma c_Get_Set_ne c key key' v :
  key' <> key -> c_Get (c_Set c key' v) key = c_Get c key.
Proof. intros Hne. unfold c_Get, c_Set. simpl. by rewrite lookup_insert_ne. Qed.

Lemma snoc_ne {A} (l : list A) (x : A) : (l ++ [x])%list <> l.
Proof.
  intros Heq. apply (f_equal length) in Heq. rewrite length_app in Heq.
  simpl in Heq. lia.
Qed.

(** The three ways [PublicJWTMiddleware] goes on. *)
Lemma PublicJWTMiddleware_cases next c w :
  (vipClaims c = None /\ Authorization c = "" /\
   PublicJWTMiddleware next c w = next (c_Set c "user_type" (VString UserTypeNormal)) w) \/
  (vipClaims c = None /\ Authorization c <> "" /\
   exists msg,
     PublicJWTMiddleware next c w =
       next (c_Set (c_Error c (Business {| ErrCode := 601; ErrMessage := msg |}))
                   "user_type" (VString UserTypeNormal)) w) \/
  (exists uid name,
     vipClaims c = Some (uid, name) /\ Authorization c <> "" /\
     PublicJWTMiddleware next c w =
       next (c_Set (c_Set (c_Set c "user_type" (VString UserTypeVIP))
                          "userId" (VInt uid))
                   "userName" (VString name)) w).
Proof.
  unfold gin.PublicJWTMiddleware, gin.vipClaims.
  destruct (String.eqb (Authorization c) "") eqn:Ha.
  { left. split; [done|]. split; [by apply String.eqb_eq|done]. }
  apply String.eqb_neq in Ha.
  destruct (Sscanf_Bearer (Authorization c)) as [tokenStr err].
  destruct (bool_decide (is_Some err) || String.eqb tokenStr "").
  { right. left. split; [done|]. split; [done|]. by eexists. }
  destruct (jwt_Parse tokenStr) as [[userId userName]|].
  - right. right. by exists userId, userName.
  - right. left. split; [done|]. split; [done|]. by eexists.
Qed.

(** The context on which [PublicJWTMiddleware] runs the next handler. *)
Lemma PublicJWTMiddleware_next next c w :
  exists c',
    PublicJWTMiddleware next c w = next c' w /\
    Written c' = Written c /\
    c_GetString c' "user_type" =
      (if vipClaims c is Some _ then UserTypeVIP else UserTypeNormal) /\
    (Errors c' = Errors c \/
     exists msg, Errors c' =
       (Errors c ++ [Business {| ErrCode := 601; ErrMessage := msg |}])%list).
Proof.
  destruct (PublicJWTMiddleware_cases next c w)
    as [(-> & _ & Hrun)|[(-> & _ & msg & Hrun)|(uid & name & -> & _ & Hrun)]];
    eexists; (split; [exact Hrun|]); (split; [done|]).
  - split; [apply c_GetString_Set|by left].
  - split; [apply c_GetString_Set|right; by eexists].
  - split; [by rewrite 2!c_GetString_Set_ne, c_GetString_Set by done|by left].
Qed.

(** X20. [PublicJWTMiddleware] never stops a request: whatever the
    Authorization header, it runs the next handler exactly once, on the
    same request with nothing written or aborted, in which [user_type] is
    [vip] when the header carries a token that scans and verifies, and
    [normal] otherwise. It records an error, of code 601, exactly when a
    header was sent that did not verify; a verified token leaves the claims'
    user id and user name in the context, and no other key is set. *)
Theorem PublicJWTMiddleware_degrades_never_blocks next c w :
  exists c',
    PublicJWTMiddleware next c w = next c' w /\
    Authorization c' = Authorization c /\
    Written c' = Written c /\ Aborted c' = Aborted c /\
    c_GetString c' "user_type" =
      (if vipClaims c is Some _ then UserTypeVIP else UserTypeNormal) /\
    (Errors c' = Errors c \/
     exists msg, Errors c' =
       (Errors c ++ [Business {| ErrCode := 601; ErrMessage := msg |}])%list) /\
    (Errors c' = Errors c <-> Authorization c = "" \/ is_Some (vipClaims c)) /\
    (forall uid name, vipClaims c = Some (uid, name) ->
       c_Get c' "userId" = VInt uid /\ c_Get c' "userName" = VString name) /\
    (forall key, key <> "user_type" -> key <> "userId" -> key <> "userName" ->
       Keys c' !! key = Keys c !! key).
Proof.
  destruct (PublicJWTMiddleware_cases next c w)
    as [(Hv & Ha & Hrun)|[(Hv & Ha & msg & Hrun)|(uid & name & Hv & Ha & Hrun)]];
    rewrite Hv; eexists; (split; [exact Hrun|]);
    (split; [done|]); (split; [done|]); (split; [done|]).
  - split; [apply c_GetString_Set|]. split; [by left|].
    split; [split; [by left|done]|]. split; [done|].
    intros key Hk _ _. simpl. by rewrite lookup_insert_ne.
  - split; [apply c_GetString_Set|]. split; [right; by eexists|].
    split; [|split; [done|]].
    + split; [by intros ?%snoc_ne|]. intros [?|[? ?]]; done.
    + intros key Hk _ _. simpl. by rewrite lookup_insert_ne.
  - split; [by rewrite 2!c_GetString_Set_ne, c_GetString_Set by done|].
    split; [by left|]. split; [split; [intros _; right; eauto|done]|].
    split.
    + intros uid' name' [= <- <-]. split; [|apply c_Get_Set].
      rewrite c_Get_Set_ne by done. apply c_Get_Set.
    + intros key H1 H2 H3. simpl. by rewrite !lookup_insert_ne.
Qed.

(** [SubmitFuzzyQuery] always answers, and its errors are 400 or 500. *)
Lemma SubmitFuzzyQuery_answers (q : Submission) w :
  (exists status body, (SubmitFuzzyQuery q w).2 = JSON status body) \/
  (exists e, (SubmitFuzzyQuery q w).2 = Error e /\ (ErrCode e = 400 \/ ErrCode e = 500)).
Proof.
  destruct (SubmitFuzzyQuery_early q w) as (Hempty & Hrerr & Hhit & Hlerr).
  destruct (decide (keyword q = "")) as [Hkw|Hkw].
  { rewrite (Hempty Hkw). right. eexists. split; [done|]. by left. }
  destruct (cacheRead_cases q w) as [[e He]|[(data & Hd & Hnil)|[status Hs]]].
  - rewrite (Hrerr _ _ _ Hkw He). right. eexists. split; [done|]. by right.
  - rewrite (Hhit _ _ Hkw Hd Hnil). left. eauto.
  - destruct (lock_fault q) as [e|] eqn:Hlf.
    { rewrite (Hlerr _ _ Hkw Hs eq_refl). right. eexists. split; [done|]. by right. }
    rewrite (SubmitFuzzyQuery_past_lookup q w status Hkw Hs Hlf).
    destruct (SetNX _ _ _ _ _) as [ok s1].
    destruct (ok && negb (String.eqb status "loading")).
    + destruct (PublishPriorityMQ _ _ _ _ _); simpl.
      * right. eexists. split; [done|]. by right.
      * left. unfold pollingHint. eauto.
    + left. unfold pollingHint. simpl. eauto.
Qed.

Lemma AccessLogQueueName_ne : AccessLogQueueName <> FuzzyQueueName.
Proof. done. Qed.

(** The access log goes to its own queue. *)
Lemma publishAccessLog_frame a l w :
  kv (publishAccessLog a l w).1 = kv w /\
  channel (mq (publishAccessLog a l w).1) = channel (mq w) /\
  forall name, name <> AccessLogQueueName ->
    queue (mq (publishAccessLog a l w).1) name = queue (mq w) name.
Proof.
  unfold publishAccessLog, PublishMQ.
  destruct (channel (mq w)) eqn:Hch; simpl; [|done].
  destruct (log_fault a); simpl; [done|].
  split; [done|]. split; [done|]. intros name Hne. unfold queue. simpl.
  by rewrite lookup_insert_ne.
Qed.

(** What [ErrorAndLogHandler] adds to the responses when nothing panicked. *)
Lemma ErrorAndLogHandler_written a next c w :
  panic (next c w) = None ->
  let r := next c w in
  let out := ErrorAndLogHandler a next c w in
  Written (ctx out) =
    (Written (ctx r) ++
     match last (Errors (ctx r)) with
     | None => []
     | Some (Business b) =>
         if ErrCode b =? 601 then []
         else [(StatusOK, {| Code := ErrCode b; Message := ErrMessage b; Data := VNil |})]
     | Some (System msg) =>
         [(StatusInternalServerError,
           {| Code := 500; Message := "操作失败：" +:+ msg; Data := VNil |})]
     end)%list /\
  Aborted (ctx out) = (if last (Errors (ctx r)) is Some _ then true else Aborted (ctx r)) /\
  kv (wld out) = kv (wld r) /\
  (forall name, name <> AccessLogQueueName ->
     queue (mq (wld out)) name = queue (mq (wld r)) name) /\
  panic out = None.
Proof.
  intros Hp r out. subst r out. unfold ErrorAndLogHandler. rewrite Hp.
  destruct (last (Errors (ctx (next c w)))) as [[b|msg]|].
  - match goal with |- context [publishAccessLog ?a ?l ?w0] =>
      pose proof (publishAccessLog_frame a l w0) as (Hkv & _ & Hq);
      destruct (publishAccessLog a l w0) as [w1 evs] end.
    simpl in *. destruct (ErrCode b =? 601); simpl;
      repeat split; try done; by rewrite ?app_nil_r.
  - match goal with |- context [publishAccessLog ?a ?l ?w0] =>
      pose proof (publishAccessLog_frame a l w0) as (Hkv & _ & Hq);
      destruct (publishAccessLog a l w0) as [w1 evs] end.
    simpl in *. repeat split; done.
  - match goal with |- context [publishAccessLog ?a ?l ?w0] =>
      pose proof (publishAccessLog_frame a l w0) as (Hkv & _ & Hq);
      destruct (publishAccessLog a l w0) as [w1 evs] end.
    simpl in *. repeat split; try done. by rewrite app_nil_r.
Qed.

(** X21. A submission on the public route. On a fresh context, the client
    is sent exactly what the handler answered: its JSON as it is, its
    400 or 500 error as a 200 response with the code and the message in the
    body. The 601 error of a token that did not verify is never sent and
    does not replace the handler's answer. The handler runs as [vip], and
    so publishes at priority 10, exactly when the token verified; the
    keyspace and the fuzzy-query queue are those the handler left. *)
Theorem publicRoute_submission_answer a (q : Submission) c w :
  Errors c = [] ->
  let userType := if vipClaims c is Some _ then UserTypeVIP else UserTypeNormal in
  let served := SubmitFuzzyQuery (withUserType q userType) w in
  let out := publicRoute a (submitHandler q) c w in
  Written (ctx out) = (Written c ++ clientView served.2)%list /\
  clientView served.2 <> [] /\
  priorityOf (withUserType q userType) = (if vipClaims c is Some _ then 10 else 0) /\
  kv (wld out) = kv served.1 /\
  queue (mq (wld out)) FuzzyQueueName = queue (mq served.1) FuzzyQueueName /\
  panic out = None.
Proof.
  intros Herr userType served out.
  destruct (PublicJWTMiddleware_next (submitHandler q) c w)
    as (c' & Hrun & Hw & Hut & Hgrow).
  assert (Hnext : PublicJWTMiddleware (submitHandler q) c w =
                  ran (respond served.2 c') served.1).
  { rewrite Hrun. unfold submitHandler. rewrite Hut. fold userType. fold served.
    by destruct served. }
  pose proof (ErrorAndLogHandler_written a (PublicJWTMiddleware (submitHandler q)) c w)
    as Hout.
  rewrite Hnext in Hout. specialize (Hout eq_refl). simpl in Hout.
  destruct Hout as (Hwr & _ & Hkv & Hq & Hp).
  fold (publicRoute a (submitHandler q)) in Hwr, Hkv, Hq, Hp. fold out in Hwr, Hkv, Hq, Hp.
  assert (Hview : clientView served.2 <> [] /\
    (Written (respond served.2 c') ++
     match last (Errors (respond served.2 c')) with
     | None => []
     | Some (Business b) =>
         if ErrCode b =? 601 then []
         else [(StatusOK, {| Code := ErrCode b; Message := ErrMessage b; Data := VNil |})]
     | Some (System msg) =>
         [(StatusInternalServerError,
           {| Code := 500; Message := "操作失败：" +:+ msg; Data := VNil |})]
     end)%list = (Written c ++ clientView served.2)%list).
  { destruct (SubmitFuzzyQuery_answers (withUserType q userType) w)
      as [(status & body & Hr)|(e & Hr & Hcode)]; fold served in Hr; rewrite Hr; simpl.
    - split; [done|]. rewrite Hw.
      destruct Hgrow as [->|[msg ->]].
      + by rewrite Herr, app_nil_r.
      + rewrite last_snoc. simpl. by rewrite app_nil_r.
    - assert (Hne : (ErrCode e =? 601) = false) by (apply Z.eqb_neq; lia).
      rewrite Hne, last_snoc, Hne, Hw. done. }
  destruct Hview as [Hne Hview].
  split; [by rewrite Hwr, Hview|]. split; [done|].
  split; [unfold priorityOf; simpl; subst userType; by destruct (vipClaims c)|].
  split; [done|]. split; [apply Hq, not_eq_sym, AccessLogQueueName_ne|done].
Qed.

(** What [JWTMiddleware] does with a request it rejects. *)
Lemma JWTMiddleware_rejects c w :
  bearerClaims c = None ->
  exists msg, forall next,
    JWTMiddleware next c w =
      ran (c_Abort (c_Error c (Business {| ErrCode := 401; ErrMessage := msg |}))) w.
Proof.
  unfold gin.bearerClaims, gin.JWTMiddleware, ran.
  destruct (String.eqb (Authorization c) ""); [eauto|].
  destruct (String.eqb (Sscanf_Bearer (Authorization c)).1 ""); [eauto|].
  intros ->. eauto.
Qed.

Lemma JWTMiddleware_admits next c w uid name :
  bearerClaims c = Some (uid, name) ->
  JWTMiddleware next c w =
    next (c_Set (c_Set c "userId" (VInt uid)) "userName" (VString name)) w.
Proof.
  unfold gin.bearerClaims, gin.JWTMiddleware.
  destruct (String.eqb (Authorization c) ""); [done|].
  destruct (String.eqb (Sscanf_Bearer (Authorization c)).1 ""); [done|].
  by intros ->.
Qed.

(** The profile a verified request is shown. *)
Lemma authRoute_profile a c w uid name :
  bearerClaims c = Some (uid, name) -> Errors c = [] ->
  Written (ctx (authRoute a UserProfileHandler c w)) =
    (Written c ++
     [(StatusOK,
       {| Code := 0; Message := "获取成功";
          Data := ginH [("userId", VInt uid); ("userName", VString name);
                        ("role", VString "admin")] |})])%list.
Proof.
  intros Hb Herr.
  pose proof (ErrorAndLogHandler_written a (JWTMiddleware UserProfileHandler) c w)
    as Hout.
  rewrite (JWTMiddleware_admits _ _ _ _ _ Hb) in Hout.
  specialize (Hout eq_refl). destruct Hout as (Hwr & _).
  unfold gin.authRoute. rewrite Hwr. unfold UserProfileHandler. simpl. rewrite Herr. simpl.
  rewrite app_nil_r.
  rewrite c_Get_Set_ne by done. by rewrite !c_Get_Set.
Qed.

(** X22. The protected route admits a request only with a bearer token
    that verifies. Any other request never reaches the handler, whichever
    it is: it is aborted with a 401 business error, which the client
    receives as a 200 response with code 401 in the body, and the keyspace
    and every queue but the access log's stay as they were. An admitted
    request reaches the handler with the claims' user id and user name in
    the context; the profile handler then answers with exactly these. *)
Theorem authRoute_admits_verified_bearer_only a h c w :
  match bearerClaims c with
  | None =>
      exists msg,
        Written (ctx (authRoute a h c w)) =
          (Written c ++
           [(StatusOK, {| Code := 401; Message := msg; Data := VNil |})])%list /\
        Aborted (ctx (authRoute a h c w)) = true /\
        kv (wld (authRoute a h c w)) = kv w /\
        (forall name, name <> AccessLogQueueName ->
           queue (mq (wld (authRoute a h c w))) name = queue (mq w) name) /\
        forall h', authRoute a h' c w = authRoute a h c w
  | Some (uid, name) =>
      authRoute a h c w =
        ErrorAndLogHandler a h
          (c_Set (c_Set c "userId" (VInt uid)) "userName" (VString name)) w /\
      (Errors c = [] ->
       Written (ctx (authRoute a UserProfileHandler c w)) =
         (Written c ++
          [(StatusOK,
            {| Code := 0; Message := "获取成功";
               Data := ginH [("userId", VInt uid); ("userName", VString name);
                             ("role", VString "admin")] |})])%list)
  end.
Proof.
  destruct (bearerClaims c) as [[uid name]|] eqn:Hb.
  - split; [|by apply authRoute_profile].
    unfold gin.authRoute, ErrorAndLogHandler.
    by rewrite (JWTMiddleware_admits _ _ _ _ _ Hb).
  - destruct (JWTMiddleware_rejects c w Hb) as (msg & Hrej).
    exists msg.
    pose proof (ErrorAndLogHandler_written a (JWTMiddleware h) c w) as Hout.
    rewrite (Hrej h) in Hout. specialize (Hout eq_refl). simpl in Hout.
    rewrite last_snoc in Hout. simpl in Hout.
    destruct Hout as (Hwr & Hab & Hkv & Hq & _).
    split; [exact Hwr|]. split; [exact Hab|]. split; [exact Hkv|].
    split; [exact Hq|].
    intros h'. unfold gin.authRoute, ErrorAndLogHandler.
    by rewrite (Hrej h), (Hrej h').
Qed.

(** X23. The access log of a request. With the broker up, a request whose
    handlers did not panic leaves exactly one message on the access-log
    queue, behind those already there, and nothing else changes: the
    message carries the method, the path and the query of the request, the
    elapsed milliseconds, and as status the code of the last error, 500 for
    an error that is no business error, or the status written when there
    was no error. A business error is therefore logged under its own code
    although the client is sent a 200. A request whose handler panicked is
    answered 500 and leaves no message. *)
Theorem ErrorAndLogHandler_logs_request a next c w :
  channel (mq (wld (next c w))) = true -> log_fault a = None ->
  let r := next c w in
  let out := ErrorAndLogHandler a next c w in
  match panic r with
  | Some v =>
      wld out = wld r /\ panic out = None /\
      Written (ctx out) =
        (Written (ctx r) ++
         [(StatusInternalServerError,
           {| Code := 500; Message := "服务器内部错误：" +:+ v; Data := VNil |})])%list
  | None =>
      exists l,
        queue (mq (wld out)) AccessLogQueueName =
          (queue (mq (wld r)) AccessLogQueueName ++
           [{| Body := json_Marshal (layoutValue l); Priority := 0 |}])%list /\
        kv (wld out) = kv (wld r) /\
        (forall name, name <> AccessLogQueueName ->
           queue (mq (wld out)) name = queue (mq (wld r)) name) /\
        Method l = Request_Method c /\ Path l = Request_Path c /\
        Query l = Request_RawQuery c /\
        Cost l = (clock_end a - clock_start a) ÷ 1000000 /\
        Status l =
          match last (Errors (ctx r)) with
          | None => Writer_Status (ctx r)
          | Some (Business b) => ErrCode b
          | Some (System _) => 500
          end /\
        Err l = match last (Errors (ctx r)) with
                | None => ""
                | Some e => errorText e
                end
  end.
Proof.
  intros Hch Hf r out. subst r out. unfold ErrorAndLogHandler.
  destruct (panic (next c w)) as [v|]; [done|].
  assert (Hpub : forall l,
    publishAccessLog a l (wld (next c w)) =
      ({| kv := kv (wld (next c w));
          mq := {| channel := true;
                   queues := <[AccessLogQueueName :=
                     (queue (mq (wld (next c w))) AccessLogQueueName ++
                      [{| Body := json_Marshal (layoutValue l); Priority := 0 |}])%list]>
                     (queues (mq (wld (next c w)))) |} |}, [])).
  { intros l. unfold publishAccessLog, PublishMQ. by rewrite Hch, Hf. }
  assert (Hq : forall l name, name <> AccessLogQueueName ->
    queue {| channel := true;
             queues := <[AccessLogQueueName :=
               (queue (mq (wld (next c w))) AccessLogQueueName ++
                [{| Body := json_Marshal (layoutValue l); Priority := 0 |}])%list]>
               (queues (mq (wld (next c w)))) |} name =
    queue (mq (wld (next c w))) name).
  { intros l name Hne. unfold queue. simpl. by rewrite lookup_insert_ne. }
  destruct (last (Errors (ctx (next c w)))) as [[b|msg]|];
    rewrite Hpub; simpl; eexists;
    (split; [unfold queue; simpl; by rewrite lookup_insert_eq|]);
    (split; [done|]); (split; [apply Hq|]); done.
Qed.

End MiddlewareFacts.

Section LoginAndLogs.
Import dbm until handle flow consumer gin.
Context `{GoRuntime}.
Context (Sscanf_Bearer : string -> string * option error).
Context (jwt_Parse : string -> option (Z * string)).
Context (jwt_SignedString : JwtClaims -> string * option error).
Context (validator_Error : list string -> error).
Context (json_UnmarshalLayout : string -> LogLayout * option error).
Implicit Types (c : Context) (w : World) (a : Access).

(** X24. Login, then the profile. Only the pair admin / 123456 is given a
    token. A body that does not decode, or that leaves the user name or the
    password empty, is refused with 400 and the text of the binding error,
    which names the empty fields; every other pair is refused with 403.
    Where the token signed for that login scans from its Bearer header and
    verifies with the claims it was signed for, a request on the protected
    route carrying it is shown the profile of user 1001, admin. *)
Theorem login_token_opens_profile a now token c w :
  GenerateJWT jwt_SignedString now 1001 "admin" = (token, None) ->
  token <> "" ->
  (Sscanf_Bearer ("Bearer " +:+ token)).1 = token ->
  jwt_Parse token = Some (1001, "admin") ->
  Authorization c = "Bearer " +:+ token -> Errors c = [] ->
  LoginHandler jwt_SignedString validator_Error (inr ("admin", "123456")) now =
    JSON StatusOK
      {| Code := 0; Message := "登录成功";
         Data := ginH [("token", VString token);
                       ("expire_hour", VInt JWTExpireHour)] |} /\
  Written (ctx (authRoute Sscanf_Bearer jwt_Parse a UserProfileHandler c w)) =
    (Written c ++
     [(StatusOK,
       {| Code := 0; Message := "获取成功";
          Data := ginH [("userId", VInt 1001); ("userName", VString "admin");
                        ("role", VString "admin")] |})])%list /\
  (forall u p t, u <> "" -> p <> "" -> u <> "admin" \/ p <> "123456" ->
     LoginHandler jwt_SignedString validator_Error (inr (u, p)) t =
       Error {| ErrCode := 403; ErrMessage := "用户名或密码错误" |}) /\
  (forall p t, p <> "" ->
     LoginHandler jwt_SignedString validator_Error (inr ("", p)) t =
       Error {| ErrCode := 400;
                ErrMessage := "参数错误：" +:+ validator_Error ["Username"] |}) /\
  (forall u t, u <> "" ->
     LoginHandler jwt_SignedString validator_Error (inr (u, "")) t =
       Error {| ErrCode := 400;
                ErrMessage := "参数错误：" +:+ validator_Error ["Password"] |}) /\
  (forall t,
     LoginHandler jwt_SignedString validator_Error (inr ("", "")) t =
       Error {| ErrCode := 400;
                ErrMessage := "参数错误：" +:+
                              validator_Error ["Username"; "Password"] |}) /\
  (forall err t,
     LoginHandler jwt_SignedString validator_Error (inl err) t =
       Error {| ErrCode := 400; ErrMessage := "参数错误：" +:+ err |}).
Proof.
  intros Hgen Hne Hscan Hparse Hauth Herr.
  split; [|split; [|split; [|split; [|split; [|split]]]]].
  - unfold LoginHandler. simpl. by rewrite Hgen.
  - apply authRoute_profile; [|done].
    unfold bearerClaims. rewrite Hauth, Hscan, Hparse.
    apply String.eqb_neq in Hne. rewrite Hne.
    by destruct (String.eqb ("Bearer " +:+ token) "") eqn:E.
  - intros u p t Hu0%String.eqb_neq Hp0%String.eqb_neq Hbad.
    unfold LoginHandler, ShouldBindJSON. rewrite Hu0, Hp0. simpl app. cbv iota.
    destruct Hbad as [Hu%String.eqb_neq|Hp%String.eqb_neq].
    + by rewrite Hu.
    + rewrite Hp. by rewrite orb_true_r.
  - intros p t Hp0%String.eqb_neq.
    unfold LoginHandler, ShouldBindJSON. simpl String.eqb at 1. by rewrite Hp0.
  - intros u t Hu0%String.eqb_neq.
    unfold LoginHandler, ShouldBindJSON. by rewrite Hu0.
  - done.
  - done.
Qed.

Lemma accessLogWorker_settles msg :
  length (List.filter settles (accessLogWorker json_UnmarshalLayout msg)) = 1%nat /\
  forall e, e ∈ accessLogWorker json_UnmarshalLayout msg ->
    forall m r, e <> EvNack m r.
Proof.
  unfold accessLogWorker.
  destruct (json_UnmarshalLayout (Body msg)) as [logData [err|]];
    destruct (Status logData =? 200); simpl; (split; [done|]);
    intros e; rewrite ?elem_of_cons, elem_of_nil; intros He m r;
    repeat destruct He as [->|He]; done.
Qed.

(** X25. The access-log consumer acknowledges every delivery exactly once
    and never rejects one, whether or not the message decodes; it logs the
    exit only when it was cancelled, not when the channel was closed. *)
Theorem startAccessLogConsumer_acks_each_delivery msgs cancelled :
  let trace := startAccessLogConsumer json_UnmarshalLayout msgs cancelled in
  length (List.filter settles trace) = length msgs /\
  (forall e, e ∈ trace -> forall m r, e <> EvNack m r) /\
  (EvLog LInfo "访问日志消费者退出" ∈ trace <-> cancelled = true).
Proof.
  induction msgs as [|msg rest IH]; simpl.
  - destruct cancelled; simpl.
    + split; [done|]. split.
      * intros e ->%list_elem_of_singleton. done.
      * split; [done|]. intros _. by left.
    + split; [done|]. split; [by intros e ?%elem_of_nil|].
      split; [by intros ?%elem_of_nil|done].
  - destruct IH as (Hn & Hnack & Hexit).
    destruct (accessLogWorker_settles msg) as (H1 & H2).
    split; [by rewrite List.filter_app, length_app, H1, Hn|].
    split.
    + intros e [He|He]%elem_of_app; [by apply H2|by apply Hnack].
    + rewrite elem_of_app, Hexit. split; [|by right].
      intros [He|?]; [|done]. exfalso. revert He. unfold accessLogWorker.
      destruct (json_UnmarshalLayout (Body msg)) as [logData [err|]];
        destruct (Status logData =? 200); simpl;
        rewrite ?elem_of_cons, elem_of_nil; intros He;
        repeat destruct He as [He|He]; done.
Qed.

End LoginAndLogs.

Section MiddlewareExamples.
Import dbm until handle flow consumer gin Reference.
#[local] Existing Instance Reference.runtime.

Lemma publicRoute_submission_answer_witness :
  let q := submission "weather" 0 "r1" "l1" in
  let c := request "Bearer good" in
  Written (ctx (publicRoute scanBearer parseGood access0 (submitHandler q) c world0)) =
    (Written c ++
     clientView
       (SubmitFuzzyQuery
          (withUserType q (if vipClaims scanBearer parseGood c is Some _
                           then UserTypeVIP else UserTypeNormal)) world0).2)%list /\
  priorityOf
    (withUserType q (if vipClaims scanBearer parseGood c is Some _
                     then UserTypeVIP else UserTypeNormal)) = 10.
Proof.
  intros q c.
  destruct (publicRoute_submission_answer scanBearer parseGood access0 q c world0)
    as (Hw & _ & Hp & _); [reflexivity|].
  split; [exact Hw | exact Hp].
Defined.

Lemma ErrorAndLogHandler_logs_request_witness :
  let next := PublicJWTMiddleware scanBearer parseGood
                (submitHandler (submission "weather" 0 "r1" "l1")) in
  let c := request "Bearer bad" in
  exists l,
    queue (mq (wld (ErrorAndLogHandler access0 next c world0))) AccessLogQueueName =
      (queue (mq (wld (next c world0))) AccessLogQueueName ++
       [{| Body := json_Marshal (layoutValue l); Priority := 0 |}])%list /\
    Status l = 601 /\ Cost l = 2.
Proof.
  intros next c.
  pose proof (ErrorAndLogHandler_logs_request access0 next c world0) as Hlog.
  destruct Hlog as (l & Hq & _ & _ & _ & _ & _ & Hc & Hs & _);
    [reflexivity | reflexivity |].
  exists l. split; [exact Hq|]. split; [exact Hs | exact Hc].
Defined.

Lemma login_token_opens_profile_witness :
  let c := request "Bearer good" in
  LoginHandler (fun _ => ("good", None)) (fun _ => "required")
               (inr ("admin", "123456")) 0 =
    JSON StatusOK
      {| Code := 0; Message := "登录成功";
         Data := ginH [("token", VString "good");
                       ("expire_hour", VInt JWTExpireHour)] |} /\
  Written (ctx (authRoute scanBearer parseGood access0 UserProfileHandler c world0)) =
    (Written c ++
     [(StatusOK,
       {| Code := 0; Message := "获取成功";
          Data := ginH [("userId", VInt 1001); ("userName", VString "admin");
                        ("role", VString "admin")] |})])%list /\
  LoginHandler (fun _ => ("good", None)) (fun _ => "required")
               (inr ("admin", "")) 0 =
    Error {| ErrCode := 400; ErrMessage := "参数错误：" +:+ "required" |}.
Proof.
  intros c.
  destruct (login_token_opens_profile scanBearer parseGood (fun _ => ("good", None))
              (fun _ => "required") access0 0 "good" c world0)
    as (Hl & Hp & _ & _ & He & _);
    [reflexivity | discriminate | reflexivity | reflexivity | reflexivity
    | reflexivity |].
  split; [exact Hl|]. split; [exact Hp|]. apply (He "admin" 0). discriminate.
Defined.

End MiddlewareExamples.
Section PollRoute.
Import dbm until handle flow consumer gin.
Context `{GoRuntime}.
Context (Sscanf_Bearer : string -> string * option error).
Context (jwt_Parse : string -> option (Z * string)).
Implicit Types (c : Context) (w : World) (a : Access).

(** X26. A poll on the public route reads only. On a fresh context the
    client is sent what [GetFuzzyQueryResult] answered, an error as a 200
    response with the code in the body, so an unknown or expired request id
    is answered 200 with code 404; the keyspace and every queue but the
    access log's are left as they were, whatever the token. *)
Theorem publicRoute_poll_reads_only a (p : Poll) c w :
  Errors c = [] ->
  let out := publicRoute Sscanf_Bearer jwt_Parse a (resultHandler p) c w in
  Written (ctx out) = (Written c ++ clientView (GetFuzzyQueryResult p (kv w)))%list /\
  kv (wld out) = kv w /\
  (forall name, name <> AccessLogQueueName ->
     queue (mq (wld out)) name = queue (mq w) name) /\
  (GetFuzzyQueryResult p (kv w) = notFound ->
   Written (ctx out) =
     (Written c ++
      [(StatusOK, {| Code := 404; Message := "请求不存在或已过期"; Data := VNil |})])%list).
Proof.
  intros Herr out.
  destruct (PublicJWTMiddleware_next Sscanf_Bearer jwt_Parse (resultHandler p) c w)
    as (c' & Hrun & Hw & _ & Hgrow).
  pose proof (ErrorAndLogHandler_written a
                (PublicJWTMiddleware Sscanf_Bearer jwt_Parse (resultHandler p)) c w)
    as Hout.
  rewrite Hrun in Hout. specialize (Hout eq_refl).
  destruct Hout as (Hwr & _ & Hkv & Hq & _).
  fold (publicRoute Sscanf_Bearer jwt_Parse a (resultHandler p)) in Hwr, Hkv, Hq.
  fold out in Hwr, Hkv, Hq. unfold resultHandler in Hwr, Hkv, Hq. simpl in Hwr, Hkv, Hq.
  assert (Hview : Written (ctx out) =
            (Written c ++ clientView (GetFuzzyQueryResult p (kv w)))%list).
  { rewrite Hwr. destruct (GetFuzzyQueryResult p (kv w)) as [status body|e|]; simpl.
    - rewrite Hw. destruct Hgrow as [->|[msg ->]].
      + by rewrite Herr, app_nil_r.
      + rewrite last_snoc. simpl. by rewrite app_nil_r.
    - rewrite last_snoc, Hw. by destruct (ErrCode e =? 601).
    - rewrite Hw. destruct Hgrow as [->|[msg ->]].
      + by rewrite Herr.
      + by rewrite last_snoc. }
  split; [exact Hview|]. split; [exact Hkv|]. split; [exact Hq|].
  intros Hnf. by rewrite Hview, Hnf.
Qed.

End PollRoute.

Section PollRouteExamples.
Import dbm until handle flow consumer gin Reference.
#[local] Existing Instance Reference.runtime.

Lemma publicRoute_poll_reads_only_witness :
  let p := pollOf (submission "weather" 0 "r1" "l1") 0 in
  let c := request "" in
  Written (ctx (publicRoute scanBearer parseGood access0 (resultHandler p) c world0)) =
    (Written c ++
     [(StatusOK, {| Code := 404; Message := "请求不存在或已过期"; Data := VNil |})])%list.
Proof.
  intros p c.
  destruct (publicRoute_poll_reads_only scanBearer parseGood access0 p c world0)
    as (_ & _ & _ & Hnf); [reflexivity|].
  apply Hnf. reflexivity.
Defined.

End PollRouteExamples.

(** ** A failed publish and the retry *)

Section PublishFailure.
Import dbm until handle flow.
Context `{GoRuntime}.
Implicit Types (q : Submission) (w : World) (s : store).

Lemma loadingFields_status kw now (h : gmap string string) :
  field (set_fields (loadingFields kw now) h) "status" = "loading".
Proof. apply field_set_fields; [apply loadingFields_NoDup | by left]. Qed.

(** The entry [markLoading] leaves over a visible hash or no entry. *)
Lemma markLoading_lookup q s :
  hashable (at_time q) s (cacheKeyOf q) ->
  exists h0, HGetAll (at_time q) s (cacheKeyOf q) = inr h0 /\
    markLoading q s !! cacheKeyOf q =
      Some (Entry (RHash (set_fields (loadingFields (keyword q) (at_time q)) h0))
                  (Some (at_time q + 10 * Minute))).
Proof.
  intros Hh. unfold markLoading.
  destruct (HSet_Expire_lookup (at_time q) s (cacheKeyOf q)
              (loadingFields (keyword q) (at_time q)) FuzzyCacheExpire Hh)
    as (h0 & Hg & Hk).
  exists h0. split; [done|]. exact Hk.
Qed.

(** A submission that reads a [loading] entry answers with the polling hint
    and publishes nothing, whether it gets the lock or not. *)
Lemma SubmitFuzzyQuery_while_loading q w :
  keyword q <> "" -> read_fault q = None -> lock_fault q = None ->
  entryStatus (at_time q) (kv w) (cacheKeyOf q) = Some "loading" ->
  SubmitFuzzyQuery q w =
    ({| kv := writeHandle q
                (SetNX (at_time q) (kv w) (lockKeyOf q) (lockVal q) (5 * Second)).2;
        mq := mq w |}, pollingHint q).
Proof.
  intros Hkw Hrf Hlf Hst.
  pose proof (entryStatus_loading_read q w Hst Hrf) as Hread.
  rewrite (SubmitFuzzyQuery_past_lookup q w "loading" Hkw Hread Hlf).
  destruct (SetNX _ _ _ _ _) as [ok s1]. simpl. by rewrite andb_false_r.
Qed.

(** C6. The failing input is a first submission of a keyword (no cache
    entry, the lock free) whose publish fails with [e]. As the claim says,
    the handler answers with the 500 error naming the keyword and [e],
    enqueues nothing, writes no request handle and leaves the lock key as
    the SETNX created it, visible for its 5 s and gone afterwards. But it
    has marked the cache entry [loading] for ten minutes before the publish
    and does not undo the mark: a retry [q'] of the keyword at any instant of
    those ten minutes, also once the lock has expired, and whether or not
    the broker is back, is answered with the polling hint and enqueues
    nothing, and every poll of its handle is answered with progress 70. *)
Theorem SubmitFuzzyQuery_publish_failure_blocks_retry q w e q' :
  keyword q <> "" -> reqID q' <> "" ->
  read_fault q = None -> lock_fault q = None ->
  channel (mq w) = true -> publish_fault q = Some e ->
  live (at_time q) (kv w) (cacheKeyOf q) = None ->
  live (at_time q) (kv w) (lockKeyOf q) = None ->
  keyword q' = keyword q -> read_fault q' = None -> lock_fault q' = None ->
  at_time q <= at_time q' < at_time q + 10 * Minute ->
  hashable (at_time q') (kv w) (handleKeyOf q') ->
  let out := SubmitFuzzyQuery q w in
  let again := SubmitFuzzyQuery q' out.1 in
  out.2 = Error {| ErrCode := 500;
                   ErrMessage := "发布模糊查询 MQ 消息失败 keyword:" +:+ keyword q +:+
                                 " error:" +:+ e |} /\
  mq out.1 = mq w /\
  kv out.1 !! lockKeyOf q = Some (lockEntry q) /\
  (forall t, t < at_time q + 5 * Second ->
     live t (kv out.1) (lockKeyOf q) = Some (lockEntry q)) /\
  (forall t, at_time q + 5 * Second <= t -> live t (kv out.1) (lockKeyOf q) = None) /\
  kv out.1 !! handleKeyOf q = kv w !! handleKeyOf q /\
  kv out.1 !! cacheKeyOf q =
    Some (Entry (RHash (set_fields (loadingFields (keyword q) (at_time q)) ∅))
                (Some (at_time q + 10 * Minute))) /\
  again.2 = pollingHint q' /\
  mq again.1 = mq w /\
  (forall t, at_time q' <= t < at_time q' + 5 * Minute ->
     t < at_time q + 10 * Minute ->
     GetFuzzyQueryResult (pollOf q' t) (kv again.1) = progressReply (reqID q') 70).
Proof.
  intros Hkw Hid' Hrf Hlf Hch Hpf Hcache Hlock Hsame Hrf' Hlf' Ht' Hh' out again.
  set (s0 := markLoading q (<[lockKeyOf q := lockEntry q]> (kv w))).
  assert (Hout : out = ({| kv := s0; mq := mq w |}, publishError q e)).
  { subst out.
    assert (Hread : cacheRead q w = (VNil, "", None)).
    { unfold cacheRead, GetDataByKey, HGetAll. rewrite Hrf.
      fold (cacheKeyOf q). by rewrite Hcache. }
    rewrite (SubmitFuzzyQuery_past_lookup q w "" Hkw Hread Hlf).
    unfold SetNX. rewrite Hlock. simpl.
    unfold PublishPriorityMQ. by rewrite Hch, Hpf. }
  assert (Hlk : s0 !! lockKeyOf q = Some (lockEntry q)).
  { subst s0.
    rewrite markLoading_lookup_ne by (apply not_eq_sym, cacheKeyOf_ne_lockKeyOf).
    apply lookup_insert_eq. }
  assert (Hc : s0 !! cacheKeyOf q =
    Some (Entry (RHash (set_fields (loadingFields (keyword q) (at_time q)) ∅))
                (Some (at_time q + 10 * Minute)))).
  { subst s0.
    assert (Hl : live (at_time q) (<[lockKeyOf q := lockEntry q]> (kv w)) (cacheKeyOf q)
                 = None).
    { rewrite live_insert_ne; [done|]. apply not_eq_sym, cacheKeyOf_ne_lockKeyOf. }
    destruct (markLoading_lookup q (<[lockKeyOf q := lockEntry q]> (kv w)))
      as (h0 & Hg & Hk).
    { intros v ex. by rewrite Hl. }
    unfold HGetAll in Hg. rewrite Hl in Hg. by injection Hg as <-. }
  assert (Hck : cacheKeyOf q' = cacheKeyOf q) by (unfold cacheKeyOf; by rewrite Hsame).
  assert (Hkw' : keyword q' <> "") by by rewrite Hsame.
  assert (Hst : entryStatus (at_time q') s0 (cacheKeyOf q') = Some "loading").
  { unfold entryStatus, live. rewrite Hck, Hc. unfold alive. cbn [e_exp].
    rewrite (proj2 (Z.ltb_lt _ _)) by lia. by rewrite loadingFields_status. }
  pose proof (SubmitFuzzyQuery_while_loading q' {| kv := s0; mq := mq w |}
                Hkw' Hrf' Hlf' Hst) as Hagain.
  cbn [kv mq] in Hagain.
  assert (Hagain' : again =
    ({| kv := writeHandle q'
                (SetNX (at_time q') s0 (lockKeyOf q') (lockVal q') (5 * Second)).2;
        mq := mq w |}, pollingHint q')).
  { subst again. rewrite Hout. exact Hagain. }
  rewrite Hout, Hagain'. cbn [fst snd kv mq].
  split; [done|]. split; [done|]. split; [exact Hlk|].
  split; [|split; [|split; [|split; [exact Hc|split; [done|split; [done|]]]]]].
  - intros t Ht. unfold live. rewrite Hlk. unfold alive. simpl.
    by rewrite (proj2 (Z.ltb_lt _ _) Ht).
  - intros t Ht. unfold live. rewrite Hlk. unfold alive. simpl.
    by rewrite (proj2 (Z.ltb_ge _ _) Ht).
  - subst s0. rewrite markLoading_lookup_ne by apply handleKey_ne_cacheKey.
    apply lookup_insert_ne, not_eq_sym, handleKey_ne_lockKey.
  - intros t Ht Hten.
    set (s1 := (SetNX (at_time q') s0 (lockKeyOf q') (lockVal q') (5 * Second)).2).
    assert (Hs1 : forall k, k <> lockKeyOf q' -> s1 !! k = s0 !! k).
    { intros k Hk. subst s1. by apply SetNX_lookup_ne. }
    destruct (writeHandle_lookup q' s1) as (h0 & Hk).
    { eapply hashable_ext; [|exact Hh'].
      rewrite Hs1 by apply handleKey_ne_lockKey. subst s0.
      rewrite markLoading_lookup_ne by apply handleKey_ne_cacheKey.
      rewrite lookup_insert_ne; [done|]. apply not_eq_sym, handleKey_ne_lockKey. }
    erewrite (GetFuzzyQueryResult_through q' t _ h0); [|exact Hid'|exact Hk| | | |].
    + by rewrite loadingFields_status.
    + unfold alive. cbn [e_exp]. apply Z.ltb_lt. lia.
    + rewrite writeHandle_lookup_ne by (apply not_eq_sym, handleKey_ne_cacheKey).
      rewrite Hs1 by apply cacheKeyOf_ne_lockKeyOf. rewrite Hck. exact Hc.
    + unfold alive. cbn [e_exp]. apply Z.ltb_lt. lia.
    + by rewrite loadingFields_status.
Qed.

End PublishFailure.

Section PublishFailureExamples.
Import dbm until handle flow Reference.
#[local] Existing Instance Reference.runtime.

(** The broker times out at 0 s; the keyword is submitted again at 6 s, the
    lock gone and the broker back. *)
Lemma SubmitFuzzyQuery_publish_failure_blocks_retry_witness :
  let retry := submission "weather" (6 * Second) "r2" "l2" in
  (SubmitFuzzyQuery brokerDown world0).2 =
    Error {| ErrCode := 500;
             ErrMessage := "发布模糊查询 MQ 消息失败 keyword:" +:+ keyword brokerDown +:+
                           " error:" +:+ "context deadline exceeded" |} /\
  live (6 * Second) (kv (SubmitFuzzyQuery brokerDown world0).1)
       (lockKeyOf brokerDown) = None /\
  (SubmitFuzzyQuery retry (SubmitFuzzyQuery brokerDown world0).1).2 =
    pollingHint retry /\
  mq (SubmitFuzzyQuery retry (SubmitFuzzyQuery brokerDown world0).1).1 = mq world0.
Proof.
  intros retry.
  destruct (SubmitFuzzyQuery_publish_failure_blocks_retry brokerDown world0
              "context deadline exceeded" retry)
    as (Hr & _ & _ & _ & Hgone & _ & _ & Hhint & Hmq & _);
    [first [discriminate | reflexivity | apply hashable_empty | by vm_compute] ..|].
  split; [exact Hr|]. split; [apply Hgone; by vm_compute|].
  split; [exact Hhint | exact Hmq].
Defined.

End PublishFailureExamples.

(** ** A ready entry set back to loading *)

Section StatusLowered.
Import dbm until handle flow.
Context `{GoRuntime}.
Implicit Types (q : Submission) (w : World) (s : store).

(** C5. The failing input is a submission that finds the entry of its
    keyword [ready] but with a payload that decodes to nil, as the worker
    leaves it when the search failed, and the lock free, as it is five
    seconds after the submission that took it. The entry is visible, so its
    expiry has not passed; the handler reads no payload, takes the lock and
    sets the status back to [loading] for another ten minutes, which the
    order absent < loading < ready forbids; it answers with the polling hint
    and puts a work item for the keyword on the queue again. *)
Theorem SubmitFuzzyQuery_lowers_ready_without_payload q w h ex :
  keyword q <> "" ->
  read_fault q = None -> lock_fault q = None -> publish_fault q = None ->
  channel (mq w) = true ->
  kv w !! cacheKeyOf q = Some (Entry (RHash h) ex) ->
  (forall t, ex = Some t -> at_time q < t) ->
  h !! "status" = Some "ready" ->
  default VNil (json_Unmarshal (default "" (h !! "data"))) = VNil ->
  live (at_time q) (kv w) (lockKeyOf q) = None ->
  let out := SubmitFuzzyQuery q w in
  entryStatus (at_time q) (kv w) (cacheKeyOf q) = Some "ready" /\
  kv out.1 !! cacheKeyOf q =
    Some (Entry (RHash (set_fields (loadingFields (keyword q) (at_time q)) h))
                (Some (at_time q + 10 * Minute))) /\
  (forall t, at_time q <= t < at_time q + 10 * Minute ->
     entryStatus t (kv out.1) (cacheKeyOf q) = Some "loading") /\
  ~ statusNonDecreasing (Submit q) w (keyword q) /\
  out.2 = pollingHint q /\
  queue (mq out.1) FuzzyQueueName =
    (queue (mq w) FuzzyQueueName ++
     [{| Body := json_Marshal (VMap {[ "keyword" := VString (keyword q) ]});
         Priority := if String.eqb (user_type q) "vip" then 10 else 0 |}])%list.
Proof.
  intros Hkw Hrf Hlf Hpf Hch Hk Hvis Hst Hdata Hlock out.
  pose proof (live_visible (at_time q) (kv w) _ _ ex Hk Hvis) as Hlive.
  assert (Hbefore : entryStatus (at_time q) (kv w) (cacheKeyOf q) = Some "ready").
  { unfold entryStatus. rewrite Hlive. unfold field. by rewrite Hst. }
  assert (Hread : cacheRead q w = (VNil, "", None)).
  { unfold cacheRead, GetDataByKey, HGetAll. rewrite Hrf.
    fold (cacheKeyOf q). rewrite Hlive.
    rewrite (size_pos_lookup h "status" "ready" Hst).
    unfold field. rewrite Hst. simpl. by rewrite Hdata. }
  set (s0 := <[lockKeyOf q := lockEntry q]> (kv w)).
  assert (Hl0 : live (at_time q) s0 (cacheKeyOf q) = Some (Entry (RHash h) ex)).
  { subst s0. rewrite live_insert_ne; [done|].
    apply not_eq_sym, cacheKeyOf_ne_lockKeyOf. }
  destruct (markLoading_lookup q s0) as (h0 & Hg & Hc).
  { intros v ex'. by rewrite Hl0. }
  unfold HGetAll in Hg. rewrite Hl0 in Hg. injection Hg as <-.
  assert (Hout : exists mq',
    out = ({| kv := writeHandle q (markLoading q s0); mq := mq' |}, pollingHint q) /\
    queue mq' FuzzyQueueName = (queue (mq w) FuzzyQueueName ++ [workItemOf q])%list).
  { subst out.
    rewrite (SubmitFuzzyQuery_past_lookup q w "" Hkw Hread Hlf).
    unfold SetNX. rewrite Hlock. simpl.
    destruct (PublishPriorityMQ _ _ _ _ _) as [e|mq'] eqn:Hp.
    - unfold PublishPriorityMQ in Hp. by rewrite Hch, Hpf in Hp.
    - exists mq'. split; [done|]. by apply (queue_publish _ _ _ _ _ _ Hp). }
  destruct Hout as (mq' & Hout & Hq). rewrite Hout. cbn [fst snd kv mq].
  assert (Hafter : writeHandle q (markLoading q s0) !! cacheKeyOf q =
    Some (Entry (RHash (set_fields (loadingFields (keyword q) (at_time q)) h))
                (Some (at_time q + 10 * Minute)))).
  { rewrite writeHandle_lookup_ne by (apply not_eq_sym, handleKey_ne_cacheKey).
    exact Hc. }
  assert (Hloading : forall t, at_time q <= t < at_time q + 10 * Minute ->
    entryStatus t (writeHandle q (markLoading q s0)) (cacheKeyOf q) = Some "loading").
  { intros t Ht. unfold entryStatus, live. rewrite Hafter. unfold alive. cbn [e_exp].
    rewrite (proj2 (Z.ltb_lt _ _)) by lia. by rewrite loadingFields_status. }
  split; [exact Hbefore|]. split; [exact Hafter|]. split; [exact Hloading|].
  split; [|split; [done|exact Hq]].
  unfold statusNonDecreasing. cbn [opTime step].
  fold (cacheKeyOf q). fold out. rewrite Hout. cbn [fst kv].
  rewrite Hbefore, Hloading by (unfold Minute, Second, Nanosecond; lia).
  simpl. lia.
Qed.

End StatusLowered.

Section StatusLoweredExamples.
Import dbm mongo until handle flow Reference.
#[local] Existing Instance Reference.runtime.

(** The keyword is submitted at 0 s and its work item served at 1 s by a
    search that fails, which leaves the entry [ready] with the payload null
    and an expiry ten minutes later; the submission at 6 s sets it back to
    [loading]. *)
Lemma SubmitFuzzyQuery_lowers_ready_without_payload_witness :
  entryStatus (6 * Second) (kv afterFailedSearch) (GetFuzzyCacheKey "weather") =
    Some "ready" /\
  e_exp <$> (kv afterFailedSearch !! GetFuzzyCacheKey "weather") =
    Some (Some (Second + FuzzyCacheExpire)) /\
  (forall t, 6 * Second <= t < 6 * Second + 10 * Minute ->
     entryStatus t (kv (step resubmit afterFailedSearch))
                 (GetFuzzyCacheKey "weather") = Some "loading") /\
  ~ statusNonDecreasing resubmit afterFailedSearch "weather".
Proof.
  destruct (SubmitFuzzyQuery_lowers_ready_without_payload
              (submission "weather" (6 * Second) "r2" "l2") afterFailedSearch
              (set_fields (readyFields "null" Second)
                 (set_fields (loadingFields "weather" 0) ∅))
              (Some (Second + FuzzyCacheExpire)))
    as (Hb & _ & Hl & Hn & _);
    [first [discriminate | reflexivity | by vm_compute
           | intros t [= <-]; by vm_compute] ..|].
  split; [exact Hb|]. split; [reflexivity|]. split; [exact Hl | exact Hn].
Defined.

(** The same lowering without a failing search, on the handler taken
    command by command: the second request looks the cache up before the
    first has marked the entry, the first runs to its end and the worker
    writes the empty result list at 1 s; the second request goes on at 6 s,
    takes the lock that has expired, marks the [ready] entry [loading] over
    its payload and publishes a second work item. *)
Lemma stalled_submission_lowers_ready_payload :
  let served := sysRun stalledSchedule racingRequests in
  let resumed := sysRun stalledResume served in
  GetDataByKey None (6 * Second) (kv (world served)) (GetFuzzyCacheKey "weather") =
    (VList [], "", None) /\
  entryStatus (6 * Second) (kv (world served)) (GetFuzzyCacheKey "weather") =
    Some "ready" /\
  entryStatus (6 * Second) (kv (world resumed)) (GetFuzzyCacheKey "weather") =
    Some "loading" /\
  enqueued (world served) = 1%nat /\
  enqueued (world resumed) = 2%nat.
Proof. by vm_compute. Qed.

End StatusLoweredExamples.
